(** * Data cleaner: column typing, cleaning, validation and status scoring

    A shallow embedding of [services/parser.py], [services/cleaner.py] and
    [services/validator.py], followed by [services/tier_manager.py], the
    data path of [routers/upload.py], the column classifier of
    [services/visualizer.py] and the helpers of [utils/].  Python values
    are embedded as follows:

    - [str] is [string]; the embedding covers ASCII text (code points above
      127 are neither whitespace, digits nor word characters here and are
      left alone by [lower]);
    - Python/numpy floats are binary64 primitive floats, so that the
      comparisons against [0.7], [0.8], [5], [10], [20] and [50] are the
      comparisons the interpreter performs;
    - a pandas column is a dtype and a list of cells, a frame is a row index
      and an ordered list of named columns; [df[col]] is read as one
      column, which is what pandas returns when the labels are distinct;
    - exceptions are values of an error monad;
    - pandas calls whose result depends on the installed pandas
      ([to_datetime], [to_numeric], the [repr] of a float) are the methods of
      the class [Pandas]. *)

From Stdlib Require Import List ZArith Floats Uint63 Lia Bool Ascii String.
From Stdlib Require Import DecimalString.
From stdpp Require Import base option list gmap strings.
Import ListNotations.

Local Open Scope string_scope.
Local Open Scope list_scope.
Set Warnings "-inexact-float".

(** ** Python text primitives *)

Module PyStr.

Definition code (c : ascii) : nat := nat_of_ascii c.

(** [str.isspace] on ASCII: TAB..CR, FS..US and the space. *)
Definition is_space (c : ascii) : bool :=
  let n := code c in
  ((9 <=? n)%nat && (n <=? 13)%nat) || ((28 <=? n)%nat && (n <=? 32)%nat).

(** [\d] *)
Definition is_digit (c : ascii) : bool :=
  let n := code c in (48 <=? n)%nat && (n <=? 57)%nat.

Definition is_upper (c : ascii) : bool :=
  let n := code c in (65 <=? n)%nat && (n <=? 90)%nat.

Definition is_lower (c : ascii) : bool :=
  let n := code c in (97 <=? n)%nat && (n <=? 122)%nat.

(** [\w] *)
Definition is_word (c : ascii) : bool :=
  is_digit c || is_upper c || is_lower c || Ascii.eqb c "_".

Definition lower_char (c : ascii) : ascii :=
  if is_upper c then ascii_of_nat (code c + 32) else c.

(** [s.lower()] *)
Fixpoint lower (s : string) : string :=
  match s with
  | EmptyString => EmptyString
  | String c s' => String (lower_char c) (lower s')
  end.

Fixpoint lstrip_by (p : ascii -> bool) (s : string) : string :=
  match s with
  | EmptyString => EmptyString
  | String c s' => if p c then lstrip_by p s' else s
  end.

Fixpoint rstrip_by (p : ascii -> bool) (s : string) : string :=
  match s with
  | EmptyString => EmptyString
  | String c s' =>
      match rstrip_by p s' with
      | EmptyString => if p c then EmptyString else String c EmptyString
      | r => String c r
      end
  end.

Definition strip_by (p : ascii -> bool) (s : string) : string :=
  rstrip_by p (lstrip_by p s).

(** [s.strip()] *)
Definition strip (s : string) : string := strip_by is_space s.

(** [s.strip('_')] *)
Definition strip_underscores (s : string) : string :=
  strip_by (fun c => Ascii.eqb c "_") s.

(** [s.replace(c, '')] for a one-character [c]. *)
Fixpoint remove_char (c : ascii) (s : string) : string :=
  match s with
  | EmptyString => EmptyString
  | String d s' =>
      if Ascii.eqb d c then remove_char c s' else String d (remove_char c s')
  end.

(** [re.sub(cls+, '_', s)]: every maximal run of characters of the class
    becomes one underscore. *)
Fixpoint sub_runs_from (p : ascii -> bool) (in_run : bool) (s : string)
  : string :=
  match s with
  | EmptyString => EmptyString
  | String c s' =>
      if p c then
        if in_run then sub_runs_from p true s'
        else String "_" (sub_runs_from p true s')
      else String c (sub_runs_from p false s')
  end.

Definition sub_runs (p : ascii -> bool) (s : string) : string :=
  sub_runs_from p false s.

(** [re.sub(cls, '_', s)]: every character of the class becomes an
    underscore. *)
Fixpoint sub_each (p : ascii -> bool) (s : string) : string :=
  match s with
  | EmptyString => EmptyString
  | String c s' => String (if p c then "_"%char else c) (sub_each p s')
  end.

End PyStr.

(** ** Regular expressions

    The patterns of [is_date_column] are kept as data and run by a
    derivative matcher; character classes are boolean predicates. *)

Module Re.

Inductive re : Type :=
| Void
| Eps
| Cls (p : ascii -> bool)
| Cat (r1 r2 : re)
| Alt (r1 r2 : re)
| Star (r : re).

Definition Lit (c : ascii) : re := Cls (Ascii.eqb c).
Definition Opt (r : re) : re := Alt Eps r.
Definition Plus (r : re) : re := Cat r (Star r).

(** [r{n}] *)
Fixpoint Rep (n : nat) (r : re) : re :=
  match n with
  | O => Eps
  | S n' => Cat r (Rep n' r)
  end.

(** [r{0,k}] *)
Fixpoint UpTo (k : nat) (r : re) : re :=
  match k with
  | O => Eps
  | S k' => Opt (Cat r (UpTo k' r))
  end.

(** [r{n,m}] *)
Definition Range (n m : nat) (r : re) : re := Cat (Rep n r) (UpTo (m - n) r).

Fixpoint nullable (r : re) : bool :=
  match r with
  | Void => false
  | Eps => true
  | Cls _ => false
  | Cat r1 r2 => nullable r1 && nullable r2
  | Alt r1 r2 => nullable r1 || nullable r2
  | Star _ => true
  end.

Fixpoint deriv (c : ascii) (r : re) : re :=
  match r with
  | Void => Void
  | Eps => Void
  | Cls p => if p c then Eps else Void
  | Cat r1 r2 =>
      if nullable r1 then Alt (Cat (deriv c r1) r2) (deriv c r2)
      else Cat (deriv c r1) r2
  | Alt r1 r2 => Alt (deriv c r1) (deriv c r2)
  | Star r1 => Cat (deriv c r1) (Star r1)
  end.

Fixpoint full_match (r : re) (s : string) : bool :=
  match s with
  | EmptyString => nullable r
  | String c s' => full_match (deriv c r) s'
  end.

(** [re.match('^' r '$', s)]: [$] also matches just before a final
    newline. *)
Definition match_anchored (r : re) (s : string) : bool :=
  full_match (Cat r (Opt (Lit "010"))) s.

End Re.

(** ** Exceptions *)

Inductive exn : Type :=
| KeyError
| ZeroDivisionError
| LibraryError.

Inductive result (A : Type) : Type :=
| Ok (a : A)
| Raise (e : exn).

Arguments Ok {A} a.
Arguments Raise {A} e.

#[export] Instance result_ret : MRet result := fun A a => Ok a.

#[export] Instance result_bind : MBind result :=
  fun A B f m => match m with Ok a => f a | Raise e => Raise e end.

(** [try: body except Exception: handler] *)
Definition try_except {A : Type} (body : result A) (handler : result A)
  : result A :=
  match body with
  | Ok a => Ok a
  | Raise _ => handler
  end.

(** ** Numbers *)

(** Counts are converted as [float(n)]; they stay below 2^53. *)
Definition float_of_nat (n : nat) : float :=
  PrimFloat.of_uint63 (Uint63.of_Z (Z.of_nat n)).

(** [a / b] on integer counts.  A zero divisor raises (on numpy integers it
    yields inf or nan with a warning); every call site below is guarded. *)
Definition true_div (a b : nat) : result float :=
  if (b =? 0)%nat then Raise ZeroDivisionError
  else Ok (float_of_nat a / float_of_nat b)%float.

Definition percent (a b : nat) : result float :=
  q ← true_div a b; Ok (q * 100)%float.

(** [x > y] on floats *)
Definition fgt (x y : float) : bool := PrimFloat.ltb y x.

(** ** Cells, columns and the pandas interface *)

Record timestamp : Type := Timestamp {
  ts_year : nat;
  ts_month : nat;
  ts_day : nat;
  ts_time : nat
}.

(** A cell is a runtime value; [Null] stands for [None], [NaN] and [NaT],
    which [isna] does not tell apart.  [VFloat] never holds a NaN. *)
Inductive cell : Type :=
| Null
| VBool (b : bool)
| VInt (z : Z)
| VFloat (f : float)
| VText (s : string)
| VTime (t : timestamp).

Inductive dtype : Type :=
| ObjectDtype
| Int64
| Float64
| BoolDtype
| Datetime64.

Record column : Type := Column {
  col_dtype : dtype;
  col_cells : list cell
}.

Definition isna (c : cell) : bool :=
  match c with Null => true | _ => false end.

Definition notna (c : cell) : bool := negb (isna c).

(** The library calls whose results are not fixed by this repository.
    [to_datetime] is [pd.to_datetime(series, errors='coerce')] followed by
    the [.dt] access: it either raises or yields one optional timestamp per
    cell ([None] for NaT).  [to_numeric] is
    [pd.to_numeric(series, errors='coerce')] on a column of strings and
    nulls. *)
Class Pandas : Type := {
  to_datetime : list cell -> result (list (option timestamp));
  to_numeric : list cell -> column;
  float_repr : float -> string;
  timestamp_str : timestamp -> string;
  to_datetime_length :
    forall l r, to_datetime l = Ok r -> length r = length l;
  to_numeric_length :
    forall l, length (col_cells (to_numeric l)) = length l
}.

Definition string_of_nat (n : nat) : string :=
  NilZero.string_of_uint (Nat.to_uint n).

Definition string_of_Z (z : Z) : string :=
  NilZero.string_of_int (Z.to_int z).

Section Str.
Context `{Pandas}.

(** [str(value)]; the null is rendered as numpy's NaN is. *)
Definition py_str (c : cell) : string :=
  match c with
  | Null => "nan"
  | VBool true => "True"
  | VBool false => "False"
  | VInt z => string_of_Z z
  | VFloat f => float_repr f
  | VText s => s
  | VTime t => timestamp_str t
  end.

(** [type(value).__name__] *)
Definition type_name (c : cell) : string :=
  match c with
  | Null => "NoneType"
  | VBool _ => "bool"
  | VInt _ => "int"
  | VFloat _ => "float"
  | VText _ => "str"
  | VTime _ => "Timestamp"
  end.

End Str.

(** ** services/parser.py *)

Module Parser.
Section Parser.
Context `{Pandas}.

(** On ASCII headers: [\s], [\w] and [lower] are those of [PyStr]. *)
Definition normalize_column_name (name : cell) : string :=
  if isna name then "unnamed_column"
  else
    let name := PyStr.lower (PyStr.strip (py_str name)) in
    let name := PyStr.sub_runs PyStr.is_space name in
    let name := PyStr.sub_each (fun c => negb (PyStr.is_word c)) name in
    let name := PyStr.sub_runs (Ascii.eqb "_") name in
    let name := PyStr.strip_underscores name in
    if String.eqb name "" then "unnamed_column" else name.

(** The loop of [ensure_unique_columns], with its dictionary [seen] and its
    output list [result]. *)
Fixpoint ensure_unique_loop (columns : list string) (seen : gmap string nat)
  (result : list string) : list string :=
  match columns with
  | [] => result
  | col :: rest =>
      match seen !! col with
      | Some n =>
          ensure_unique_loop rest (<[col := S n]> seen)
            (result ++ [col +:+ "_" +:+ string_of_nat (S n)])
      | None =>
          ensure_unique_loop rest (<[col := 0%nat]> seen) (result ++ [col])
      end
  end.

Definition ensure_unique_columns (columns : list string) : list string :=
  ensure_unique_loop columns ∅ [].

(** The header part of [parse_file]: the new header and
    [column_mapping = {norm: orig for norm, orig in zip(...)}]. *)
Definition normalize_headers (original_columns : list cell)
  : list string * gmap string cell :=
  let normalized_columns :=
    ensure_unique_columns (map normalize_column_name original_columns) in
  (normalized_columns,
   fold_left (fun m '(norm, orig) => <[norm := orig]> m)
     (combine normalized_columns original_columns) ∅).

End Parser.
End Parser.

(** ** Frames *)

Record frame : Type := Frame {
  index : list Z;
  columns : list (string * column)
}.

(** [len(df)] *)
Definition len (df : frame) : nat := length (index df).

(** [df.columns] *)
Definition column_names (df : frame) : list string := map fst (columns df).

Definition count {A : Type} (p : A -> bool) (l : list A) : nat :=
  length (List.filter p l).

(** Boolean indexing: the entries whose mask bit is set. *)
Fixpoint select {A : Type} (mask : list bool) (l : list A) : list A :=
  match mask, l with
  | b :: mask', x :: l' => if b then x :: select mask' l' else select mask' l'
  | _, _ => []
  end.

(** [series.loc[mask] = values]: the masked positions take the values in
    order, the others keep theirs. *)
Fixpoint assign_where (mask : list bool) (values old : list cell)
  : list cell :=
  match mask, old with
  | true :: mask', x :: old' =>
      match values with
      | v :: values' => v :: assign_where mask' values' old'
      | [] => x :: assign_where mask' [] old'
      end
  | false :: mask', x :: old' => x :: assign_where mask' values old'
  | _, _ => old
  end.

Fixpoint lookup_col (cols : list (string * column)) (col : string)
  : option column :=
  match cols with
  | [] => None
  | (name, c) :: rest => if String.eqb name col then Some c else lookup_col rest col
  end.

(** [df[col]] on a frame whose labels are distinct: the column of that
    name, [KeyError] without one.  (Under a repeated label pandas returns
    a frame instead of a column; statements that depend on the value read
    ask for distinct labels.) *)
Definition get_col (df : frame) (col : string) : result column :=
  match lookup_col (columns df) col with
  | Some c => Ok c
  | None => Raise KeyError
  end.

Fixpoint replace_col (cols : list (string * column)) (col : string)
  (c : column) : list (string * column) :=
  match cols with
  | [] => [(col, c)]
  | (name, c0) :: rest =>
      if String.eqb name col then (name, c) :: rest
      else (name, c0) :: replace_col rest col c
  end.

(** [df[col] = c] *)
Definition set_col (df : frame) (col : string) (c : column) : frame :=
  Frame (index df) (replace_col (columns df) col c).

(** The cell of a column at a row position. *)
Definition cell_at (i : nat) (c : column) : cell := nth i (col_cells c) Null.

(** The rows of the frame, in index order. *)
Definition rows (df : frame) : list (list cell) :=
  map (fun i => map (fun nc => cell_at i (snd nc)) (columns df))
    (seq 0 (len df)).

(** [df.dropna(how='all')] *)
Definition dropna_rows (df : frame) : frame :=
  let mask := map (existsb notna) (rows df) in
  Frame (select mask (index df))
    (map (fun nc =>
            (fst nc, Column (col_dtype (snd nc))
                       (select mask (col_cells (snd nc)))))
       (columns df)).

(** [df.isna().all()] for one column *)
Definition all_na (c : column) : bool := forallb isna (col_cells c).

(** [df.dropna(axis=1, how='all')] *)
Definition dropna_columns (df : frame) : frame :=
  Frame (index df) (List.filter (fun nc => negb (all_na (snd nc))) (columns df)).

Definition is_numeric_dtype (d : dtype) : bool :=
  match d with
  | Int64 | Float64 | BoolDtype => true
  | _ => false
  end.

Definition is_float_dtype (d : dtype) : bool :=
  match d with Float64 => true | _ => false end.

Definition is_datetime64_any_dtype (d : dtype) : bool :=
  match d with Datetime64 => true | _ => false end.

Definition is_object_dtype (d : dtype) : bool :=
  match d with ObjectDtype => true | _ => false end.

(** [np.isinf] *)
Definition isinf (c : cell) : bool :=
  match c with
  | VFloat f => PrimFloat.eqb f infinity || PrimFloat.eqb f neg_infinity
  | _ => false
  end.

(** ** The cleaning log *)

(** One constructor per ["operation"]; the fields are the other keys of
    the logged dictionary (its ["description"] is an f-string over the same
    fields). *)
Inductive log_entry : Type :=
| RemoveEmptyRows (count : Z)
| RemoveEmptyColumns (count : Z) (cols : list string)
| TrimWhitespace (count : Z)
| ConvertDates (col : string) (converted_count failed_count : Z)
| CoerceToNumeric (col : string) (coerced_count : Z)
| ConvertToNumeric (col : string)
| RemoveInfinity (col : string) (count : Z)
| NormalizeText (col : string) (count : Z).

(** The ["column"] key of an entry, when it has one. *)
Definition entry_column (e : log_entry) : option string :=
  match e with
  | ConvertDates col _ _ | CoerceToNumeric col _ | ConvertToNumeric col
  | RemoveInfinity col _ | NormalizeText col _ => Some col
  | _ => None
  end.

Definition operation (e : log_entry) : string :=
  match e with
  | RemoveEmptyRows _ => "remove_empty_rows"
  | RemoveEmptyColumns _ _ => "remove_empty_columns"
  | TrimWhitespace _ => "trim_whitespace"
  | ConvertDates _ _ _ => "convert_dates"
  | CoerceToNumeric _ _ => "coerce_to_numeric"
  | ConvertToNumeric _ => "convert_to_numeric"
  | RemoveInfinity _ _ => "remove_infinity"
  | NormalizeText _ _ => "normalize_text"
  end.

(** ** services/cleaner.py *)

Module Cleaner.

Import Re.

Definition digit : re := Cls PyStr.is_digit.
Definition word : re := Cls PyStr.is_word.

(** [date_patterns], in the order of the source. *)
Definition date_patterns : list re :=
  [ Cat (Rep 4 digit) (Cat (Lit "-") (Cat (Rep 2 digit)
      (Cat (Lit "-") (Rep 2 digit))));
    Cat (Rep 2 digit) (Cat (Lit "/") (Cat (Rep 2 digit)
      (Cat (Lit "/") (Rep 4 digit))));
    Cat (Rep 2 digit) (Cat (Lit "-") (Cat (Rep 2 digit)
      (Cat (Lit "-") (Rep 4 digit))));
    Cat (Range 1 2 digit) (Cat (Lit "/") (Cat (Range 1 2 digit)
      (Cat (Lit "/") (Range 2 4 digit))));
    Cat (Plus word) (Cat (Lit " ") (Cat (Range 1 2 digit)
      (Cat (Lit ",") (Cat (Lit " ") (Rep 4 digit))))) ].

(** The strings Python's [float()] accepts, once stripped: an optional
    sign, then [inf], [infinity] or [nan] in any case, or a decimal number
    whose digit groups may hold single underscores between digits. *)
Definition ci (c : ascii) : re := Cls (fun x => Ascii.eqb (PyStr.lower_char x) c).
Definition sign : re := Opt (Alt (Lit "+") (Lit "-")).
Definition digitpart : re := Cat digit (Star (Cat (Opt (Lit "_")) digit)).
Definition float_literal : re :=
  Cat sign
    (Alt
       (Alt (Cat (ci "i") (Cat (ci "n") (Cat (ci "f")
               (Opt (Cat (ci "i") (Cat (ci "n") (Cat (ci "i")
                  (Cat (ci "t") (ci "y")))))))))
            (Cat (ci "n") (Cat (ci "a") (ci "n"))))
       (Cat
          (Alt (Cat digitpart (Opt (Cat (Lit ".") (Opt digitpart))))
               (Cat (Lit ".") digitpart))
          (Opt (Cat (ci "e") (Cat sign digitpart))))).

(** [float(s)] does not raise [ValueError]. *)
Definition float_parses (s : string) : bool :=
  full_match float_literal (PyStr.strip s).

Fixpoint zeros (n : nat) : string :=
  match n with
  | O => EmptyString
  | S n' => String "0" (zeros n')
  end.

Definition pad_left (width : nat) (s : string) : string :=
  zeros (width - String.length s) +:+ s.

(** [t.strftime('%Y-%m-%d')] *)
Definition strftime_ymd (t : timestamp) : string :=
  pad_left 4 (string_of_nat (ts_year t)) +:+ "-" +:+
  pad_left 2 (string_of_nat (ts_month t)) +:+ "-" +:+
  pad_left 2 (string_of_nat (ts_day t)).

Section Cleaner.
Context `{Pandas}.

Definition log : Type := list log_entry.

(** [series.dropna().head(100)] *)
Definition sample_of (series : column) : list cell :=
  firstn 100 (List.filter notna (col_cells series)).

(** The body of the loop: some pattern matches [val.strip()]. *)
Definition looks_like_date (val : string) : bool :=
  existsb (fun pattern => match_anchored pattern (PyStr.strip val))
    date_patterns.

Definition is_date_column (series : column) : result bool :=
  let sample := sample_of series in
  if (length sample =? 0)%nat then Ok false
  else
    let date_count := count looks_like_date (map py_str sample) in
    ratio ← true_div date_count (length sample);
    Ok (fgt ratio 0.7).

Definition cell_of_parsed (o : option timestamp) : cell :=
  match o with Some t => VTime t | None => Null end.

(** [series.dt.strftime('%Y-%m-%d')] followed by [.replace('NaT', None)] *)
Definition formatted_date (o : option timestamp) : cell :=
  match o with
  | Some t =>
      let s := strftime_ymd t in
      if String.eqb s "NaT" then Null else VText s
  | None => Null
  end.

Definition convert_to_date (df : frame) (col : string)
  : result (frame * log) :=
  original ← get_col df col;
  try_except
    (parsed ← to_datetime (col_cells original);
     let dates := map cell_of_parsed parsed in
     let converted_count := Z.of_nat (count notna dates) in
     let failed_count :=
       (Z.of_nat (count notna (col_cells original)) - converted_count)%Z in
     if (converted_count >? 0)%Z then
       Ok (set_col df col (Column ObjectDtype (map formatted_date parsed)),
           [ConvertDates col converted_count failed_count])
     else Ok (set_col df col (Column Datetime64 dates), []))
    (Ok (set_col df col original, [])).

Definition numeric_string (val : cell) : string :=
  let val_str := PyStr.strip (py_str val) in
  PyStr.remove_char "%" (PyStr.remove_char "$" (PyStr.remove_char "," val_str)).

(** The body of the loop: [float(val_str)] succeeds. *)
Definition parses_numeric (val : cell) : bool :=
  float_parses (numeric_string val).

Definition should_be_numeric (series : column) : result bool :=
  let sample := sample_of series in
  if (length sample =? 0)%nat then Ok false
  else
    let numeric_count := count parses_numeric sample in
    ratio ← true_div numeric_count (length sample);
    Ok (fgt ratio 0.8).

Definition na_tokens : list string :=
  [""; "nan"; "None"; "null"; "N/A"; "n/a"; "-"].

Definition in_strings (s : string) (l : list string) : bool :=
  existsb (String.eqb s) l.

(** The string clean-up of [convert_to_numeric], one cell at a time. *)
Definition unformat (c : cell) : cell :=
  let s := py_str c in
  let s := PyStr.remove_char "," s in
  let s := PyStr.remove_char "$" s in
  let s := PyStr.remove_char "%" s in
  let s := PyStr.strip s in
  if in_strings s na_tokens then Null else VText s.

Definition convert_to_numeric (df : frame) (col : string)
  : result (frame * log) :=
  c ← get_col df col;
  let original_non_null := Z.of_nat (count notna (col_cells c)) in
  let converted := to_numeric (map unformat (col_cells c)) in
  let df := set_col df col converted in
  let new_non_null := Z.of_nat (count notna (col_cells converted)) in
  let coerced_count := (original_non_null - new_non_null)%Z in
  if (coerced_count >? 0)%Z then Ok (df, [CoerceToNumeric col coerced_count])
  else Ok (df, [ConvertToNumeric col]).

Definition clean_numeric_column (df : frame) (col : string)
  : result (frame * log) :=
  c ← get_col df col;
  if is_float_dtype (col_dtype c) then
    let inf_count := Z.of_nat (count isinf (col_cells c)) in
    if (inf_count >? 0)%Z then
      Ok (set_col df col
            (Column (col_dtype c)
               (map (fun x => if isinf x then Null else x) (col_cells c))),
          [RemoveInfinity col inf_count])
    else Ok (df, [])
  else Ok (df, []).

(** The pattern shared by the trimming loop and [normalize_text_column]:
    [original = df.loc[mask, col].astype(str)], its image under a string
    method, and the number of cells the method changed. *)
Definition string_changes (f : string -> string) (c : column)
  : list bool * list string * nat :=
  let mask := map notna (col_cells c) in
  let original := map py_str (select mask (col_cells c)) in
  let changed := map f original in
  (mask, changed,
   count (fun p => negb (String.eqb (fst p) (snd p))) (combine original changed)).

Definition normalize_text_column (df : frame) (col : string)
  : result (frame * log) :=
  c ← get_col df col;
  let '(mask, normalized, changes) := string_changes PyStr.lower c in
  if (count (fun b : bool => b) mask =? 0)%nat then Ok (df, [])
  else if (0 <? changes)%nat then
    Ok (set_col df col
          (Column (col_dtype c)
             (assign_where mask (map VText normalized) (col_cells c))),
        [NormalizeText col (Z.of_nat changes)])
  else Ok (df, []).

Definition process_column (df : frame) (col : string)
  : result (frame * log) :=
  c ← get_col df col;
  if is_numeric_dtype (col_dtype c) then clean_numeric_column df col
  else if is_datetime64_any_dtype (col_dtype c) then Ok (df, [])
  else
    is_date ← is_date_column c;
    if (is_date : bool) then convert_to_date df col
    else
      numeric ← should_be_numeric c;
      if (numeric : bool) then convert_to_numeric df col
      else normalize_text_column df col.

(** The trimming loop over [string_cols]: the frame and [trimmed_count]. *)
Fixpoint trim_columns (df : frame) (string_cols : list string)
  (trimmed_count : nat) : result (frame * nat) :=
  match string_cols with
  | [] => Ok (df, trimmed_count)
  | col :: rest =>
      c ← get_col df col;
      let '(mask, trimmed, changes) := string_changes PyStr.strip c in
      trim_columns
        (set_col df col
           (Column (col_dtype c)
              (assign_where mask (map VText trimmed) (col_cells c))))
        rest (trimmed_count + changes)
  end.

(** The loop [for col in df.columns: df, col_log = process_column(df, col)]. *)
Fixpoint process_columns (df : frame) (cols : list string) (cleaning_log : log)
  : result (frame * log) :=
  match cols with
  | [] => Ok (df, cleaning_log)
  | col :: rest =>
      '(df, col_log) ← process_column df col;
      process_columns df rest (cleaning_log ++ col_log)
  end.

(** Stages 1 and 2, each with its log entry. *)
Definition remove_empty_rows (df : frame) : frame * log :=
  let original_rows := Z.of_nat (len df) in
  let df := dropna_rows df in
  let rows_removed := (original_rows - Z.of_nat (len df))%Z in
  (df, if (rows_removed >? 0)%Z then [RemoveEmptyRows rows_removed] else []).

Definition remove_empty_columns (df : frame) : frame * log :=
  let original_cols := Z.of_nat (length (columns df)) in
  let empty_cols :=
    map fst (List.filter (fun nc => all_na (snd nc)) (columns df)) in
  let df := dropna_columns df in
  let cols_removed := (original_cols - Z.of_nat (length (columns df)))%Z in
  (df,
   if (cols_removed >? 0)%Z then [RemoveEmptyColumns cols_removed empty_cols]
   else []).

Definition string_columns (df : frame) : list string :=
  map fst (List.filter (fun nc => is_object_dtype (col_dtype (snd nc))) (columns df)).

Definition trim_whitespace (df : frame) : result (frame * log) :=
  '(df, trimmed_count) ← trim_columns df (string_columns df) 0;
  Ok (df,
      if (0 <? trimmed_count)%nat then [TrimWhitespace (Z.of_nat trimmed_count)]
      else []).

(** Stages 1 to 3 of [clean_dataframe]. *)
Definition structural_cleanup (df : frame) : result (frame * log) :=
  let '(df, log1) := remove_empty_rows df in
  let '(df, log2) := remove_empty_columns df in
  '(df, log3) ← trim_whitespace df;
  Ok (df, log1 ++ log2 ++ log3).

(** [clean_dataframe] as a function of the frame's value. *)
Definition clean_dataframe (df : frame) : result (frame * log) :=
  '(df, cleaning_log) ← structural_cleanup df;
  process_columns df (column_names df) cleaning_log.

End Cleaner.
End Cleaner.

(** ** A reference pandas

    An instance of [Pandas] on which the examples run.  Its date parser
    works as [to_datetime] does from pandas 2.0 on: the format, ISO
    [YYYY-MM-DD] or month-first [M/D/YYYY], is inferred from the first
    value that is not missing, and every value is read with that format;
    a value that does not fit it, or that denotes no calendar day, becomes
    NaT.  When no format can be inferred from the first value, every value
    is parsed on its own.  Its numeric parser reads integer literals. *)

Module Reference.

Definition digit_value (c : ascii) : nat := PyStr.code c - 48.

Fixpoint nat_of_digits_from (acc : nat) (s : string) : nat :=
  match s with
  | EmptyString => acc
  | String c s' => nat_of_digits_from (10 * acc + digit_value c) s'
  end.

Definition nat_of_digits (s : string) : nat := nat_of_digits_from 0 s.

(** [s.split(sep)] *)
Fixpoint split_on (sep : ascii) (s : string) : list string :=
  match s with
  | EmptyString => [EmptyString]
  | String c s' =>
      if Ascii.eqb c sep then EmptyString :: split_on sep s'
      else
        match split_on sep s' with
        | [] => [String c EmptyString]
        | w :: ws => String c w :: ws
        end
  end.

Definition is_leap (y : nat) : bool :=
  ((y mod 4 =? 0) && negb (y mod 100 =? 0) || (y mod 400 =? 0))%nat.

Definition days_in_month (y m : nat) : nat :=
  match m with
  | 1 | 3 | 5 | 7 | 8 | 10 | 12 => 31
  | 4 | 6 | 9 | 11 => 30
  | 2 => if is_leap y then 29 else 28
  | _ => 0
  end.

Definition civil (y m d : nat) : option timestamp :=
  if ((1 <=? m) && (m <=? 12) && (1 <=? d) && (d <=? days_in_month y m))%nat
  then Some (Timestamp y m d 0)
  else None.

Definition iso_date : Re.re := nth 0 Cleaner.date_patterns Re.Void.

Definition us_date : Re.re :=
  Re.Cat (Re.Range 1 2 Cleaner.digit) (Re.Cat (Re.Lit "/")
    (Re.Cat (Re.Range 1 2 Cleaner.digit) (Re.Cat (Re.Lit "/")
       (Re.Rep 4 Cleaner.digit)))).

Definition parse_date (s : string) : option timestamp :=
  let s := PyStr.strip s in
  if Re.full_match iso_date s then
    match split_on "-" s with
    | [y; m; d] => civil (nat_of_digits y) (nat_of_digits m) (nat_of_digits d)
    | _ => None
    end
  else if Re.full_match us_date s then
    match split_on "/" s with
    | [m; d; y] => civil (nat_of_digits y) (nat_of_digits m) (nat_of_digits d)
    | _ => None
    end
  else None.

Inductive date_format : Type := YearFirst | MonthFirst.

(** The value read with one format only. *)
Definition parse_with (format : date_format) (s : string)
  : option timestamp :=
  let s := PyStr.strip s in
  match format with
  | YearFirst =>
      if Re.full_match iso_date s then
        match split_on "-" s with
        | [y; m; d] =>
            civil (nat_of_digits y) (nat_of_digits m) (nat_of_digits d)
        | _ => None
        end
      else None
  | MonthFirst =>
      if Re.full_match us_date s then
        match split_on "/" s with
        | [m; d; y] =>
            civil (nat_of_digits y) (nat_of_digits m) (nat_of_digits d)
        | _ => None
        end
      else None
  end.

(** The format under which the value is a date, if there is one. *)
Definition guess_format (s : string) : option date_format :=
  match parse_with YearFirst s, parse_with MonthFirst s with
  | Some _, _ => Some YearFirst
  | None, Some _ => Some MonthFirst
  | None, None => None
  end.

(** The format of the column: the one of its first value that is not
    missing. *)
Definition inferred_format (cells : list cell) : option date_format :=
  match List.filter notna cells with
  | VText s :: _ => guess_format s
  | _ => None
  end.

Definition inferred_to_datetime (cells : list cell)
  : result (list (option timestamp)) :=
  let format := inferred_format cells in
  Ok (map (fun c =>
             match c with
             | VText s =>
                 match format with
                 | Some f => parse_with f s
                 | None => parse_date s
                 end
             | VTime t => Some t
             | _ => None
             end) cells).

Definition integer_literal : Re.re :=
  Re.Cat Cleaner.sign (Re.Plus Cleaner.digit).

Definition parse_integer (s : string) : option Z :=
  if Re.full_match integer_literal s then
    match s with
    | String "-" s' => Some (- Z.of_nat (nat_of_digits s'))%Z
    | String "+" s' => Some (Z.of_nat (nat_of_digits s'))
    | _ => Some (Z.of_nat (nat_of_digits s))
    end
  else None.

Definition numeric_cell (c : cell) : cell :=
  match c with
  | VText s => match parse_integer s with Some z => VInt z | None => Null end
  | _ => Null
  end.

Definition float_of_Z (z : Z) : float :=
  if (z <? 0)%Z then (- PrimFloat.of_uint63 (Uint63.of_Z (- z)))%float
  else PrimFloat.of_uint63 (Uint63.of_Z z).

(** All integers give an [int64] column; a NaN forces [float64]. *)
Definition integer_to_numeric (cells : list cell) : column :=
  let parsed := map numeric_cell cells in
  if forallb notna parsed then Column Int64 parsed
  else
    Column Float64
      (map (fun c => match c with VInt z => VFloat (float_of_Z z) | _ => c end)
         parsed).

(** Floats are written by sign, integer part and [.0]; the reference
    columns hold no fractional floats. *)
Definition integral_float_repr (f : float) : string :=
  match Prim2SF f with
  | S754_zero false => "0.0"
  | S754_zero true => "-0.0"
  | S754_infinity false => "inf"
  | S754_infinity true => "-inf"
  | S754_nan => "nan"
  | S754_finite s m e =>
      (if s then "-" else "") +:+
      string_of_Z (Z.shiftl (Z.pos m) e) +:+ ".0"
  end.

Definition two_digits (n : nat) : string := Cleaner.pad_left 2 (string_of_nat n).

(** [str(Timestamp)], with [ts_time] in seconds. *)
Definition iso_timestamp_str (t : timestamp) : string :=
  Cleaner.strftime_ymd t +:+ " " +:+
  two_digits (ts_time t / 3600) +:+ ":" +:+
  two_digits (ts_time t / 60 mod 60) +:+ ":" +:+
  two_digits (ts_time t mod 60).

Lemma inferred_to_datetime_length (l : list cell)
  (r : list (option timestamp)) :
  inferred_to_datetime l = Ok r -> length r = length l.
Proof.
  unfold inferred_to_datetime. intros [= <-]. apply length_map.
Qed.

Lemma integer_to_numeric_length (l : list cell) :
  length (col_cells (integer_to_numeric l)) = length l.
Proof.
  unfold integer_to_numeric. destruct (forallb _ _); cbn; now rewrite !length_map.
Qed.

#[export] Instance pandas : Pandas := {|
  to_datetime := inferred_to_datetime;
  to_numeric := integer_to_numeric;
  float_repr := integral_float_repr;
  timestamp_str := iso_timestamp_str;
  to_datetime_length := inferred_to_datetime_length;
  to_numeric_length := integer_to_numeric_length
|}.

End Reference.

(** A pandas whose date parser gives up on the whole column, as
    [to_datetime] does when it raises in spite of [errors='coerce']. *)

Module Failing.

Definition raising_to_datetime (cells : list cell)
  : result (list (option timestamp)) :=
  Raise LibraryError.

Lemma raising_to_datetime_length (l : list cell)
  (r : list (option timestamp)) :
  raising_to_datetime l = Ok r -> length r = length l.
Proof. discriminate. Qed.

Definition pandas : Pandas := {|
  to_datetime := raising_to_datetime;
  to_numeric := Reference.integer_to_numeric;
  float_repr := Reference.integral_float_repr;
  timestamp_str := Reference.iso_timestamp_str;
  to_datetime_length := raising_to_datetime_length;
  to_numeric_length := Reference.integer_to_numeric_length
|}.

End Failing.

(** ** models/schemas.py *)

Inductive DataStatus : Type := READY | WARNING | NOT_READY.

Inductive IssueType : Type :=
| MISSING_VALUE
| DUPLICATE_ROW
| MIXED_TYPE
| INVALID_DATE
| INVALID_NUMERIC.

Inductive IssueSeverity : Type := LOW | MEDIUM | HIGH.

(** The description f-strings of the validator, kept as their template and
    arguments. *)
Inductive issue_description : Type :=
| MissingValues (col : string) (null_count : nat) (null_pct : float)
    (null_rows : list Z)
| DuplicateRows (duplicate_count : nat) (duplicate_pct : float)
    (duplicate_rows : list Z)
| MixedTypes (col : string) (type_counts : gmap string nat).

Record ValidationIssue : Type := {
  row_number : option Z;
  column_name : option string;
  issue_type : IssueType;
  severity : IssueSeverity;
  description : issue_description
}.

(** The f-strings of [status_reason]. *)
Inductive status_reason_text : Type :=
| HighSeverityIssues (high_severity : nat)
| MissingOverTwenty (missing_pct : float)
| DuplicatesOverFifty (duplicate_pct : float)
| MediumSeverityIssues (medium_severity : nat)
| MissingOverFive (missing_pct : float)
| QualityGood.

Record ValidationSummary : Type := {
  total_rows : Z;
  total_columns : Z;
  missing_value_count : Z;
  duplicate_row_count : Z;
  issue_count : Z;
  status : DataStatus;
  status_reason : status_reason_text
}.

Definition severity_eqb (a b : IssueSeverity) : bool :=
  match a, b with
  | LOW, LOW | MEDIUM, MEDIUM | HIGH, HIGH => true
  | _, _ => false
  end.

(** ** services/validator.py *)

Module Validator.

(** The integer a float denotes, if it denotes one. *)
Definition integral_value (f : float) : option Z :=
  match Prim2SF f with
  | S754_zero _ => Some 0%Z
  | S754_finite s m e =>
      let z :=
        if (0 <=? e)%Z then Some (Z.shiftl (Z.pos m) e)
        else if (Z.land (Z.pos m) (Z.ones (- e)) =? 0)%Z
             then Some (Z.shiftr (Z.pos m) (- e))
             else None in
      if s then option_map Z.opp z else z
  | _ => None
  end.

Definition timestamp_eqb (a b : timestamp) : bool :=
  ((ts_year a =? ts_year b) && (ts_month a =? ts_month b) &&
   (ts_day a =? ts_day b) && (ts_time a =? ts_time b))%nat.

Definition Z_of_bool (b : bool) : Z := if b then 1%Z else 0%Z.

Definition opt_Z_eqb (z : Z) (o : option Z) : bool :=
  match o with Some y => (z =? y)%Z | None => false end.

(** Equality of two cells as the hash tables behind [duplicated] see it:
    Python's [==] on values, with all nulls equal. *)
Definition cell_eqb (a b : cell) : bool :=
  match a, b with
  | Null, Null => true
  | VText s, VText t => String.eqb s t
  | VTime s, VTime t => timestamp_eqb s t
  | VBool x, VBool y => Bool.eqb x y
  | VBool x, VInt z | VInt z, VBool x => (Z_of_bool x =? z)%Z
  | VInt x, VInt y => (x =? y)%Z
  | VFloat x, VFloat y => PrimFloat.eqb x y
  | VBool x, VFloat f | VFloat f, VBool x =>
      opt_Z_eqb (Z_of_bool x) (integral_value f)
  | VInt z, VFloat f | VFloat f, VInt z => opt_Z_eqb z (integral_value f)
  | _, _ => false
  end.

Fixpoint row_eqb (r1 r2 : list cell) : bool :=
  match r1, r2 with
  | [], [] => true
  | a :: r1', b :: r2' => cell_eqb a b && row_eqb r1' r2'
  | _, _ => false
  end.

(** A row is marked when an earlier row equals it. *)
Fixpoint duplicated_from (seen rest : list (list cell)) : list bool :=
  match rest with
  | [] => []
  | r :: rest' => existsb (row_eqb r) seen :: duplicated_from (seen ++ [r]) rest'
  end.

(** [df.empty] *)
Definition empty (df : frame) : bool :=
  ((len df =? 0) || (length (columns df) =? 0))%nat.

(** [df.duplicated(keep='first')]; an empty frame gives an empty mask. *)
Definition duplicated (df : frame) : list bool :=
  if empty df then [] else duplicated_from [] (rows df).

Definition count_true (mask : list bool) : nat := count (fun b : bool => b) mask.

Definition check_missing_column (df : frame) (nc : string * column)
  : result (list ValidationIssue) :=
  let '(col, c) := nc in
  let null_count := count isna (col_cells c) in
  if (0 <? null_count)%nat then
    null_pct ← percent null_count (len df);
    let null_rows := firstn 10 (select (map isna (col_cells c)) (index df)) in
    let severity :=
      if fgt null_pct 50 then HIGH
      else if fgt null_pct 20 then MEDIUM
      else LOW in
    Ok [ {| row_number := None; column_name := Some col;
            issue_type := MISSING_VALUE; severity := severity;
            description := MissingValues col null_count null_pct null_rows |} ]
  else Ok [].

Fixpoint check_missing_loop (df : frame) (cols : list (string * column))
  (issues : list ValidationIssue) : result (list ValidationIssue) :=
  match cols with
  | [] => Ok issues
  | nc :: rest =>
      found ← check_missing_column df nc;
      check_missing_loop df rest (issues ++ found)
  end.

Definition check_missing_values (df : frame) : result (list ValidationIssue) :=
  check_missing_loop df (columns df) [].

Definition check_duplicates (df : frame) : result (list ValidationIssue) :=
  let duplicate_mask := duplicated df in
  let duplicate_count := count_true duplicate_mask in
  if (0 <? duplicate_count)%nat then
    duplicate_pct ← percent duplicate_count (len df);
    let duplicate_rows := firstn 20 (select duplicate_mask (index df)) in
    let severity :=
      if fgt duplicate_pct 50 then HIGH
      else if fgt duplicate_pct 10 then MEDIUM
      else LOW in
    Ok [ {| row_number := None; column_name := None;
            issue_type := DUPLICATE_ROW; severity := severity;
            description :=
              DuplicateRows duplicate_count duplicate_pct duplicate_rows |} ]
  else Ok [].

(** [series.unique()]: first occurrences, in order. *)
Fixpoint unique_from (seen l : list string) : list string :=
  match l with
  | [] => []
  | x :: l' =>
      if Cleaner.in_strings x seen then unique_from seen l'
      else x :: unique_from (seen ++ [x]) l'
  end.

Definition unique (l : list string) : list string := unique_from [] l.

(** [series.value_counts().to_dict()] *)
Definition value_counts (l : list string) : gmap string nat :=
  fold_left (fun m x => <[x := S (default 0%nat (m !! x))]> m) l ∅.

Definition numeric_types : list string :=
  ["int"; "float"; "int64"; "float64"; "int32"; "float32"].

Definition check_mixed_column (nc : string * column) : list ValidationIssue :=
  let '(col, c) := nc in
  let non_null := List.filter notna (col_cells c) in
  if (length non_null =? 0)%nat then []
  else
    let types := unique (map type_name non_null) in
    let types' :=
      List.filter
        (fun t => negb (Cleaner.in_strings t ["NoneType"; "float"])
                  || (2 <? length types)%nat)
        types in
    if (1 <? length types')%nat then
      if negb (forallb (fun t => Cleaner.in_strings t numeric_types) types')
      then
        [ {| row_number := None; column_name := Some col;
             issue_type := MIXED_TYPE; severity := MEDIUM;
             description :=
               MixedTypes col (value_counts (map type_name non_null)) |} ]
      else []
    else [].

Definition check_mixed_types (df : frame) : list ValidationIssue :=
  flat_map check_mixed_column (columns df).

Definition validate_dataframe (df : frame) : result (list ValidationIssue) :=
  missing_issues ← check_missing_values df;
  duplicate_issues ← check_duplicates df;
  Ok (missing_issues ++ duplicate_issues ++ check_mixed_types df).

Definition count_severity (s : IssueSeverity) (issues : list ValidationIssue)
  : nat :=
  count (fun i => severity_eqb (severity i) s) issues.

(** [df.isna().sum().sum()] *)
Definition missing_count (df : frame) : nat :=
  list_sum (map (fun nc => count isna (col_cells (snd nc))) (columns df)).

Definition missing_pct (df : frame) : result float :=
  let total_cells := (len df * length (columns df))%nat in
  if (0 <? total_cells)%nat then percent (missing_count df) total_cells
  else Ok 0%float.

Definition duplicate_pct (df : frame) : result float :=
  let total_rows := len df in
  if (0 <? total_rows)%nat then percent (count_true (duplicated df)) total_rows
  else Ok 0%float.

(** The status and its reason, from the three severity counts and the two
    percentages. *)
Definition decide_status (high_severity medium_severity : nat)
  (missing_pct duplicate_pct : float) : DataStatus * status_reason_text :=
  if (0 <? high_severity)%nat || fgt missing_pct 20 || fgt duplicate_pct 50
  then
    (NOT_READY,
     if (0 <? high_severity)%nat then HighSeverityIssues high_severity
     else if fgt missing_pct 20 then MissingOverTwenty missing_pct
     else DuplicatesOverFifty duplicate_pct)
  else if (0 <? medium_severity)%nat || fgt missing_pct 5 then
    (WARNING,
     if (0 <? medium_severity)%nat then MediumSeverityIssues medium_severity
     else MissingOverFive missing_pct)
  else (READY, QualityGood).

Definition calculate_status (df : frame) (issues : list ValidationIssue)
  : result ValidationSummary :=
  let total_rows := len df in
  let total_cols := length (columns df) in
  missing_pct ← missing_pct df;
  let duplicate_count := count_true (duplicated df) in
  duplicate_pct ← duplicate_pct df;
  let high_severity := count_severity HIGH issues in
  let medium_severity := count_severity MEDIUM issues in
  let '(status, reason) :=
    decide_status high_severity medium_severity missing_pct duplicate_pct in
  Ok {| total_rows := Z.of_nat total_rows;
        total_columns := Z.of_nat total_cols;
        missing_value_count := Z.of_nat (missing_count df);
        duplicate_row_count := Z.of_nat duplicate_count;
        issue_count := Z.of_nat (length issues);
        status := status;
        status_reason := reason |}.

End Validator.

(** ** Frames as objects

    A Python variable holds a reference to a frame.  [df.copy()] and
    [df.dropna(...)] build a new object; [df[col] = ...] and
    [df.loc[mask, col] = ...] change the object the variable refers to.
    The heap maps references to frame values; a computation takes a heap
    and gives an outcome and the heap it leaves, also when it raises. *)

Module Store.

Abbreviation loc := nat (only parsing).
Abbreviation heap := (gmap nat frame) (only parsing).

Definition M (A : Type) : Type := heap -> result A * heap.

#[export] Instance M_ret : MRet M := fun A a h => (Ok a, h).

#[export] Instance M_bind : MBind M :=
  fun A B f m h =>
    match m h with
    | (Ok a, h') => f a h'
    | (Raise e, h') => (Raise e, h')
    end.

(** A raise or a return of the value-level code, on an unchanged heap. *)
Definition lift {A : Type} (r : result A) : M A := fun h => (r, h).

(** Reading through a reference; Python has no dangling reference, the
    model raises on one. *)
Definition deref (l : loc) : M frame :=
  fun h =>
    match h !! l with
    | Some df => (Ok df, h)
    | None => (Raise KeyError, h)
    end.

(** A new object holding [df]. *)
Definition new_object (df : frame) : M loc :=
  fun h => let l := fresh (dom h) in (Ok l, <[l := df]> h).

(** In-place update of the object at [l]. *)
Definition update (l : loc) (df : frame) : M unit :=
  fun h => (Ok (), <[l := df]> h).

(** A function of the cleaner that changes its argument in place and
    returns it: [def f(df, ...): ...; df[col] = ...; return df, out]. *)
Definition in_place {A : Type} (f : frame -> result (frame * A)) (l : loc)
  : M (loc * A) :=
  df ← deref l;
  '(df', a) ← lift (f df);
  _ ← update l df';
  mret (l, a).

(** A pandas method that returns a new frame: [df = df.method(...)]. *)
Definition rebind {A : Type} (f : frame -> frame * A) (l : loc)
  : M (loc * A) :=
  df ← deref l;
  let '(df', a) := f df in
  l' ← new_object df';
  mret (l', a).

Section Store.
Context `{Pandas}.

Definition process_column (df : loc) (col : string) : M (loc * Cleaner.log) :=
  in_place (fun d => Cleaner.process_column d col) df.

Fixpoint process_columns (df : loc) (cols : list string)
  (cleaning_log : Cleaner.log) : M (loc * Cleaner.log) :=
  match cols with
  | [] => mret (df, cleaning_log)
  | col :: rest =>
      '(df, col_log) ← process_column df col;
      process_columns df rest (cleaning_log ++ col_log)
  end.

Definition clean_dataframe (df : loc) : M (loc * Cleaner.log) :=
  '(df, _) ← rebind (fun d => (d, ())) df;
  '(df, log1) ← rebind Cleaner.remove_empty_rows df;
  '(df, log2) ← rebind Cleaner.remove_empty_columns df;
  '(df, log3) ← in_place Cleaner.trim_whitespace df;
  d ← deref df;
  process_columns df (column_names d) (log1 ++ log2 ++ log3).

End Store.
End Store.

(** * Properties *)

(** ** Thresholds

    On samples of at most 100 values the float comparisons of the two
    heuristics are the exact comparisons of the ratio with 7/10 and 4/5.
    The tables are computed with the interpreter's arithmetic. *)

Definition ratio_gt (c n : nat) (t : float) : bool :=
  fgt (float_of_nat c / float_of_nat n)%float t.

Definition threshold_table (t : float) (exact : nat -> nat -> bool) : bool :=
  forallb
    (fun n => forallb (fun c => Bool.eqb (ratio_gt c n t) (exact c n))
                (seq 0 (S n)))
    (seq 1 100).

Lemma threshold_table_spec (t : float) (exact : nat -> nat -> bool) :
  threshold_table t exact = true ->
  forall c n : nat, (0 < n <= 100)%nat -> (c <= n)%nat ->
  ratio_gt c n t = exact c n.
Proof.
  unfold threshold_table. intros Htab c n Hn Hc.
  rewrite forallb_forall in Htab.
  assert (Hin : In n (seq 1 100)) by (apply in_seq; lia).
  specialize (Htab n Hin). rewrite forallb_forall in Htab.
  apply eqb_prop, Htab, in_seq. lia.
Qed.

Lemma ratio_gt_80 (c n : nat) :
  (0 < n <= 100)%nat -> (c <= n)%nat ->
  ratio_gt c n 0.8 = (4 * n <? 5 * c)%nat.
Proof.
  apply (threshold_table_spec 0.8 (fun c n => (4 * n <? 5 * c)%nat)).
  vm_compute. reflexivity.
Qed.

Lemma ratio_gt_70 (c n : nat) :
  (0 < n <= 100)%nat -> (c <= n)%nat ->
  ratio_gt c n 0.7 = (7 * n <? 10 * c)%nat.
Proof.
  apply (threshold_table_spec 0.7 (fun c n => (7 * n <? 10 * c)%nat)).
  vm_compute. reflexivity.
Qed.

Lemma count_le_length {A : Type} (p : A -> bool) (l : list A) :
  (count p l <= length l)%nat.
Proof. unfold count. apply List.filter_length_le. Qed.

Lemma true_div_ok (a b : nat) :
  b <> 0%nat -> true_div a b = Ok (float_of_nat a / float_of_nat b)%float.
Proof.
  intros Hb. unfold true_div. destruct (Nat.eqb_spec b 0); [contradiction|reflexivity].
Qed.

Lemma lookup_col_replace_eq (cols : list (string * column)) (col : string)
  (c : column) :
  lookup_col (replace_col cols col c) col = Some c.
Proof.
  induction cols as [|[name c0] rest IH]; cbn.
  - now rewrite String.eqb_refl.
  - destruct (String.eqb name col) eqn:E; cbn; rewrite E; [reflexivity|exact IH].
Qed.

Lemma replace_col_same (cols : list (string * column)) (col : string)
  (c : column) :
  lookup_col cols col = Some c -> replace_col cols col c = cols.
Proof.
  induction cols as [|[name c0] rest IH]; cbn; [discriminate|].
  destruct (String.eqb name col) eqn:E.
  - now intros [= ->].
  - intros Hl. now rewrite IH.
Qed.

Lemma set_col_same (df : frame) (col : string) (c : column) :
  get_col df col = Ok c -> set_col df col c = df.
Proof.
  unfold get_col, set_col. destruct (lookup_col (columns df) col) eqn:E; [|discriminate].
  intros [= ->]. rewrite (replace_col_same _ _ _ E). now destruct df.
Qed.

Lemma get_set_col (df : frame) (col : string) (c : column) :
  get_col (set_col df col c) col = Ok c.
Proof. unfold get_col, set_col. cbn. now rewrite lookup_col_replace_eq. Qed.

(** The shape shared by [is_date_column] and [should_be_numeric]: an
    empty sample is rejected, otherwise the ratio is compared. *)
Lemma ratio_decision (t : float) (exact : nat -> nat -> bool) (c n : nat) :
  (forall c n : nat, (0 < n <= 100)%nat -> (c <= n)%nat ->
                     ratio_gt c n t = exact c n) ->
  exact 0%nat 0%nat = false ->
  (c <= n)%nat -> (n <= 100)%nat ->
  (if (n =? 0)%nat then Ok false
   else ratio ← true_div c n; Ok (fgt ratio t)) = Ok (exact c n).
Proof.
  intros Htab Hzero Hc Hn.
  destruct (Nat.eqb_spec n 0) as [->|E].
  - assert (c = 0%nat) as -> by lia. now rewrite Hzero.
  - rewrite true_div_ok by exact E. cbn. f_equal. apply Htab; lia.
Qed.

Section CleanerFacts.
Context `{Pandas}.

Import Cleaner.

Lemma sample_of_length (series : column) :
  (length (sample_of series) <= 100)%nat.
Proof. unfold sample_of. rewrite length_firstn. lia. Qed.

(** The decision of [should_be_numeric] as an exact inequality. *)
Lemma should_be_numeric_exact (series : column) :
  should_be_numeric series =
  Ok (4 * length (sample_of series) <?
      5 * count parses_numeric (sample_of series))%nat.
Proof.
  unfold should_be_numeric.
  apply (ratio_decision 0.8 (fun c n => (4 * n <? 5 * c)%nat)).
  - exact ratio_gt_80.
  - reflexivity.
  - apply count_le_length.
  - apply sample_of_length.
Qed.

(** The decision of [is_date_column] as an exact inequality. *)
Lemma is_date_column_exact (series : column) :
  is_date_column series =
  Ok (7 * length (sample_of series) <?
      10 * count looks_like_date (map py_str (sample_of series)))%nat.
Proof.
  unfold is_date_column.
  apply (ratio_decision 0.7 (fun c n => (7 * n <? 10 * c)%nat)).
  - exact ratio_gt_70.
  - reflexivity.
  - rewrite <- (length_map py_str (sample_of series)). apply count_le_length.
  - apply sample_of_length.
Qed.

End CleanerFacts.

(** ** The numeric-candidate heuristic *)

(** The sample at the 80% boundary. *)
Definition boundary_sample : column :=
  Column ObjectDtype (map VText ["1,000"; "$2,500"; "3,000"; "4000"; "bad"]).

Section NumericCandidate.
Context `{Pandas}.

Import Cleaner.

Lemma boundary_sample_not_date : is_date_column boundary_sample = Ok false.
Proof. vm_compute. reflexivity. Qed.

Lemma boundary_sample_not_numeric :
  should_be_numeric boundary_sample = Ok false.
Proof. vm_compute. reflexivity. Qed.

(** C1: [should_be_numeric] answers true exactly when strictly more than
    80% of the sampled non-missing values parse as numbers once commas,
    dollar signs and percent signs are removed.  On the sample
    ["1,000"; "$2,500"; "3,000"; "4000"; "bad"] four of five values parse,
    the answer is false, and [process_column] returns the column as it was,
    with no log entry. *)
Theorem numeric_candidate_needs_more_than_80_percent :
  (forall series : column,
     exists b : bool,
       should_be_numeric series = Ok b /\
       (b = true <->
        (80 * length (sample_of series) <
         100 * count parses_numeric (sample_of series))%nat)) /\
  (count parses_numeric (sample_of boundary_sample) = 4%nat /\
   length (sample_of boundary_sample) = 5%nat /\
   should_be_numeric boundary_sample = Ok false /\
   forall (idx : list Z) (col : string),
     process_column (Frame idx [(col, boundary_sample)]) col =
     Ok (Frame idx [(col, boundary_sample)], [])).
Proof.
  split.
  - intros series. eexists. split; [apply should_be_numeric_exact|].
    rewrite Nat.ltb_lt. lia.
  - split; [vm_compute; reflexivity|].
    split; [vm_compute; reflexivity|].
    split; [exact boundary_sample_not_numeric|].
    intros idx col. unfold process_column, get_col. cbn [columns lookup_col].
    rewrite String.eqb_refl. cbn [mbind result_bind].
    cbn [boundary_sample col_dtype is_numeric_dtype is_datetime64_any_dtype].
    fold boundary_sample.
    rewrite boundary_sample_not_date. cbn [mbind result_bind].
    rewrite boundary_sample_not_numeric. cbn [mbind result_bind].
    unfold normalize_text_column, get_col. cbn [columns lookup_col].
    rewrite String.eqb_refl. reflexivity.
Qed.

End NumericCandidate.

(** ** The status scorer *)

Section StatusScorer.

Import Validator.

Lemma percent_ok (a b : nat) :
  b <> 0%nat -> percent a b = Ok (float_of_nat a / float_of_nat b * 100)%float.
Proof. intros Hb. unfold percent. now rewrite true_div_ok. Qed.

Lemma missing_pct_total (df : frame) : exists mp, missing_pct df = Ok mp.
Proof.
  unfold missing_pct.
  destruct (Nat.ltb_spec 0 (len df * length (columns df))) as [Hpos|Hzero].
  - rewrite percent_ok by lia. eauto.
  - eauto.
Qed.

Lemma duplicate_pct_total (df : frame) : exists dp, duplicate_pct df = Ok dp.
Proof.
  unfold duplicate_pct. destruct (Nat.ltb_spec 0 (len df)) as [Hpos|Hzero].
  - rewrite percent_ok by lia. eauto.
  - eauto.
Qed.

(** [calculate_status] returns a summary for every frame and issue list:
    both divisions are guarded. *)
Lemma calculate_status_total (df : frame) (issues : list ValidationIssue) :
  exists mp dp,
    missing_pct df = Ok mp /\ duplicate_pct df = Ok dp /\
    calculate_status df issues =
    Ok {| total_rows := Z.of_nat (len df);
          total_columns := Z.of_nat (length (columns df));
          missing_value_count := Z.of_nat (missing_count df);
          duplicate_row_count := Z.of_nat (count_true (duplicated df));
          issue_count := Z.of_nat (length issues);
          status :=
            fst (decide_status (count_severity HIGH issues)
                   (count_severity MEDIUM issues) mp dp);
          status_reason :=
            snd (decide_status (count_severity HIGH issues)
                   (count_severity MEDIUM issues) mp dp) |}.
Proof.
  destruct (missing_pct_total df) as [mp Hmp].
  destruct (duplicate_pct_total df) as [dp Hdp].
  exists mp, dp. split; [exact Hmp|]. split; [exact Hdp|].
  unfold calculate_status. rewrite Hmp, Hdp. cbn [mbind result_bind].
  now destruct (decide_status _ _ mp dp).
Qed.

Definition not_ready_condition (high : nat) (mp dp : float) : Prop :=
  (0 < high)%nat \/ fgt mp 20 = true \/ fgt dp 50 = true.

Definition warning_condition (medium : nat) (mp : float) : Prop :=
  (0 < medium)%nat \/ fgt mp 5 = true.

Lemma decide_status_rule (high medium : nat) (mp dp : float) :
  let st := fst (decide_status high medium mp dp) in
  let rs := snd (decide_status high medium mp dp) in
  (st = NOT_READY <-> not_ready_condition high mp dp) /\
  (st = WARNING <->
   ~ not_ready_condition high mp dp /\ warning_condition medium mp) /\
  (st = READY <->
   ~ not_ready_condition high mp dp /\ ~ warning_condition medium mp) /\
  ((0 < high)%nat -> rs = HighSeverityIssues high) /\
  (high = 0%nat -> fgt mp 20 = true -> rs = MissingOverTwenty mp) /\
  (high = 0%nat -> fgt mp 20 = false -> fgt dp 50 = true ->
   rs = DuplicatesOverFifty dp) /\
  (~ not_ready_condition high mp dp -> (0 < medium)%nat ->
   rs = MediumSeverityIssues medium) /\
  (~ not_ready_condition high mp dp -> medium = 0%nat -> fgt mp 5 = true ->
   rs = MissingOverFive mp) /\
  (~ not_ready_condition high mp dp -> ~ warning_condition medium mp ->
   rs = QualityGood).
Proof.
  unfold decide_status, not_ready_condition, warning_condition.
  destruct (Nat.ltb_spec 0 high) as [Hh|Hh];
    destruct (fgt mp 20) eqn:E20; destruct (fgt dp 50) eqn:E50;
    destruct (Nat.ltb_spec 0 medium) as [Hm|Hm];
    destruct (fgt mp 5) eqn:E5; cbn;
    repeat split; intros; try discriminate; try reflexivity; try lia;
    try tauto; try (exfalso; intuition (discriminate || lia)).
Qed.

Lemma count_pos_of_In {A : Type} (p : A -> bool) (l : list A) (x : A) :
  In x l -> p x = true -> (0 < count p l)%nat.
Proof.
  intros Hin Hp. unfold count.
  assert (Hf : In x (List.filter p l)) by (apply filter_In; auto).
  destruct (List.filter p l); [contradiction|cbn; lia].
Qed.

(** C10: on a frame with no row or no column the scorer returns a summary
    and raises nothing; the missing-cell percentage is 0 when there is no
    cell and the duplicate-row percentage is 0 when there is no row, so
    neither division is reached with a zero divisor. *)
Theorem calculate_status_on_empty_frame (df : frame)
  (issues : list ValidationIssue) :
  len df = 0%nat \/ length (columns df) = 0%nat ->
  (exists s : ValidationSummary, calculate_status df issues = Ok s) /\
  missing_pct df = Ok 0%float /\
  (len df = 0%nat -> duplicate_pct df = Ok 0%float) /\
  (forall dp : float, duplicate_pct df = Ok dp ->
     calculate_status df issues =
     Ok {| total_rows := Z.of_nat (len df);
           total_columns := Z.of_nat (length (columns df));
           missing_value_count := Z.of_nat (missing_count df);
           duplicate_row_count := 0;
           issue_count := Z.of_nat (length issues);
           status :=
             fst (decide_status (count_severity HIGH issues)
                    (count_severity MEDIUM issues) 0 dp);
           status_reason :=
             snd (decide_status (count_severity HIGH issues)
                    (count_severity MEDIUM issues) 0 dp) |}).
Proof.
  intros Hempty.
  assert (Hcells : (len df * length (columns df))%nat = 0%nat) by nia.
  assert (Hmp : missing_pct df = Ok 0%float).
  { unfold missing_pct. now rewrite Hcells. }
  assert (Hdup : duplicated df = []).
  { unfold duplicated, empty.
    destruct Hempty as [-> | ->]; [reflexivity|].
    now rewrite orb_true_r. }
  destruct (calculate_status_total df issues) as (mp & dp & Hmp' & Hdp & Hs).
  split; [eauto|]. split; [exact Hmp|]. split.
  - intros Hrows. unfold duplicate_pct. now rewrite Hrows.
  - intros dp' Hdp'. rewrite Hs. rewrite Hmp in Hmp'. rewrite Hdp in Hdp'.
    injection Hmp' as <-. injection Hdp' as <-. now rewrite Hdup.
Qed.

Lemma calculate_status_on_empty_frame_witness :
  (exists s : ValidationSummary,
     calculate_status (Frame [] [("a", Column ObjectDtype [])]) [] = Ok s) /\
  missing_pct (Frame [] [("a", Column ObjectDtype [])]) = Ok 0%float.
Proof.
  destruct (calculate_status_on_empty_frame
              (Frame [] [("a", Column ObjectDtype [])]) [])
    as (Hs & Hmp & _).
  - left. reflexivity.
  - split; [exact Hs|exact Hmp].
Defined.

End StatusScorer.

(** ** The validation checks *)

Section ValidationChecks.

Import Validator.

(** The issues that name a column. *)
Definition issues_for (col : string) (issues : list ValidationIssue)
  : list ValidationIssue :=
  List.filter
    (fun i => match column_name i with
              | Some name => String.eqb name col
              | None => false
              end)
    issues.

Lemma check_mixed_column_name (nc : string * column) (i : ValidationIssue) :
  In i (check_mixed_column nc) -> column_name i = Some (fst nc).
Proof.
  destruct nc as [col c]. unfold check_mixed_column.
  repeat match goal with
         | |- context [if ?b then _ else _] => destruct b
         end; cbn; intros Hin; try contradiction.
  destruct Hin as [<-|[]]. reflexivity.
Qed.

Lemma issues_for_own (nc : string * column) :
  issues_for (fst nc) (check_mixed_column nc) = check_mixed_column nc.
Proof.
  unfold issues_for. apply forallb_filter_id, forallb_forall.
  intros i Hin. rewrite (check_mixed_column_name _ _ Hin).
  apply String.eqb_refl.
Qed.

Lemma filter_none {A : Type} (p : A -> bool) (l : list A) :
  (forall x : A, In x l -> p x = false) -> List.filter p l = [].
Proof.
  induction l as [|x l IH]; [reflexivity|]. intros Hall. cbn.
  rewrite (Hall x (or_introl eq_refl)). apply IH.
  intros y Hy. apply Hall. now right.
Qed.

Lemma issues_for_other (col : string) (nc : string * column) :
  fst nc <> col -> issues_for col (check_mixed_column nc) = [].
Proof.
  intros Hne. apply filter_none. intros i Hin.
  rewrite (check_mixed_column_name _ _ Hin).
  destruct (String.eqb_spec (fst nc) col); [contradiction|reflexivity].
Qed.

Lemma issues_for_app (col : string) (l1 l2 : list ValidationIssue) :
  issues_for col (l1 ++ l2) = issues_for col l1 ++ issues_for col l2.
Proof. unfold issues_for. apply List.filter_app. Qed.

(** With distinct column names, the mixed-type issues that name a column
    are the ones its own check produced. *)
Lemma issues_for_check_mixed_types (df : frame) (col : string) (c : column) :
  List.NoDup (column_names df) -> In (col, c) (columns df) ->
  issues_for col (check_mixed_types df) = check_mixed_column (col, c).
Proof.
  unfold check_mixed_types, column_names.
  induction (columns df) as [|[name c0] rest IH]; [contradiction|].
  cbn [map flat_map fst]. intros Hnd Hin. inversion Hnd as [|? ? Hnotin Hnd']; subst.
  rewrite issues_for_app. destruct Hin as [[= -> ->]|Hin].
  - pose proof (issues_for_own (col, c)) as Hown. cbn [fst] in Hown.
    rewrite Hown.
    assert (Hrest : issues_for col (flat_map check_mixed_column rest) = []).
    { clear IH Hnd Hnd'. induction rest as [|[n1 c1] rest IH]; [reflexivity|].
      cbn [flat_map]. rewrite issues_for_app.
      rewrite (issues_for_other col (n1, c1)).
      - apply IH. intros Hin. apply Hnotin. now right.
      - cbn. intros ->. apply Hnotin. now left. }
    rewrite Hrest. apply app_nil_r.
  - rewrite (issues_for_other col (name, c0)).
    + now apply IH.
    + cbn. intros ->. apply Hnotin.
      change col with (fst (col, c)). now apply in_map.
Qed.

Definition mixed_issue (col : string) (type_counts : gmap string nat)
  : ValidationIssue :=
  {| row_number := None; column_name := Some col; issue_type := MIXED_TYPE;
     severity := MEDIUM; description := MixedTypes col type_counts |}.

(** C4: a column whose non-missing values are [1; 1.5; "two"] gets exactly
    one mixed-type issue, of MEDIUM severity; a column whose non-missing
    values are [1; 1.5; 2], as integers and floats or as floats only, gets
    none. *)
Theorem mixed_type_examples (df : frame) (col : string) (c : column) :
  List.NoDup (column_names df) -> In (col, c) (columns df) ->
  (List.filter notna (col_cells c) = [VInt 1; VFloat 1.5; VText "two"] ->
   issues_for col (check_mixed_types df) =
   [mixed_issue col {[ "int" := 1%nat; "float" := 1%nat; "str" := 1%nat ]}]) /\
  (List.filter notna (col_cells c) = [VInt 1; VFloat 1.5; VInt 2] ->
   issues_for col (check_mixed_types df) = []) /\
  (List.filter notna (col_cells c) = [VFloat 1; VFloat 1.5; VFloat 2] ->
   issues_for col (check_mixed_types df) = []).
Proof.
  intros Hnd Hin. rewrite (issues_for_check_mixed_types df col c Hnd Hin).
  unfold check_mixed_column.
  repeat split; intros ->; vm_compute; reflexivity.
Qed.

Definition mixed_frame : frame :=
  Frame [0; 1; 2; 3]%Z
    [("a", Column ObjectDtype [VInt 1; Null; VFloat 1.5; VText "two"]);
     ("b", Column ObjectDtype [VInt 1; VFloat 1.5; VInt 2; Null])].

Lemma mixed_type_examples_witness :
  issues_for "a" (check_mixed_types mixed_frame) =
  [mixed_issue "a" {[ "int" := 1%nat; "float" := 1%nat; "str" := 1%nat ]}] /\
  issues_for "b" (check_mixed_types mixed_frame) = [].
Proof.
  split.
  - apply (mixed_type_examples mixed_frame "a"
             (Column ObjectDtype [VInt 1; Null; VFloat 1.5; VText "two"])).
    + repeat constructor; cbn; intuition discriminate.
    + cbn. tauto.
    + reflexivity.
  - refine (proj1 (proj2 (mixed_type_examples mixed_frame "b"
             (Column ObjectDtype [VInt 1; VFloat 1.5; VInt 2; Null]) _ _)) _).
    + repeat constructor; cbn; intuition discriminate.
    + cbn. tauto.
    + reflexivity.
Defined.

End ValidationChecks.

Section DuplicateRows.

Import Validator.

Lemma duplicated_from_length (seen rest : list (list cell)) :
  length (duplicated_from seen rest) = length rest.
Proof.
  revert seen. induction rest as [|r rest IH]; intros seen; cbn; [reflexivity|].
  now rewrite IH.
Qed.

(** The mark of a row: some row already seen, or some earlier row of the
    list, equals it. *)
Lemma duplicated_from_nth (seen rest : list (list cell)) (i : nat) :
  (i < length rest)%nat ->
  nth i (duplicated_from seen rest) false =
  existsb (row_eqb (nth i rest [])) (seen ++ firstn i rest).
Proof.
  revert seen i. induction rest as [|r rest IH]; intros seen i Hi; cbn in Hi.
  - lia.
  - destruct i as [|i]; cbn [duplicated_from nth firstn].
    + now rewrite app_nil_r.
    + rewrite IH by lia. now rewrite <- app_assoc.
Qed.

Lemma In_firstn_nth {A : Type} (d x : A) (l : list A) (i : nat) :
  (i <= length l)%nat ->
  In x (firstn i l) <-> exists j : nat, (j < i)%nat /\ nth j l d = x.
Proof.
  revert i. induction l as [|y l IH]; intros i Hi; cbn in Hi.
  - assert (i = 0%nat) as -> by lia. cbn. split; [contradiction|].
    intros (j & Hj & _). lia.
  - destruct i as [|i]; cbn [firstn In].
    + split; [contradiction|]. intros (j & Hj & _). lia.
    + rewrite IH by lia. split.
      * intros [<-|(j & Hj & Hx)].
        -- exists 0%nat. split; [lia|reflexivity].
        -- exists (S j). split; [lia|exact Hx].
      * intros ([|j] & Hj & Hx); [now left|].
        right. exists j. split; [lia|exact Hx].
Qed.

Lemma rows_length (df : frame) : length (rows df) = len df.
Proof. unfold rows. now rewrite length_map, length_seq. Qed.

(** [keep='first']: on a frame with rows and columns, a row is marked
    exactly when an earlier row equals it, so a first occurrence never is. *)
Lemma duplicated_keeps_first (df : frame) (i : nat) :
  empty df = false -> (i < len df)%nat ->
  nth i (duplicated df) false = true <->
  exists j : nat,
    (j < i)%nat /\ row_eqb (nth i (rows df) []) (nth j (rows df) []) = true.
Proof.
  intros Hne Hi. unfold duplicated. rewrite Hne.
  rewrite duplicated_from_nth by (rewrite rows_length; exact Hi).
  cbn [app]. rewrite existsb_exists. split.
  - intros (r & Hin & Heq).
    apply (In_firstn_nth []) in Hin; [|rewrite rows_length; lia].
    destruct Hin as (j & Hj & <-). eauto.
  - intros (j & Hj & Heq). exists (nth j (rows df) []). split; [|exact Heq].
    apply (In_firstn_nth []); [rewrite rows_length; lia|eauto].
Qed.

Definition duplicate_issue (sev : IssueSeverity) (n : nat) (pct : float)
  (labels : list Z) : ValidationIssue :=
  {| row_number := None; column_name := None; issue_type := DUPLICATE_ROW;
     severity := sev; description := DuplicateRows n pct labels |}.

(** What [check_duplicates] returns on any frame: nothing without a
    duplicate, else one issue whose severity is read off the percentage. *)
Lemma check_duplicates_rule (df : frame) :
  (count_true (duplicated df) = 0%nat /\ check_duplicates df = Ok []) \/
  (exists pct : float,
     (0 < count_true (duplicated df))%nat /\
     percent (count_true (duplicated df)) (len df) = Ok pct /\
     check_duplicates df =
     Ok [duplicate_issue
           (if fgt pct 50 then HIGH else if fgt pct 10 then MEDIUM else LOW)
           (count_true (duplicated df)) pct
           (firstn 20 (select (duplicated df) (index df)))]).
Proof.
  unfold check_duplicates.
  destruct (Nat.ltb_spec 0 (count_true (duplicated df))) as [Hpos|Hzero].
  - right. assert (Hlen : len df <> 0%nat).
    { intros Hz. unfold duplicated, empty in Hpos. rewrite Hz in Hpos.
      cbn in Hpos. lia. }
    rewrite (percent_ok _ _ Hlen). eexists. split; [exact Hpos|].
    split; reflexivity.
  - left. split; [lia|reflexivity].
Qed.




End DuplicateRows.

(** ** The status rule *)

(** The share of [part] in [whole], times 100; 0 when there is nothing to
    take a share of. *)
Definition percentage_of (part whole : nat) : float :=
  if (0 <? whole)%nat
  then (float_of_nat part / float_of_nat whole * 100)%float
  else 0%float.

(** The cells of the frame, column after column. *)
Definition all_cells (df : frame) : list cell :=
  concat (map (fun nc => col_cells (snd nc)) (columns df)).

Section StatusRule.

Import Validator.

Lemma missing_count_all_cells (df : frame) :
  missing_count df = count isna (all_cells df).
Proof.
  unfold missing_count, all_cells, count.
  induction (columns df) as [|nc rest IH]; [reflexivity|].
  cbn [map concat]. rewrite List.filter_app, length_app, <- IH. reflexivity.
Qed.

Lemma missing_pct_value (df : frame) :
  missing_pct df =
  Ok (percentage_of (count isna (all_cells df))
        (len df * length (columns df))).
Proof.
  unfold missing_pct, percentage_of. rewrite <- missing_count_all_cells.
  destruct (Nat.ltb_spec 0 (len df * length (columns df))) as [Hpos|_];
    [apply percent_ok; lia|reflexivity].
Qed.

Lemma duplicate_pct_value (df : frame) :
  duplicate_pct df =
  Ok (percentage_of (count_true (duplicated df)) (len df)).
Proof.
  unfold duplicate_pct, percentage_of.
  destruct (Nat.ltb_spec 0 (len df)) as [Hpos|_];
    [apply percent_ok; lia|reflexivity].
Qed.

Lemma count_severity_pos (sev : IssueSeverity) (issues : list ValidationIssue) :
  (0 < count_severity sev issues)%nat <->
  exists i : ValidationIssue, In i issues /\ severity i = sev.
Proof.
  unfold count_severity, count. split.
  - intros Hpos.
    destruct (List.filter (fun i => severity_eqb (severity i) sev) issues)
      as [|i rest] eqn:E; [cbn in Hpos; lia|].
    assert (Hin : In i (List.filter
                          (fun i => severity_eqb (severity i) sev) issues))
      by (rewrite E; now left).
    apply filter_In in Hin as [Hin Hsev]. exists i. split; [exact Hin|].
    destruct (severity i), sev; (reflexivity || discriminate).
  - intros (i & Hin & Hsev).
    apply (count_pos_of_In _ _ i Hin). rewrite Hsev.
    now destruct sev.
Qed.

(** C3: [calculate_status] returns a summary for every frame and issue
    list.  With the missing-cell percentage taken as the share of missing
    cells among rows times columns and the duplicate-row percentage as the
    share of rows that equal an earlier row (both times 100, and 0 on a
    frame without cells or rows), the status is NOT_READY exactly when some
    issue has HIGH severity, or the missing-cell percentage exceeds 20, or
    the duplicate-row percentage exceeds 50, and the reason names the
    first of the three that holds; otherwise it is WARNING exactly when
    some issue has MEDIUM severity or the missing-cell percentage exceeds
    5, the medium-issue reason first; otherwise it is READY.  One HIGH
    issue is enough for NOT_READY. *)
Theorem calculate_status_rule (df : frame) (issues : list ValidationIssue) :
  let high := count_severity HIGH issues in
  let medium := count_severity MEDIUM issues in
  let mp :=
    percentage_of (count isna (all_cells df))
      (len df * length (columns df)) in
  let dp := percentage_of (count_true (duplicated df)) (len df) in
  exists s : ValidationSummary,
    calculate_status df issues = Ok s /\
    missing_pct df = Ok mp /\ duplicate_pct df = Ok dp /\
    missing_value_count s = Z.of_nat (count isna (all_cells df)) /\
    duplicate_row_count s = Z.of_nat (count_true (duplicated df)) /\
    (forall i : nat,
       empty df = false -> (i < len df)%nat ->
       nth i (duplicated df) false = true <->
       exists j : nat,
         (j < i)%nat /\
         row_eqb (nth i (rows df) []) (nth j (rows df) []) = true) /\
    ((0 < high)%nat <->
     exists i : ValidationIssue, In i issues /\ severity i = HIGH) /\
    ((0 < medium)%nat <->
     exists i : ValidationIssue, In i issues /\ severity i = MEDIUM) /\
    (status s = NOT_READY <-> not_ready_condition high mp dp) /\
    (status s = WARNING <->
     ~ not_ready_condition high mp dp /\ warning_condition medium mp) /\
    (status s = READY <->
     ~ not_ready_condition high mp dp /\ ~ warning_condition medium mp) /\
    ((0 < high)%nat -> status_reason s = HighSeverityIssues high) /\
    (high = 0%nat -> fgt mp 20 = true ->
     status_reason s = MissingOverTwenty mp) /\
    (high = 0%nat -> fgt mp 20 = false -> fgt dp 50 = true ->
     status_reason s = DuplicatesOverFifty dp) /\
    (~ not_ready_condition high mp dp -> (0 < medium)%nat ->
     status_reason s = MediumSeverityIssues medium) /\
    (~ not_ready_condition high mp dp -> medium = 0%nat ->
     fgt mp 5 = true -> status_reason s = MissingOverFive mp) /\
    (~ not_ready_condition high mp dp -> ~ warning_condition medium mp ->
     status_reason s = QualityGood) /\
    (forall i : ValidationIssue,
       In i issues -> severity i = HIGH -> status s = NOT_READY).
Proof.
  cbv zeta.
  destruct (calculate_status_total df issues) as (mp & dp & Hmp & Hdp & Hs).
  rewrite missing_pct_value in Hmp. injection Hmp as Hmp. subst mp.
  rewrite duplicate_pct_value in Hdp. injection Hdp as Hdp. subst dp.
  eexists. split; [exact Hs|].
  split; [apply missing_pct_value|]. split; [apply duplicate_pct_value|].
  cbn [status status_reason missing_value_count duplicate_row_count].
  split; [now rewrite missing_count_all_cells|]. split; [reflexivity|].
  split; [intros i Hne Hi; now apply duplicated_keeps_first|].
  split; [apply count_severity_pos|]. split; [apply count_severity_pos|].
  pose proof (decide_status_rule (count_severity HIGH issues)
                (count_severity MEDIUM issues)
                (percentage_of (count isna (all_cells df))
                   (len df * length (columns df)))
                (percentage_of (count_true (duplicated df)) (len df))) as R.
  cbv zeta in R.
  destruct R as (R1 & R2 & R3 & R4 & R5 & R6 & R7 & R8 & R9).
  repeat (split; [assumption|]).
  intros i Hin Hsev. apply R1. left.
  apply (count_pos_of_In _ _ i Hin). now rewrite Hsev.
Qed.

End StatusRule.

(** ** The column name normalizer *)

(** What the uniqueness pass writes for a name that occurred [k] times
    before. *)
Definition suffixed (k : nat) (col : string) : string :=
  match k with
  | O => col
  | S _ => col +:+ "_" +:+ string_of_nat k
  end.

(** The uniqueness pass, by number of earlier occurrences. *)
Fixpoint suffix_by_occurrence (prefix cols : list string) : list string :=
  match cols with
  | [] => []
  | col :: rest =>
      suffixed (count (String.eqb col) prefix) col
      :: suffix_by_occurrence (prefix ++ [col]) rest
  end.

Section Normalizer.
Context `{Pandas}.

Import Parser.

Lemma normalize_column_name_nonempty (name : cell) :
  normalize_column_name name <> "".
Proof.
  unfold normalize_column_name. destruct (isna name); [discriminate|].
  match goal with |- context [String.eqb ?s ""] =>
    destruct (String.eqb_spec s "") as [E|E] end; [discriminate|exact E].
Qed.

Lemma count_app {A : Type} (p : A -> bool) (l1 l2 : list A) :
  count p (l1 ++ l2) = (count p l1 + count p l2)%nat.
Proof. unfold count. now rewrite List.filter_app, length_app. Qed.

(** The dictionary [seen] holds, for every name met so far, the number of
    its occurrences but the first. *)
Definition seen_counts (seen : gmap string nat) (prefix : list string)
  : Prop :=
  forall col : string,
    seen !! col =
    match count (String.eqb col) prefix with
    | O => None
    | S k => Some k
    end.

Lemma seen_counts_insert (seen : gmap string nat) (prefix : list string)
  (col : string) :
  seen_counts seen prefix ->
  seen_counts (<[col := count (String.eqb col) prefix]> seen)
    (prefix ++ [col]).
Proof.
  intros Hseen c. rewrite count_app.
  destruct (String.eqb_spec c col) as [->|Hne].
  - rewrite lookup_insert_eq. unfold count at 3. cbn [List.filter].
    rewrite String.eqb_refl. cbn. now rewrite Nat.add_1_r.
  - rewrite lookup_insert_ne by congruence. rewrite Hseen.
    unfold count at 3. cbn [List.filter].
    destruct (String.eqb_spec c col); [contradiction|].
    cbn. now rewrite Nat.add_0_r.
Qed.

Lemma ensure_unique_loop_spec (cols prefix : list string)
  (seen : gmap string nat) (result : list string) :
  seen_counts seen prefix ->
  ensure_unique_loop cols seen result =
  result ++ suffix_by_occurrence prefix cols.
Proof.
  revert prefix seen result.
  induction cols as [|col rest IH]; intros prefix seen result Hseen;
    cbn [ensure_unique_loop suffix_by_occurrence].
  - now rewrite app_nil_r.
  - pose proof (seen_counts_insert seen prefix col Hseen) as Hnext.
    rewrite (Hseen col).
    destruct (count (String.eqb col) prefix) as [|k];
      rewrite (IH (prefix ++ [col]) _ _ Hnext);
      now rewrite <- app_assoc.
Qed.

(** [ensure_unique_columns] keeps a first occurrence and appends the
    number of earlier occurrences to a later one. *)
Lemma ensure_unique_columns_spec (cols : list string) :
  ensure_unique_columns cols = suffix_by_occurrence [] cols.
Proof.
  unfold ensure_unique_columns.
  rewrite (ensure_unique_loop_spec cols [] ∅ []); [reflexivity|].
  intros col. cbn. apply lookup_empty.
Qed.

Lemma suffixed_nonempty (k : nat) (col : string) :
  col <> "" -> suffixed k col <> "".
Proof.
  intros Hne. destruct k; [exact Hne|]. cbn [suffixed].
  destruct col; [contradiction|discriminate].
Qed.

Lemma suffix_by_occurrence_nonempty (prefix cols : list string) :
  Forall (fun col => col <> "") cols ->
  Forall (fun col => col <> "") (suffix_by_occurrence prefix cols).
Proof.
  revert prefix. induction cols as [|col rest IH]; intros prefix Hall;
    cbn [suffix_by_occurrence]; [constructor|].
  inversion Hall; subst. constructor.
  - now apply suffixed_nonempty.
  - now apply IH.
Qed.

(** C6: the new header has one non-empty name per raw header, a first
    occurrence keeps its normalized name and a later one gets the number of
    its earlier occurrences as suffix; but the names are not pairwise
    distinct: the raw header [A; a; a_1] becomes [a; a_1; a_1], and the
    mapping to the original names then has two entries for three
    columns. *)
Theorem ensure_unique_columns_collides :
  (forall raw : list cell,
     fst (normalize_headers raw) =
     suffix_by_occurrence [] (map normalize_column_name raw) /\
     length (fst (normalize_headers raw)) = length raw /\
     Forall (fun col => col <> "") (fst (normalize_headers raw))) /\
  fst (normalize_headers [VText "A"; VText "a"; VText "a_1"]) =
  ["a"; "a_1"; "a_1"] /\
  ~ List.NoDup (fst (normalize_headers [VText "A"; VText "a"; VText "a_1"])) /\
  size (snd (normalize_headers [VText "A"; VText "a"; VText "a_1"])) = 2%nat.
Proof.
  split; [|split; [|split]].
  - intros raw. unfold normalize_headers. cbn [fst].
    rewrite ensure_unique_columns_spec. split; [reflexivity|]. split.
    + assert (Hlen : forall prefix cols,
                 length (suffix_by_occurrence prefix cols) = length cols).
      { intros prefix cols. revert prefix.
        induction cols as [|c r IH]; intros prefix; cbn; [reflexivity|].
        now rewrite IH. }
      now rewrite Hlen, length_map.
    + apply suffix_by_occurrence_nonempty, List.Forall_forall.
      intros col Hin. apply in_map_iff in Hin as (name & <- & _).
      apply normalize_column_name_nonempty.
  - vm_compute. reflexivity.
  - assert (E : fst (normalize_headers [VText "A"; VText "a"; VText "a_1"]) =
                ["a"; "a_1"; "a_1"]) by (vm_compute; reflexivity).
    rewrite E. intros Hnd. inversion Hnd as [|? ? _ Hnd']; subst.
    inversion Hnd' as [|? ? Hnotin _]; subst. apply Hnotin. now left.
  - vm_compute. reflexivity.
Qed.

End Normalizer.

(** ** Column by column

    Every function [process_column] dispatches to reads and writes
    [df[col]] only: the new column and the log entries are determined by
    the column, and the entries name it. *)

Lemma get_col_ok_iff (df : frame) (col : string) :
  In col (column_names df) <-> exists c : column, get_col df col = Ok c.
Proof.
  unfold column_names, get_col.
  induction (columns df) as [|[name c0] rest IH]; cbn.
  - split; [contradiction|]. intros [c Hc]. discriminate.
  - destruct (String.eqb_spec name col) as [->|Hne].
    + split; eauto.
    + rewrite <- IH. split; [intros [E|Hin]; [contradiction|exact Hin]|auto].
Qed.

Lemma replace_col_names (cols : list (string * column)) (col : string)
  (c : column) :
  In col (map fst cols) -> map fst (replace_col cols col c) = map fst cols.
Proof.
  induction cols as [|[name c0] rest IH]; cbn; [contradiction|].
  destruct (String.eqb_spec name col) as [->|Hne]; cbn; [reflexivity|].
  intros [E|Hin]; [contradiction|]. now rewrite IH.
Qed.

Lemma set_col_names (df : frame) (col : string) (c : column) :
  In col (column_names df) -> column_names (set_col df col c) = column_names df.
Proof. apply replace_col_names. Qed.

Lemma lookup_col_replace_ne (cols : list (string * column))
  (col other : string) (c : column) :
  col <> other ->
  lookup_col (replace_col cols col c) other = lookup_col cols other.
Proof.
  intros Hne. induction cols as [|[name c0] rest IH]; cbn.
  - destruct (String.eqb_spec col other); [contradiction|reflexivity].
  - destruct (String.eqb_spec name col) as [->|Hn]; cbn.
    + destruct (String.eqb_spec col other); [contradiction|reflexivity].
    + now rewrite IH.
Qed.

Lemma get_set_col_ne (df : frame) (col other : string) (c : column) :
  col <> other -> get_col (set_col df col c) other = get_col df other.
Proof.
  intros Hne. unfold get_col, set_col. cbn [columns].
  now rewrite lookup_col_replace_ne.
Qed.

(** The log entries that name a column. *)
Definition names_column (col : string) (e : log_entry) : bool :=
  match entry_column e with
  | Some name => String.eqb name col
  | None => false
  end.

Definition entries_for (col : string) (l : list log_entry) : list log_entry :=
  List.filter (names_column col) l.

Section ColumnLocal.
Context `{Pandas}.

Import Cleaner.

(** A step is column-local when its effect on any frame holding column
    [c] under the name [col] is to store one column [c'] there and to log
    entries about [col]. *)
Definition column_local (step : frame -> string -> result (frame * log))
  : Prop :=
  forall (col : string) (c : column),
  exists (c' : column) (entries : log),
    Forall (fun e => entry_column e = Some col) entries /\
    forall df : frame,
      get_col df col = Ok c ->
      step df col = Ok (set_col df col c', entries).

Lemma clean_numeric_column_local : column_local clean_numeric_column.
Proof.
  intros col c.
  destruct (is_float_dtype (col_dtype c)) eqn:Efloat;
    [destruct (Z.of_nat (count isinf (col_cells c)) >? 0)%Z eqn:Einf|].
  - eexists _, [RemoveInfinity col _]. split; [repeat constructor|].
    intros df Hget. unfold clean_numeric_column. rewrite Hget.
    cbn [mbind result_bind]. rewrite Efloat, Einf. reflexivity.
  - exists c, []. split; [constructor|].
    intros df Hget. unfold clean_numeric_column. rewrite Hget.
    cbn [mbind result_bind]. rewrite Efloat, Einf.
    now rewrite (set_col_same _ _ _ Hget).
  - exists c, []. split; [constructor|].
    intros df Hget. unfold clean_numeric_column. rewrite Hget.
    cbn [mbind result_bind]. rewrite Efloat.
    now rewrite (set_col_same _ _ _ Hget).
Qed.

Lemma convert_to_date_local : column_local convert_to_date.
Proof.
  intros col c. destruct (to_datetime (col_cells c)) as [parsed|e] eqn:Eparse;
    [destruct (Z.of_nat (count notna (map cell_of_parsed parsed)) >? 0)%Z
       eqn:Econv|].
  - eexists _, [ConvertDates col _ _]. split; [repeat constructor|].
    intros df Hget. unfold convert_to_date. rewrite Hget.
    cbn [mbind result_bind]. rewrite Eparse. cbn [mbind result_bind try_except].
    rewrite Econv. reflexivity.
  - eexists _, []. split; [constructor|].
    intros df Hget. unfold convert_to_date. rewrite Hget.
    cbn [mbind result_bind]. rewrite Eparse. cbn [mbind result_bind try_except].
    rewrite Econv. reflexivity.
  - exists c, []. split; [constructor|].
    intros df Hget. unfold convert_to_date. rewrite Hget.
    cbn [mbind result_bind]. rewrite Eparse. reflexivity.
Qed.

Lemma convert_to_numeric_local : column_local convert_to_numeric.
Proof.
  intros col c.
  destruct (Z.of_nat (count notna (col_cells c)) -
            Z.of_nat (count notna
                        (col_cells (to_numeric (map unformat (col_cells c)))))
            >? 0)%Z eqn:Ecoerced.
  - eexists _, [CoerceToNumeric col _]. split; [repeat constructor|].
    intros df Hget. unfold convert_to_numeric. rewrite Hget.
    cbn [mbind result_bind]. rewrite Ecoerced. reflexivity.
  - eexists _, [ConvertToNumeric col]. split; [repeat constructor|].
    intros df Hget. unfold convert_to_numeric. rewrite Hget.
    cbn [mbind result_bind]. rewrite Ecoerced. reflexivity.
Qed.

Lemma normalize_text_column_local : column_local normalize_text_column.
Proof.
  intros col c.
  destruct (count (fun b : bool => b) (map notna (col_cells c)) =? 0)%nat
    eqn:Emask;
    [|destruct (0 <? snd (string_changes PyStr.lower c))%nat eqn:Echanges].
  - exists c, []. split; [constructor|].
    intros df Hget. unfold normalize_text_column. rewrite Hget.
    cbn [mbind result_bind]. unfold string_changes. rewrite Emask.
    now rewrite (set_col_same _ _ _ Hget).
  - eexists _, [NormalizeText col _]. split; [repeat constructor|].
    intros df Hget. unfold normalize_text_column. rewrite Hget.
    cbn [mbind result_bind]. unfold string_changes in *. cbn [snd] in Echanges.
    rewrite Emask, Echanges. reflexivity.
  - exists c, []. split; [constructor|].
    intros df Hget. unfold normalize_text_column. rewrite Hget.
    cbn [mbind result_bind]. unfold string_changes in *. cbn [snd] in Echanges.
    rewrite Emask, Echanges.
    now rewrite (set_col_same _ _ _ Hget).
Qed.

Lemma process_column_local : column_local process_column.
Proof.
  intros col c.
  assert (Hdispatch :
            forall step : frame -> string -> result (frame * log),
              column_local step ->
              (forall df : frame,
                 get_col df col = Ok c -> process_column df col = step df col) ->
              exists (c' : column) (entries : log),
                Forall (fun e => entry_column e = Some col) entries /\
                forall df : frame,
                  get_col df col = Ok c ->
                  process_column df col = Ok (set_col df col c', entries)).
  { intros step Hlocal Hsame. destruct (Hlocal col c) as (c' & entries & Hnames & Hstep).
    exists c', entries. split; [exact Hnames|].
    intros df Hget. rewrite (Hsame df Hget). now apply Hstep. }
  destruct (is_numeric_dtype (col_dtype c)) eqn:Enum.
  { apply (Hdispatch _ clean_numeric_column_local).
    intros df Hget. unfold process_column. rewrite Hget.
    cbn [mbind result_bind]. now rewrite Enum. }
  destruct (is_datetime64_any_dtype (col_dtype c)) eqn:Etime.
  { exists c, []. split; [constructor|].
    intros df Hget. unfold process_column. rewrite Hget.
    cbn [mbind result_bind]. rewrite Enum, Etime.
    now rewrite (set_col_same _ _ _ Hget). }
  pose proof (is_date_column_exact c) as Hdate.
  destruct (7 * length (sample_of c) <?
            10 * count looks_like_date (map py_str (sample_of c)))%nat.
  { apply (Hdispatch _ convert_to_date_local).
    intros df Hget. unfold process_column. rewrite Hget.
    cbn [mbind result_bind]. rewrite Enum, Etime, Hdate. reflexivity. }
  pose proof (should_be_numeric_exact c) as Hnumeric.
  destruct (4 * length (sample_of c) <?
            5 * count parses_numeric (sample_of c))%nat.
  { apply (Hdispatch _ convert_to_numeric_local).
    intros df Hget. unfold process_column. rewrite Hget.
    cbn [mbind result_bind]. rewrite Enum, Etime, Hdate.
    cbn [mbind result_bind]. rewrite Hnumeric. reflexivity. }
  apply (Hdispatch _ normalize_text_column_local).
  intros df Hget. unfold process_column. rewrite Hget.
  cbn [mbind result_bind]. rewrite Enum, Etime, Hdate.
  cbn [mbind result_bind]. rewrite Hnumeric. reflexivity.
Qed.

End ColumnLocal.

Section ProcessColumns.
Context `{Pandas}.

Import Cleaner.

Lemma entries_for_app (col : string) (l1 l2 : list log_entry) :
  entries_for col (l1 ++ l2) = entries_for col l1 ++ entries_for col l2.
Proof. apply List.filter_app. Qed.

Lemma entries_for_own (col : string) (l : list log_entry) :
  Forall (fun e => entry_column e = Some col) l -> entries_for col l = l.
Proof.
  intros Hall. apply forallb_filter_id, forallb_forall. intros e Hin.
  rewrite List.Forall_forall in Hall. unfold names_column.
  rewrite (Hall e Hin). apply String.eqb_refl.
Qed.

Lemma entries_for_other (col other : string) (l : list log_entry) :
  other <> col ->
  Forall (fun e => entry_column e = Some other) l -> entries_for col l = [].
Proof.
  intros Hne Hall. apply filter_none. intros e Hin.
  rewrite List.Forall_forall in Hall. unfold names_column.
  rewrite (Hall e Hin).
  destruct (String.eqb_spec other col); [contradiction|reflexivity].
Qed.

(** The loop over the columns returns; it keeps the header and the index,
    leaves the columns it does not visit as they are and logs nothing
    about them. *)
Lemma process_columns_spec (cols : list string) (df : frame) (log0 : log) :
  (forall col : string, In col cols -> In col (column_names df)) ->
  exists (out : frame) (entries : log),
    process_columns df cols log0 = Ok (out, log0 ++ entries) /\
    column_names out = column_names df /\
    index out = index df /\
    (forall col : string, ~ In col cols ->
       get_col out col = get_col df col /\ entries_for col entries = []).
Proof.
  revert df log0. induction cols as [|col rest IH]; intros df log0 Hcols.
  - exists df, []. cbn. rewrite app_nil_r. repeat split; reflexivity.
  - assert (Hin : In col (column_names df)) by (apply Hcols; now left).
    destruct (proj1 (get_col_ok_iff df col) Hin) as [c Hget].
    destruct (process_column_local col c) as (c' & entries & Hnames & Hstep).
    cbn [process_columns]. rewrite (Hstep df Hget). cbn [mbind result_bind].
    destruct (IH (set_col df col c') (log0 ++ entries)) as
      (out & entries' & Hrun & Hout_names & Hout_index & Hout_cols).
    { intros other Hother. rewrite set_col_names by exact Hin.
      apply Hcols. now right. }
    exists out, (entries ++ entries'). rewrite Hrun, <- app_assoc.
    split; [reflexivity|]. split.
    { rewrite Hout_names. now apply set_col_names. }
    split; [exact Hout_index|].
    intros other Hother. cbn in Hother.
    assert (Hne : col <> other) by tauto.
    assert (Hrest : ~ In other rest) by tauto.
    destruct (Hout_cols other Hrest) as [Hkept Hnone]. split.
    + rewrite Hkept. now apply get_set_col_ne.
    + rewrite entries_for_app, Hnone, app_nil_r.
      now apply (entries_for_other other col).
Qed.

(** With distinct names, the column the loop leaves under a name and the
    entries it logs about it are those of the column's own step. *)
Lemma process_columns_column (cols : list string) (df : frame) (log0 : log)
  (col : string) (c c' : column) (step_log : log) :
  List.NoDup cols ->
  (forall name : string, In name cols -> In name (column_names df)) ->
  In col cols ->
  get_col df col = Ok c ->
  (forall d : frame,
     get_col d col = Ok c -> process_column d col = Ok (set_col d col c', step_log)) ->
  exists (out : frame) (entries : log),
    process_columns df cols log0 = Ok (out, log0 ++ entries) /\
    get_col out col = Ok c' /\
    entries_for col entries = entries_for col step_log.
Proof.
  revert df log0. induction cols as [|name rest IH];
    intros df log0 Hnd Hcols Hin Hget Hstep; [contradiction|].
  inversion Hnd as [|? ? Hnotin Hnd']; subst.
  assert (Hname : In name (column_names df)) by (apply Hcols; now left).
  cbn [process_columns].
  destruct (String.eqb_spec name col) as [->|Hne].
  - rewrite (Hstep df Hget). cbn [mbind result_bind].
    destruct (process_columns_spec rest (set_col df col c') (log0 ++ step_log))
      as (out & entries & Hrun & _ & _ & Hkept).
    { intros other Hother. rewrite set_col_names by exact Hname.
      apply Hcols. now right. }
    destruct (Hkept col Hnotin) as [Hcol Hnone].
    exists out, (step_log ++ entries). rewrite Hrun, <- app_assoc.
    split; [reflexivity|]. split.
    + rewrite Hcol. apply get_set_col.
    + now rewrite entries_for_app, Hnone, app_nil_r.
  - destruct (proj1 (get_col_ok_iff df name) Hname) as [c0 Hget0].
    destruct (process_column_local name c0) as (c0' & entries0 & Hnames0 & Hstep0).
    rewrite (Hstep0 df Hget0). cbn [mbind result_bind].
    destruct (IH (set_col df name c0') (log0 ++ entries0)) as
      (out & entries & Hrun & Hcol & Hlog); try assumption.
    { intros other Hother. rewrite set_col_names by exact Hname.
      apply Hcols. now right. }
    { destruct Hin as [E|Hin]; [contradiction|exact Hin]. }
    { rewrite get_set_col_ne by exact Hne. exact Hget. }
    exists out, (entries0 ++ entries). rewrite Hrun, <- app_assoc.
    split; [reflexivity|]. split; [exact Hcol|].
    rewrite entries_for_app, Hlog.
    now rewrite (entries_for_other col name entries0 Hne Hnames0).
Qed.

End ProcessColumns.

(** ** Date conversion *)

(** The column of the date example. *)
Definition three_dates : column :=
  Column ObjectDtype
    [VText "2024-01-05"; VText "2024-13-40"; VText "01/05/2024"].

Definition dates_frame : frame := Frame [0; 1; 2]%Z [("when", three_dates)].

Lemma append_length (a b : string) :
  String.length (a +:+ b) = (String.length a + String.length b)%nat.
Proof.
  induction a as [|ch a IH]; [reflexivity|].
  change (String ch a +:+ b) with (String ch (a +:+ b)).
  cbn [String.length]. now rewrite IH.
Qed.

Lemma zeros_length (n : nat) : String.length (Cleaner.zeros n) = n.
Proof. induction n as [|n IH]; cbn; [reflexivity|now rewrite IH]. Qed.

Lemma pad_left_length (width : nat) (s : string) :
  (width <= String.length (Cleaner.pad_left width s))%nat.
Proof.
  unfold Cleaner.pad_left. rewrite append_length, zeros_length. lia.
Qed.

(** A formatted date is never the text [NaT]. *)
Lemma strftime_ymd_not_NaT (t : timestamp) :
  String.eqb (Cleaner.strftime_ymd t) "NaT" = false.
Proof.
  apply String.eqb_neq. intros E.
  apply (f_equal String.length) in E. unfold Cleaner.strftime_ymd in E.
  rewrite append_length in E.
  pose proof (pad_left_length 4 (string_of_nat (ts_year t))) as Hy.
  cbn [String.length] in E. lia.
Qed.

Section DateConversion.
Context `{Pandas}.

Import Cleaner.





End DateConversion.



(** ** Fail-soft date conversion *)

(** A date-like column whose second value is no calendar day. *)
Definition soft_frame : frame :=
  Frame [0; 1]%Z
    [("id", Column Int64 [VInt 1; VInt 2]);
     ("when", Column ObjectDtype [VText "2024-01-05"; VText "2024-02-30"])].

Section FailSoft.
Context `{Pandas}.

Import Cleaner.

(** The entries of stages 1 to 3 name no column. *)
Lemma structural_cleanup_log (df df3 : frame) (log3 : log) (col : string) :
  structural_cleanup df = Ok (df3, log3) -> entries_for col log3 = [].
Proof.
  unfold structural_cleanup, remove_empty_rows, remove_empty_columns,
    trim_whitespace.
  destruct (trim_columns _ _ _) as [[d n]|e]; cbn [mbind result_bind];
    [|discriminate].
  intros [= _ <-].
  repeat match goal with
         | |- context [if ?b then _ else _] => destruct b
         end; reflexivity.
Qed.

(** C7: when a column reaches the dispatch as a date candidate and the
    date parse of the whole column raises, [process_column] returns the
    frame as it was with no log entry, and [clean_dataframe] returns (it
    does not raise) a frame that holds the column unchanged, with a log
    that has no entry about the column. *)
Theorem date_parse_failure_is_soft (df df3 : frame) (log3 : log)
  (col : string) (c : column) (e : exn) :
  structural_cleanup df = Ok (df3, log3) ->
  List.NoDup (column_names df3) ->
  get_col df3 col = Ok c ->
  is_numeric_dtype (col_dtype c) = false ->
  is_datetime64_any_dtype (col_dtype c) = false ->
  is_date_column c = Ok true ->
  to_datetime (col_cells c) = Raise e ->
  convert_to_date df3 col = Ok (df3, []) /\
  process_column df3 col = Ok (df3, []) /\
  exists (out : frame) (entries : log),
    clean_dataframe df = Ok (out, entries) /\
    get_col out col = Ok c /\
    entries_for col entries = [].
Proof.
  intros Hclean Hnd Hget Hnum Htime Hdate Hraise.
  assert (Hconvert : forall d : frame,
             get_col d col = Ok c -> convert_to_date d col = Ok (set_col d col c, [])).
  { intros d Hd. unfold convert_to_date. rewrite Hd. cbn [mbind result_bind].
    rewrite Hraise. reflexivity. }
  assert (Hstep : forall d : frame,
             get_col d col = Ok c -> process_column d col = Ok (set_col d col c, [])).
  { intros d Hd. unfold process_column. rewrite Hd. cbn [mbind result_bind].
    rewrite Hnum, Htime, Hdate. cbn [mbind result_bind]. now apply Hconvert. }
  split; [|split].
  - rewrite (Hconvert df3 Hget). now rewrite (set_col_same _ _ _ Hget).
  - rewrite (Hstep df3 Hget). now rewrite (set_col_same _ _ _ Hget).
  - destruct (process_columns_column (column_names df3) df3 log3 col c c []
                Hnd (fun name Hname => Hname)
                (proj2 (get_col_ok_iff df3 col) (ex_intro _ c Hget))
                Hget Hstep)
      as (out & entries & Hrun & Hcol & Hnone).
    exists out, (log3 ++ entries). unfold clean_dataframe.
    rewrite Hclean. cbn [mbind result_bind]. split; [exact Hrun|].
    split; [exact Hcol|].
    rewrite entries_for_app, Hnone.
    now rewrite (structural_cleanup_log df df3 log3 col Hclean).
Qed.

End FailSoft.

Lemma date_parse_failure_is_soft_witness :
  exists (out : frame) (entries : list log_entry),
    @Cleaner.clean_dataframe Failing.pandas soft_frame = Ok (out, entries) /\
    get_col out "when" =
    Ok (Column ObjectDtype [VText "2024-01-05"; VText "2024-02-30"]) /\
    entries_for "when" entries = [].
Proof.
  refine (proj2 (proj2
    (@date_parse_failure_is_soft Failing.pandas soft_frame soft_frame []
       "when" (Column ObjectDtype [VText "2024-01-05"; VText "2024-02-30"])
       LibraryError _ _ _ _ _ _ _))).
  - vm_compute. reflexivity.
  - repeat constructor; cbn; intuition discriminate.
  - reflexivity.
  - reflexivity.
  - reflexivity.
  - vm_compute. reflexivity.
  - reflexivity.
Defined.

(** ** The caller's frame *)

Section CallerFrame.
Context `{Pandas}.

(** Every object of [h] is in [h'] with the same value. *)
Definition preserved (h h' : gmap nat frame) : Prop :=
  forall (k : nat) (d : frame), h !! k = Some d -> h' !! k = Some d.

Lemma preserved_refl (h : gmap nat frame) : preserved h h.
Proof. intros k d Hk. exact Hk. Qed.

Lemma preserved_insert (h h' : gmap nat frame) (l : nat) (d : frame) :
  preserved h h' -> h !! l = None -> preserved h (<[l := d]> h').
Proof.
  intros Hp Hl k d' Hk. rewrite lookup_insert_ne; [now apply Hp|].
  intros ->. rewrite Hl in Hk. discriminate.
Qed.

Lemma fresh_unallocated (h : gmap nat frame) : h !! fresh (dom h) = None.
Proof. apply not_elem_of_dom, is_fresh. Qed.

Lemma rebind_run {A : Type} (f : frame -> frame * A) (l : nat)
  (h : gmap nat frame) (d : frame) :
  h !! l = Some d ->
  Store.rebind f l h =
  (Ok (fresh (dom h), snd (f d)), <[fresh (dom h) := fst (f d)]> h).
Proof.
  intros Hl. unfold Store.rebind, Store.deref, Store.new_object.
  unfold mbind, Store.M_bind, mret, Store.M_ret. rewrite Hl.
  now destruct (f d).
Qed.

Lemma in_place_run {A : Type} (f : frame -> result (frame * A)) (l : nat)
  (h : gmap nat frame) (d : frame) :
  h !! l = Some d ->
  Store.in_place f l h =
  match f d with
  | Ok (d', a) => (Ok (l, a), <[l := d']> h)
  | Raise e => (Raise e, h)
  end.
Proof.
  intros Hl. unfold Store.in_place, Store.deref, Store.update, Store.lift.
  unfold mbind, Store.M_bind, mret, Store.M_ret. rewrite Hl.
  now destruct (f d) as [[d' a]|e].
Qed.

Lemma bind_run {A B : Type} (m : Store.M A) (f : A -> Store.M B)
  (h : gmap nat frame) :
  @mbind Store.M Store.M_bind A B f m h =
  match m h with
  | (Ok a, h') => f a h'
  | (Raise e, h') => (Raise e, h')
  end.
Proof. reflexivity. Qed.

(** The outcome of an object-level run, from the outcome on values. *)
Definition outcome_at (l : nat) (r : result (frame * Cleaner.log))
  : result (nat * Cleaner.log) :=
  match r with
  | Ok (_, entries) => Ok (l, entries)
  | Raise e => Raise e
  end.

(** The frame a run leaves at its working object: the result, if any. *)
Definition left_at (r : result (frame * Cleaner.log)) (d' : frame) : Prop :=
  forall (out : frame) (entries : Cleaner.log), r = Ok (out, entries) -> d' = out.

(** The loop on the object at [l] computes what the loop on its value
    computes, and writes to [l] only. *)
Lemma store_process_columns (cols : list string) (l : nat)
  (h : gmap nat frame) (d : frame) (log0 : Cleaner.log) :
  h !! l = Some d ->
  exists d' : frame,
    Store.process_columns l cols log0 h =
    (outcome_at l (Cleaner.process_columns d cols log0), <[l := d']> h) /\
    left_at (Cleaner.process_columns d cols log0) d'.
Proof.
  revert h d log0. induction cols as [|col rest IH]; intros h d log0 Hl.
  - exists d. cbn. rewrite insert_id by exact Hl.
    split; [reflexivity|]. now intros out entries [= <- _].
  - cbn [Store.process_columns Cleaner.process_columns].
    unfold Store.process_column. rewrite bind_run.
    rewrite (in_place_run _ l h d Hl).
    destruct (Cleaner.process_column d col) as [[d1 entries]|e];
      cbn [mbind result_bind].
    + destruct (IH (<[l := d1]> h) d1 (log0 ++ entries)) as (d' & Hrun & Hleft).
      { apply lookup_insert_eq. }
      exists d'. rewrite Hrun, insert_insert_eq. split; [reflexivity|exact Hleft].
    + exists d. rewrite insert_id by exact Hl.
      split; [reflexivity|]. intros out entries. discriminate.
Qed.

(** [clean_dataframe] on the object at [l]: three new objects, the last of
    which is worked on in place. *)
Lemma store_clean_dataframe (h : gmap nat frame) (l : nat) (df : frame) :
  h !! l = Some df ->
  exists (l' : nat) (h' : gmap nat frame),
    Store.clean_dataframe l h =
    (outcome_at l' (Cleaner.clean_dataframe df), h') /\
    h !! l' = None /\ preserved h h' /\
    exists d' : frame,
      h' !! l' = Some d' /\ left_at (Cleaner.clean_dataframe df) d'.
Proof.
  intros Hl.
  unfold Store.clean_dataframe, Cleaner.clean_dataframe,
    Cleaner.structural_cleanup.
  rewrite bind_run, (rebind_run _ l h df Hl). cbn [fst snd].
  set (l1 := fresh (dom h)). set (h1 := <[l1 := df]> h).
  assert (Hp1 : preserved h h1).
  { apply preserved_insert; [apply preserved_refl|apply fresh_unallocated]. }
  rewrite bind_run, (rebind_run _ l1 h1 df) by apply lookup_insert_eq.
  destruct (Cleaner.remove_empty_rows df) as [d2 log1]. cbn [fst snd].
  set (l2 := fresh (dom h1)). set (h2 := <[l2 := d2]> h1).
  assert (Hn2 : h !! l2 = None).
  { destruct (h !! l2) as [d|] eqn:E; [|reflexivity].
    apply Hp1 in E. pose proof (fresh_unallocated h1) as Hf.
    fold l2 in Hf. congruence. }
  assert (Hp2 : preserved h h2) by (apply preserved_insert; assumption).
  rewrite bind_run, (rebind_run _ l2 h2 d2) by apply lookup_insert_eq.
  destruct (Cleaner.remove_empty_columns d2) as [d3 log2]. cbn [fst snd].
  set (l3 := fresh (dom h2)). set (h3 := <[l3 := d3]> h2).
  assert (Hn3 : h !! l3 = None).
  { destruct (h !! l3) as [d|] eqn:E; [|reflexivity].
    apply Hp2 in E. pose proof (fresh_unallocated h2) as Hf.
    fold l3 in Hf. congruence. }
  assert (Hp3 : preserved h h3) by (apply preserved_insert; assumption).
  exists l3.
  rewrite bind_run, (in_place_run _ l3 h3 d3) by apply lookup_insert_eq.
  destruct (Cleaner.trim_whitespace d3) as [[d4 log3]|e];
    cbn [mbind result_bind fst snd].
  - rewrite bind_run. unfold Store.deref at 1. rewrite lookup_insert_eq.
    destruct (store_process_columns (column_names d4) l3 (<[l3 := d4]> h3) d4
                (log1 ++ log2 ++ log3)) as (d' & Hrun & Hleft).
    { apply lookup_insert_eq. }
    rewrite Hrun, insert_insert_eq. eexists. split; [reflexivity|].
    split; [exact Hn3|]. split; [now apply preserved_insert|].
    exists d'. split; [apply lookup_insert_eq|exact Hleft].
  - exists h3. split; [reflexivity|]. split; [exact Hn3|].
    split; [exact Hp3|]. exists d3. split; [apply lookup_insert_eq|].
    intros out entries. discriminate.
Qed.

(** C9: [clean_dataframe] works on a copy.  Whatever it returns or
    raises, every frame object that existed before the call, the caller's
    among them, has the value it had; a returned frame is a new object,
    and it and the log are those of the value-level function. *)
Theorem clean_dataframe_leaves_input_unchanged (h : gmap nat frame)
  (l : nat) (df : frame) :
  h !! l = Some df ->
  preserved h (snd (Store.clean_dataframe l h)) /\
  snd (Store.clean_dataframe l h) !! l = Some df /\
  match fst (Store.clean_dataframe l h) with
  | Ok (l', entries) =>
      l' <> l /\ h !! l' = None /\
      exists out : frame,
        snd (Store.clean_dataframe l h) !! l' = Some out /\
        Cleaner.clean_dataframe df = Ok (out, entries)
  | Raise e => Cleaner.clean_dataframe df = Raise e
  end.
Proof.
  intros Hl.
  destruct (store_clean_dataframe h l df Hl)
    as (l' & h' & Hrun & Hnew & Hpres & d' & Hd' & Hleft).
  rewrite Hrun. cbn [fst snd].
  split; [exact Hpres|]. split; [now apply Hpres|].
  destruct (Cleaner.clean_dataframe df) as [[out entries]|e];
    cbn [outcome_at]; [|reflexivity].
  split; [intros ->; rewrite Hl in Hnew; discriminate|].
  split; [exact Hnew|]. exists out. split; [|reflexivity].
  now rewrite <- (Hleft out entries eq_refl).
Qed.

End CallerFrame.

(** By contrast [process_column], called on the caller's own object, does
    change it: the copy at the head of [clean_dataframe] is what protects
    the argument. *)
Lemma process_column_changes_its_argument :
  snd (@Store.process_column Reference.pandas 0%nat "when"
         {[ 0%nat := dates_frame ]}) !! 0%nat <>
  Some dates_frame.
Proof. vm_compute. discriminate. Qed.

Lemma clean_dataframe_leaves_input_unchanged_witness :
  snd (@Store.clean_dataframe Reference.pandas 0%nat
         {[ 0%nat := dates_frame ]}) !! 0%nat =
  Some dates_frame.
Proof.
  refine (proj1 (proj2
    (@clean_dataframe_leaves_input_unchanged Reference.pandas
       {[ 0%nat := dates_frame ]} 0%nat dates_frame _))).
  reflexivity.
Defined.

(** ** Cleaning a cleaned frame *)



(** *** Strings that a second pass leaves alone *)

Section Strings.

Import PyStr.

Lemma lower_char_idem (c : ascii) : lower_char (lower_char c) = lower_char c.
Proof. destruct c as [[] [] [] [] [] [] [] []]; reflexivity. Qed.

Lemma lower_idem (s : string) : lower (lower s) = lower s.
Proof.
  induction s as [|c s IH]; cbn; [reflexivity|].
  now rewrite lower_char_idem, IH.
Qed.

Lemma is_space_lower_char (c : ascii) : is_space (lower_char c) = is_space c.
Proof. destruct c as [[] [] [] [] [] [] [] []]; reflexivity. Qed.

Lemma lstrip_lower (s : string) :
  lstrip_by is_space (lower s) = lower (lstrip_by is_space s).
Proof.
  induction s as [|c s IH]; cbn; [reflexivity|].
  rewrite is_space_lower_char. now destruct (is_space c).
Qed.

Lemma rstrip_lower (s : string) :
  rstrip_by is_space (lower s) = lower (rstrip_by is_space s).
Proof.
  induction s as [|c s IH]; cbn; [reflexivity|].
  rewrite IH, is_space_lower_char.
  destruct (rstrip_by is_space s); cbn; [|reflexivity].
  now destruct (is_space c).
Qed.

Lemma strip_lower (s : string) : strip (lower s) = lower (strip s).
Proof. unfold strip, strip_by. now rewrite lstrip_lower, rstrip_lower. Qed.

Lemma lstrip_idem (p : ascii -> bool) (s : string) :
  lstrip_by p (lstrip_by p s) = lstrip_by p s.
Proof.
  induction s as [|c s IH]; cbn; [reflexivity|].
  destruct (p c) eqn:E; [exact IH|]. cbn. now rewrite E.
Qed.

Lemma rstrip_idem (p : ascii -> bool) (s : string) :
  rstrip_by p (rstrip_by p s) = rstrip_by p s.
Proof.
  induction s as [|c s IH]; cbn; [reflexivity|].
  destruct (rstrip_by p s) as [|d r] eqn:E.
  - destruct (p c) eqn:Ec; cbn; [reflexivity|now rewrite Ec].
  - change (rstrip_by p (String c (String d r))) with
      (match rstrip_by p (String d r) with
       | EmptyString => if p c then EmptyString else String c EmptyString
       | String d' r' => String c (String d' r')
       end).
    now rewrite IH.
Qed.

(** Stripping on the right keeps a first character that is not stripped. *)
Lemma lstrip_rstrip (p : ascii -> bool) (s : string) :
  lstrip_by p s = s -> lstrip_by p (rstrip_by p s) = rstrip_by p s.
Proof.
  destruct s as [|c s]; [reflexivity|]. cbn [lstrip_by].
  destruct (p c) eqn:Ec.
  - intros E. exfalso. apply (f_equal String.length) in E.
    assert (Hle : forall t, (String.length (lstrip_by p t) <= String.length t)%nat).
    { induction t as [|d t IH]; cbn; [lia|]. destruct (p d); cbn; lia. }
    specialize (Hle s). cbn in E. lia.
  - intros _. cbn [rstrip_by].
    destruct (rstrip_by p s); rewrite ?Ec; cbn; now rewrite Ec.
Qed.

Lemma strip_by_idem (p : ascii -> bool) (s : string) :
  strip_by p (strip_by p s) = strip_by p s.
Proof.
  unfold strip_by.
  rewrite (lstrip_rstrip p (lstrip_by p s)) by apply lstrip_idem.
  apply rstrip_idem.
Qed.

Lemma strip_idem (s : string) : strip (strip s) = strip s.
Proof. apply strip_by_idem. Qed.

Lemma remove_char_lower (c : ascii) (s : string) :
  (forall d : ascii, Ascii.eqb (lower_char d) c = Ascii.eqb d c) ->
  remove_char c (lower s) = lower (remove_char c s).
Proof.
  intros Hc. induction s as [|d s IH]; cbn; [reflexivity|].
  rewrite Hc, IH. now destruct (Ascii.eqb d c).
Qed.

End Strings.

(** * Further properties *)

(** ** Masks *)

Lemma select_sublist {A : Type} (mask : list bool) (l : list A) :
  select mask l `sublist_of` l.
Proof.
  revert l. induction mask as [|b mask IH]; intros [|x l]; cbn;
    try apply sublist_nil_l.
  destruct b; [apply sublist_skip|apply sublist_cons]; apply IH.
Qed.

Lemma filter_sublist {A : Type} (p : A -> bool) (l : list A) :
  List.filter p l `sublist_of` l.
Proof.
  induction l as [|x l IH]; cbn; [constructor|].
  destruct (p x); [now apply sublist_skip|now apply sublist_cons].
Qed.

Lemma map_sublist {A B : Type} (f : A -> B) (l1 l2 : list A) :
  l1 `sublist_of` l2 -> map f l1 `sublist_of` map f l2.
Proof. induction 1; cbn; now constructor. Qed.

Lemma select_all {A : Type} (mask : list bool) (l : list A) :
  forallb (fun b : bool => b) mask = true ->
  (length l <= length mask)%nat ->
  select mask l = l.
Proof.
  revert l. induction mask as [|b mask IH]; intros [|x l] Hall Hlen; cbn in *;
    try reflexivity; try lia.
  apply andb_true_iff in Hall as [-> Hall]. f_equal. apply IH; [exact Hall|lia].
Qed.

(** The text cells of a column under a string method. *)
Definition apply_text `{Pandas} (f : string -> string) (cells : list cell)
  : list cell :=
  map (fun x => if notna x then VText (f (py_str x)) else x) cells.

Section TextColumns.
Context `{Pandas}.

Import Cleaner.

(** Writing the changed strings back through the mask is a map over the
    cells. *)
Lemma assign_where_apply_text (f : string -> string) (cells : list cell) :
  assign_where (map notna cells)
    (map VText (map f (map py_str (select (map notna cells) cells)))) cells =
  apply_text f cells.
Proof.
  induction cells as [|x cells IH]; [reflexivity|].
  cbn [map select assign_where apply_text].
  destruct (notna x) eqn:E; cbn [map assign_where]; fold (apply_text f cells);
    now rewrite IH.
Qed.

Lemma apply_text_notna (f : string -> string) (cells : list cell) :
  map notna (apply_text f cells) = map notna cells.
Proof.
  unfold apply_text. rewrite map_map. apply map_ext.
  intros x. now destruct x.
Qed.

Lemma apply_text_strings (f : string -> string) (cells : list cell) :
  map py_str (select (map notna cells) (apply_text f cells)) =
  map f (map py_str (select (map notna cells) cells)).
Proof.
  induction cells as [|x cells IH]; [reflexivity|].
  cbn [map select apply_text]. fold (apply_text f cells).
  destruct (notna x) eqn:E; cbn [map]; now rewrite IH.
Qed.

(** The number of strings a method changes. *)
Definition changed_by (f : string -> string) (strings : list string) : nat :=
  count (fun p => negb (String.eqb (fst p) (snd p)))
    (combine strings (map f strings)).

Lemma changed_by_fixed (f : string -> string) (strings : list string) :
  Forall (fun s => f s = s) strings -> changed_by f strings = 0%nat.
Proof.
  unfold changed_by, count. induction 1 as [|s l Hs _ IH]; [reflexivity|].
  cbn. rewrite Hs, String.eqb_refl. exact IH.
Qed.

Lemma changed_by_zero (f : string -> string) (strings : list string) :
  changed_by f strings = 0%nat -> map f strings = strings.
Proof.
  unfold changed_by, count. induction strings as [|s l IH]; [reflexivity|].
  cbn. destruct (String.eqb_spec s (f s)) as [E|E]; cbn; [|discriminate].
  intros Hl. now rewrite <- E, IH.
Qed.

Lemma string_changes_eq (f : string -> string) (c : column) :
  string_changes f c =
  (map notna (col_cells c),
   map f (map py_str (select (map notna (col_cells c)) (col_cells c))),
   changed_by f (map py_str (select (map notna (col_cells c)) (col_cells c)))).
Proof. reflexivity. Qed.

(** A method that is its own fixpoint changes nothing the second time. *)
Lemma changed_by_idempotent (f : string -> string) (strings : list string) :
  (forall s : string, f (f s) = f s) ->
  changed_by f (map f strings) = 0%nat.
Proof.
  intros Hf. apply changed_by_fixed, List.Forall_forall.
  intros s Hin. apply in_map_iff in Hin as (t & <- & _). apply Hf.
Qed.

Lemma apply_text_idempotent (f : string -> string) (cells : list cell) :
  (forall s : string, f (f s) = f s) ->
  apply_text f (apply_text f cells) = apply_text f cells.
Proof.
  intros Hf. unfold apply_text. rewrite map_map. apply map_ext.
  intros x. destruct x; cbn; try reflexivity; now rewrite Hf.
Qed.

End TextColumns.

(** ** More on the cleaner *)

Section CleanerSteps.
Context `{Pandas}.

Import Cleaner.

(** [is_date_column] answers true exactly when strictly more than 70% of
    the sampled non-missing values match a date pattern; a column with no
    value is no date column. *)
Theorem date_candidate_needs_more_than_70_percent (series : column) :
  exists b : bool,
    is_date_column series = Ok b /\
    (b = true <->
     (70 * length (sample_of series) <
      100 * count looks_like_date (map py_str (sample_of series)))%nat) /\
    (forallb isna (col_cells series) = true -> b = false).
Proof.
  eexists. split; [apply is_date_column_exact|]. split.
  - rewrite Nat.ltb_lt. lia.
  - intros Hall. apply Nat.ltb_ge.
    assert (E : sample_of series = []).
    { unfold sample_of.
      assert (F : List.filter notna (col_cells series) = []).
      { apply filter_none. intros x Hin. rewrite forallb_forall in Hall.
        unfold notna. now rewrite (Hall x Hin). }
      now rewrite F. }
    rewrite E. cbn. lia.
Qed.

(** On a frame with distinct column names, where [df[col]] is one
    column, [process_column] raises [KeyError] on a name the frame does
    not have; on a name it has, it returns, keeps the header and the index,
    leaves every other column as it was, and logs entries about that
    column only. *)
Theorem process_column_touches_one_column (df : frame) (col : string) :
  List.NoDup (column_names df) ->
  (~ In col (column_names df) -> process_column df col = Raise KeyError) /\
  (In col (column_names df) ->
   exists (df' : frame) (entries : log),
     process_column df col = Ok (df', entries) /\
     column_names df' = column_names df /\
     index df' = index df /\
     (forall other : string,
        other <> col -> get_col df' other = get_col df other) /\
     Forall (fun e => entry_column e = Some col) entries).
Proof.
  intros _. split.
  - intros Hnot. unfold process_column.
    destruct (get_col df col) as [c|e] eqn:E.
    + exfalso. apply Hnot, get_col_ok_iff. eauto.
    + unfold get_col in E. destruct (lookup_col (columns df) col); [discriminate|].
      now injection E as <-.
  - intros Hin. destruct (proj1 (get_col_ok_iff df col) Hin) as [c Hget].
    destruct (process_column_local col c) as (c' & entries & Hnames & Hstep).
    exists (set_col df col c'), entries. split; [now apply Hstep|].
    split; [now apply set_col_names|]. split; [reflexivity|].
    split; [|exact Hnames].
    intros other Hne. apply get_set_col_ne. congruence.
Qed.

(** When [to_datetime] returns and no value of the column parsed,
    [convert_to_date] leaves an all-missing datetime column and logs
    nothing. *)
Theorem convert_to_date_nothing_parsed (df : frame) (col : string)
  (c : column) (parsed : list (option timestamp)) :
  get_col df col = Ok c ->
  to_datetime (col_cells c) = Ok parsed ->
  Forall (fun o => o = None) parsed ->
  convert_to_date df col =
  Ok (set_col df col
        (Column Datetime64 (repeat Null (length (col_cells c)))), []).
Proof.
  intros Hget Hparse Hnone. unfold convert_to_date. rewrite Hget.
  cbn [mbind result_bind]. rewrite Hparse. cbn [mbind result_bind try_except].
  assert (E : map cell_of_parsed parsed = repeat Null (length (col_cells c))).
  { rewrite <- (to_datetime_length _ _ Hparse). clear Hparse.
    induction Hnone as [|o l -> _ IH]; cbn; [reflexivity|now rewrite IH]. }
  rewrite E.
  assert (Z : forall n : nat, count notna (repeat Null n) = 0%nat).
  { unfold count. induction n as [|n IH]; [reflexivity|exact IH]. }
  rewrite Z. reflexivity.
Qed.

(** [clean_numeric_column] leaves no infinity in a float column, and a
    second call on its result changes and logs nothing. *)
Theorem clean_numeric_column_removes_infinities (df df1 : frame)
  (col : string) (entries : log) :
  clean_numeric_column df col = Ok (df1, entries) ->
  (forall c1 : column,
     get_col df1 col = Ok c1 -> is_float_dtype (col_dtype c1) = true ->
     Forall (fun x => isinf x = false) (col_cells c1)) /\
  clean_numeric_column df1 col = Ok (df1, []).
Proof.
  unfold clean_numeric_column at 1.
  destruct (get_col df col) as [c|e] eqn:Hget; cbn [mbind result_bind];
    [|discriminate].
  assert (Hclean : forall cells : list cell,
             count isinf (map (fun x => if isinf x then Null else x) cells) = 0%nat).
  { unfold count. induction cells as [|x cells IH]; [reflexivity|].
    cbn. destruct (isinf x) eqn:E; cbn; [exact IH|]. now rewrite E. }
  assert (Hnone : forall cells : list cell,
             count isinf cells = 0%nat -> Forall (fun x => isinf x = false) cells).
  { unfold count. induction cells as [|x cells IH]; [constructor|].
    cbn. destruct (isinf x) eqn:E; cbn; [discriminate|].
    intros Hc. constructor; [exact E|now apply IH]. }
  destruct (is_float_dtype (col_dtype c)) eqn:Efloat;
    [destruct (Z.of_nat (count isinf (col_cells c)) >? 0)%Z eqn:Einf|].
  - intros [= <- <-]. split.
    + intros c1. rewrite get_set_col. intros [= <-] _. cbn [col_cells].
      apply Hnone, Hclean.
    + unfold clean_numeric_column. rewrite get_set_col.
      cbn [mbind result_bind col_dtype col_cells]. rewrite Efloat, Hclean.
      reflexivity.
  - intros [= <- <-]. split.
    + intros c1. rewrite Hget. intros [= <-] _. apply Hnone. lia.
    + unfold clean_numeric_column. rewrite Hget.
      cbn [mbind result_bind]. now rewrite Efloat, Einf.
  - intros [= <- <-]. split.
    + intros c1. rewrite Hget. intros [= <-]. congruence.
    + unfold clean_numeric_column. rewrite Hget.
      cbn [mbind result_bind]. now rewrite Efloat.
Qed.

(** [normalize_text_column] is idempotent: on its own result it changes
    and logs nothing. *)
Theorem normalize_text_column_idempotent (df df1 : frame) (col : string)
  (entries : log) :
  normalize_text_column df col = Ok (df1, entries) ->
  normalize_text_column df1 col = Ok (df1, []).
Proof.
  unfold normalize_text_column at 1.
  destruct (get_col df col) as [c|e] eqn:Hget; cbn [mbind result_bind];
    [|discriminate].
  rewrite string_changes_eq.
  destruct (count (fun b : bool => b) (map notna (col_cells c)) =? 0)%nat
    eqn:Emask.
  { intros [= <- <-]. unfold normalize_text_column. rewrite Hget.
    cbn [mbind result_bind]. rewrite string_changes_eq. now rewrite Emask. }
  destruct (0 <? changed_by PyStr.lower
                   (map py_str (select (map notna (col_cells c)) (col_cells c))))%nat
    eqn:Echanges.
  - intros [= <- <-]. unfold normalize_text_column. rewrite get_set_col.
    cbn [mbind result_bind]. rewrite string_changes_eq. cbn [col_cells col_dtype].
    rewrite assign_where_apply_text, apply_text_notna, Emask.
    rewrite apply_text_strings.
    rewrite (changed_by_idempotent PyStr.lower _ lower_idem). reflexivity.
  - intros [= <- <-]. unfold normalize_text_column. rewrite Hget.
    cbn [mbind result_bind]. rewrite string_changes_eq.
    now rewrite Emask, Echanges.
Qed.

End CleanerSteps.

(** A date-like column none of whose values is a calendar day. *)
Definition no_days : frame :=
  Frame [0; 1]%Z
    [("when", Column ObjectDtype [VText "2024-13-40"; VText "2024-02-30"])].

Lemma process_column_touches_one_column_witness :
  exists (df' : frame) (entries : list log_entry),
    @Cleaner.process_column Reference.pandas soft_frame "when" =
    Ok (df', entries) /\
    get_col df' "id" = get_col soft_frame "id".
Proof.
  destruct (proj2 (@process_column_touches_one_column Reference.pandas
                     soft_frame "when" ltac:(repeat constructor; cbn; intuition discriminate)))
    as (df' & entries & Hrun & _ & _ & Hother & _).
  - cbn. tauto.
  - exists df', entries. split; [exact Hrun|]. apply Hother. discriminate.
Defined.

Lemma convert_to_date_nothing_parsed_witness :
  @Cleaner.convert_to_date Reference.pandas no_days "when" =
  Ok (Frame [0; 1]%Z [("when", Column Datetime64 [Null; Null])], []).
Proof.
  refine (@convert_to_date_nothing_parsed Reference.pandas no_days "when"
            (Column ObjectDtype [VText "2024-13-40"; VText "2024-02-30"])
            [None; None] _ _ _).
  - reflexivity.
  - vm_compute. reflexivity.
  - repeat constructor.
Defined.

Lemma clean_numeric_column_removes_infinities_witness :
  Cleaner.clean_numeric_column
    (Frame [0; 1]%Z [("x", Column Float64 [Null; VFloat 1.5])]) "x" =
  Ok (Frame [0; 1]%Z [("x", Column Float64 [Null; VFloat 1.5])], []).
Proof.
  refine (proj2 (clean_numeric_column_removes_infinities
            (Frame [0; 1]%Z [("x", Column Float64 [VFloat infinity; VFloat 1.5])])
            _ "x" [RemoveInfinity "x" 1] _)).
  vm_compute. reflexivity.
Defined.

Lemma normalize_text_column_idempotent_witness :
  @Cleaner.normalize_text_column Reference.pandas
    (Frame [0; 1]%Z [("x", Column ObjectDtype [VText "ab"; Null])]) "x" =
  Ok (Frame [0; 1]%Z [("x", Column ObjectDtype [VText "ab"; Null])], []).
Proof.
  refine (@normalize_text_column_idempotent Reference.pandas
            (Frame [0; 1]%Z [("x", Column ObjectDtype [VText "Ab"; Null])])
            _ "x" [NormalizeText "x" 1] _).
  vm_compute. reflexivity.
Defined.

(** ** The whole cleaning run *)

Section CleaningRun.
Context `{Pandas}.

Import Cleaner.

Lemma string_columns_in_header (df : frame) (col : string) :
  In col (string_columns df) -> In col (column_names df).
Proof.
  unfold string_columns, column_names. intros Hin.
  apply in_map_iff in Hin as (nc & <- & Hnc).
  apply in_map. now apply filter_In in Hnc.
Qed.

(** The trimming loop returns, and keeps the header and the index. *)
Lemma trim_columns_returns (cols : list string) (df : frame) (k : nat) :
  (forall col : string, In col cols -> In col (column_names df)) ->
  exists (out : frame) (n : nat),
    trim_columns df cols k = Ok (out, n) /\
    column_names out = column_names df /\
    index out = index df.
Proof.
  revert df k. induction cols as [|col rest IH]; intros df k Hcols.
  - exists df, k. repeat split; reflexivity.
  - assert (Hin : In col (column_names df)) by (apply Hcols; now left).
    destruct (proj1 (get_col_ok_iff df col) Hin) as [c Hget].
    cbn [trim_columns]. rewrite Hget. cbn [mbind result_bind].
    rewrite string_changes_eq.
    match goal with |- context [trim_columns ?d rest ?m] =>
      destruct (IH d m) as (out & n & Hrun & Hnames & Hindex) end.
    { intros other Hother. rewrite set_col_names by exact Hin.
      apply Hcols. now right. }
    exists out, n. split; [exact Hrun|]. split.
    + rewrite Hnames. now apply set_col_names.
    + exact Hindex.
Qed.

Lemma structural_cleanup_returns (df : frame) :
  exists (df3 : frame) (log3 : log),
    structural_cleanup df = Ok (df3, log3) /\
    column_names df3 = column_names (dropna_columns (dropna_rows df)) /\
    index df3 = index (dropna_rows df).
Proof.
  unfold structural_cleanup, remove_empty_rows, remove_empty_columns,
    trim_whitespace.
  destruct (trim_columns_returns
              (string_columns (dropna_columns (dropna_rows df)))
              (dropna_columns (dropna_rows df)) 0)
    as (out & n & Hrun & Hnames & Hindex).
  { apply string_columns_in_header. }
  rewrite Hrun. cbn [mbind result_bind]. eexists _, _.
  split; [reflexivity|]. split; [exact Hnames|exact Hindex].
Qed.

Lemma dropna_names_sublist (df : frame) :
  column_names (dropna_columns (dropna_rows df)) `sublist_of` column_names df.
Proof.
  unfold column_names, dropna_columns, dropna_rows. cbn [columns].
  etransitivity; [apply map_sublist, filter_sublist|].
  rewrite map_map. cbn [fst]. reflexivity.
Qed.

Lemma clean_dataframe_total (df : frame) :
  exists (out : frame) (entries : log),
    clean_dataframe df = Ok (out, entries) /\
    index out = select (map (existsb notna) (rows df)) (index df) /\
    column_names out = column_names (dropna_columns (dropna_rows df)) /\
    index out `sublist_of` index df /\
    column_names out `sublist_of` column_names df /\
    (len out <= len df)%nat.
Proof.
  destruct (structural_cleanup_returns df) as (df3 & log3 & Hclean & Hnames & Hindex).
  destruct (process_columns_spec (column_names df3) df3 log3)
    as (out & entries & Hrun & Hout_names & Hout_index & _).
  { auto. }
  exists out, (log3 ++ entries). unfold clean_dataframe.
  rewrite Hclean. cbn [mbind result_bind].
  assert (Hidx : index out = select (map (existsb notna) (rows df)) (index df)).
  { rewrite Hout_index, Hindex. reflexivity. }
  split; [exact Hrun|]. split; [exact Hidx|].
  split; [now rewrite Hout_names, Hnames|].
  split; [rewrite Hidx; apply select_sublist|].
  split.
  - rewrite Hout_names, Hnames. apply dropna_names_sublist.
  - unfold len. rewrite Hidx. apply sublist_length, select_sublist.
Qed.

(** [clean_dataframe] returns on every frame with distinct column names
    (where [df[col]] is one column): no [KeyError] and no division by
    zero can escape it.  The index it returns is the input index without
    the labels of the fully missing rows, the header is the input header
    without the columns that are fully missing once those rows are gone;
    rows and columns are neither added nor reordered. *)
Theorem clean_dataframe_returns (df : frame) :
  List.NoDup (column_names df) ->
  exists (out : frame) (entries : log),
    clean_dataframe df = Ok (out, entries) /\
    index out = select (map (existsb notna) (rows df)) (index df) /\
    column_names out = column_names (dropna_columns (dropna_rows df)) /\
    index out `sublist_of` index df /\
    column_names out `sublist_of` column_names df /\
    (len out <= len df)%nat.
Proof. intros _. apply clean_dataframe_total. Qed.

End CleaningRun.

Lemma clean_dataframe_returns_witness :
  exists (out : frame) (entries : list log_entry),
    @Cleaner.clean_dataframe Reference.pandas soft_frame = Ok (out, entries) /\
    column_names out = ["id"; "when"] /\
    index out = [0; 1]%Z.
Proof.
  destruct (@clean_dataframe_returns Reference.pandas soft_frame)
    as (out & entries & Hrun & Hindex & Hnames & _).
  - repeat constructor; cbn; intuition discriminate.
  - exists out, entries. split; [exact Hrun|]. split; [exact Hnames|exact Hindex].
Defined.

(** ** Trimming twice *)

(** Every value of the column is missing or a text without leading or
    trailing whitespace. *)
Definition stripped `{Pandas} (c : column) : Prop :=
  apply_text PyStr.strip (col_cells c) = col_cells c.

Section Trimming.
Context `{Pandas}.

Import Cleaner.

Lemma stripped_strings (c : column) :
  stripped c ->
  map PyStr.strip (map py_str (select (map notna (col_cells c)) (col_cells c))) =
  map py_str (select (map notna (col_cells c)) (col_cells c)).
Proof.
  unfold stripped. intros Hc. rewrite <- apply_text_strings. now rewrite Hc.
Qed.

(** One step of the trimming loop, as a column. *)
Definition trimmed (c : column) : column :=
  Column (col_dtype c) (apply_text PyStr.strip (col_cells c)).

Lemma trimmed_stripped (c : column) : stripped (trimmed c).
Proof. apply apply_text_idempotent, strip_idem. Qed.

Lemma trimmed_of_stripped (c : column) : stripped c -> trimmed c = c.
Proof.
  unfold stripped, trimmed. intros ->. now destruct c.
Qed.

Lemma trim_columns_step (df : frame) (col : string) (rest : list string)
  (k : nat) (c : column) :
  get_col df col = Ok c ->
  trim_columns df (col :: rest) k =
  trim_columns (set_col df col (trimmed c)) rest
    (k + changed_by PyStr.strip
           (map py_str (select (map notna (col_cells c)) (col_cells c)))).
Proof.
  intros Hget. cbn [trim_columns]. rewrite Hget. cbn [mbind result_bind].
  rewrite string_changes_eq. unfold trimmed.
  now rewrite assign_where_apply_text.
Qed.

(** On columns that are stripped already the loop changes nothing. *)
Lemma trim_columns_fixed (cols : list string) (df : frame) (k : nat) :
  (forall col : string,
     In col cols -> exists c : column, get_col df col = Ok c /\ stripped c) ->
  trim_columns df cols k = Ok (df, k).
Proof.
  induction cols as [|col rest IH] in k |- *; intros Hcols; [reflexivity|].
  destruct (Hcols col (or_introl eq_refl)) as (c & Hget & Hc).
  rewrite (trim_columns_step df col rest k c Hget).
  rewrite (trimmed_of_stripped c Hc), (set_col_same _ _ _ Hget).
  rewrite changed_by_fixed.
  - rewrite Nat.add_0_r. apply IH. intros other Hother. apply Hcols. now right.
  - apply List.Forall_forall. intros s Hs.
    pose proof (stripped_strings c Hc) as E.
    apply in_map_iff in Hs as (x & <- & Hx).
    assert (Hfix : forall l : list string,
               map PyStr.strip l = l -> forall t, In t l -> PyStr.strip t = t).
    { induction l as [|u l IHl]; cbn; [contradiction|].
      intros [= Hu Hl] t [<-|Ht]; [exact Hu|now apply IHl]. }
    apply (Hfix _ E). now apply in_map.
Qed.

(** The loop leaves a stripped column as it is, whatever it trims. *)
Lemma trim_columns_keeps_stripped (cols : list string) (df out : frame)
  (k n : nat) (name : string) (c : column) :
  trim_columns df cols k = Ok (out, n) ->
  get_col df name = Ok c -> stripped c ->
  get_col out name = Ok c.
Proof.
  revert df k. induction cols as [|col rest IH]; intros df k Hrun Hget Hc.
  - cbn in Hrun. now injection Hrun as <- _.
  - destruct (get_col df col) as [c0|e] eqn:Hcol.
    + rewrite (trim_columns_step df col rest k c0 Hcol) in Hrun.
      apply (IH _ _ Hrun); [|exact Hc].
      destruct (String.eqb_spec col name) as [->|Hne].
      * rewrite get_set_col. rewrite Hget in Hcol. injection Hcol as <-.
        now rewrite (trimmed_of_stripped c Hc).
      * now rewrite get_set_col_ne.
    + cbn [trim_columns] in Hrun. rewrite Hcol in Hrun. discriminate.
Qed.

(** After the loop every column it visited is stripped. *)
Lemma trim_columns_strips (cols : list string) (df out : frame) (k n : nat) :
  trim_columns df cols k = Ok (out, n) ->
  forall col : string,
    In col cols -> exists c : column, get_col out col = Ok c /\ stripped c.
Proof.
  revert df k. induction cols as [|col rest IH]; intros df k Hrun name Hin;
    [contradiction|].
  destruct (get_col df col) as [c0|e] eqn:Hcol.
  - rewrite (trim_columns_step df col rest k c0 Hcol) in Hrun.
    destruct (String.eqb_spec col name) as [->|Hne].
    + exists (trimmed c0). split; [|apply trimmed_stripped].
      apply (trim_columns_keeps_stripped _ _ _ _ _ _ _ Hrun);
        [apply get_set_col|apply trimmed_stripped].
    + apply (IH _ _ Hrun). destruct Hin as [E|Hin]; [contradiction|exact Hin].
  - cbn [trim_columns] in Hrun. rewrite Hcol in Hrun. discriminate.
Qed.

(** The names and dtypes of the columns, in order. *)
Definition schema (df : frame) : list (string * dtype) :=
  map (fun nc => (fst nc, col_dtype (snd nc))) (columns df).

Lemma string_columns_schema (df : frame) :
  string_columns df =
  map fst (List.filter (fun nd => is_object_dtype (snd nd)) (schema df)).
Proof.
  unfold string_columns, schema.
  induction (columns df) as [|[name c] rest IH]; [reflexivity|].
  cbn. destruct (is_object_dtype (col_dtype c)); cbn; now rewrite IH.
Qed.

Lemma set_col_schema (df : frame) (col : string) (c c' : column) :
  get_col df col = Ok c -> col_dtype c' = col_dtype c ->
  schema (set_col df col c') = schema df.
Proof.
  unfold get_col, set_col, schema. cbn [columns].
  induction (columns df) as [|[name c0] rest IH]; cbn; [discriminate|].
  destruct (String.eqb name col) eqn:E; cbn.
  - intros [= ->] ->. reflexivity.
  - intros Hl Hd. now rewrite IH.
Qed.

Lemma trim_columns_schema (cols : list string) (df out : frame) (k n : nat) :
  trim_columns df cols k = Ok (out, n) -> schema out = schema df.
Proof.
  revert df k. induction cols as [|col rest IH]; intros df k Hrun.
  - cbn in Hrun. now injection Hrun as <- _.
  - destruct (get_col df col) as [c0|e] eqn:Hcol.
    + rewrite (trim_columns_step df col rest k c0 Hcol) in Hrun.
      rewrite (IH _ _ Hrun). now apply (set_col_schema df col c0).
    + cbn [trim_columns] in Hrun. rewrite Hcol in Hrun. discriminate.
Qed.

(** Stage 3 is idempotent: on the frame it returns it changes no cell and
    logs nothing. *)
Theorem trim_whitespace_idempotent (df df1 : frame) (entries : log) :
  trim_whitespace df = Ok (df1, entries) ->
  trim_whitespace df1 = Ok (df1, []).
Proof.
  unfold trim_whitespace at 1.
  destruct (trim_columns df (string_columns df) 0) as [[out n]|e] eqn:Hrun;
    cbn [mbind result_bind]; [|discriminate].
  intros [= <- _]. unfold trim_whitespace.
  assert (Hcols : string_columns out = string_columns df).
  { rewrite !string_columns_schema. now rewrite (trim_columns_schema _ _ _ _ _ Hrun). }
  rewrite (trim_columns_fixed (string_columns out) out 0); [reflexivity|].
  rewrite Hcols. apply (trim_columns_strips _ _ _ _ _ Hrun).
Qed.

End Trimming.

Lemma trim_whitespace_idempotent_witness :
  @Cleaner.trim_whitespace Reference.pandas
    (Frame [0; 1]%Z [("x", Column ObjectDtype [VText "a b"; VText "7"])]) =
  Ok (Frame [0; 1]%Z [("x", Column ObjectDtype [VText "a b"; VText "7"])], []).
Proof.
  refine (@trim_whitespace_idempotent Reference.pandas
            (Frame [0; 1]%Z [("x", Column ObjectDtype [VText " a b "; VInt 7])])
            _ [TrimWhitespace 1] _).
  vm_compute. reflexivity.
Defined.

(** ** Rows *)

(** Every column has one cell per index label. *)
Definition well_formed (df : frame) : Prop :=
  Forall (fun nc => length (col_cells (snd nc)) = len df) (columns df).

(** The rows of [n]-long columns, read off column heads. *)
Fixpoint rows_rec (n : nat) (cols : list (list cell)) : list (list cell) :=
  match n with
  | O => []
  | S n' => map (hd Null) cols :: rows_rec n' (map (@tl cell) cols)
  end.

Section Rows.

Lemma rows_rec_nth (n : nat) (cols : list (list cell)) :
  map (fun i => map (fun c => nth i c Null) cols) (seq 0 n) = rows_rec n cols.
Proof.
  revert cols. induction n as [|n IH]; intros cols; [reflexivity|].
  cbn [seq map rows_rec]. f_equal.
  - apply map_ext. now intros [|x c].
  - rewrite <- seq_shift, map_map, <- IH. apply map_ext. intros i.
    rewrite map_map. apply map_ext. intros [|x c]; [now destruct i|reflexivity].
Qed.

Lemma rows_rows_rec (df : frame) :
  rows df = rows_rec (len df) (map (fun nc => col_cells (snd nc)) (columns df)).
Proof.
  unfold rows. rewrite <- rows_rec_nth. apply map_ext. intros i.
  now rewrite map_map.
Qed.

Lemma select_length {A : Type} (mask : list bool) (l : list A) :
  length l = length mask ->
  length (select mask l) = count (fun b : bool => b) mask.
Proof.
  unfold count. revert l. induction mask as [|b mask IH]; intros [|x l] Hlen;
    cbn in *; try reflexivity; try discriminate.
  destruct b; cbn; rewrite IH by lia; reflexivity.
Qed.

Lemma select_map_filter {A : Type} (p : A -> bool) (l : list A) :
  select (map p l) l = List.filter p l.
Proof.
  induction l as [|x l IH]; [reflexivity|]. cbn. rewrite IH. reflexivity.
Qed.

Lemma rows_rec_select (mask : list bool) (cols : list (list cell)) :
  Forall (fun c => length c = length mask) cols ->
  select mask (rows_rec (length mask) cols) =
  rows_rec (count (fun b : bool => b) mask) (map (select mask) cols).
Proof.
  revert cols. induction mask as [|b mask IH]; intros cols Hlen; [reflexivity|].
  assert (Htl : Forall (fun c => length c = length mask) (map (@tl cell) cols)).
  { apply List.Forall_forall. intros c Hin.
    apply in_map_iff in Hin as (c0 & <- & Hc0).
    rewrite List.Forall_forall in Hlen. specialize (Hlen c0 Hc0).
    destruct c0; cbn in *; [discriminate|lia]. }
  cbn [length rows_rec select]. rewrite (IH _ Htl).
  assert (Hsel : forall b' : bool,
             map (select mask) (map (@tl cell) cols) =
             map (@tl cell) (map (select (true :: mask)) cols) /\
             map (select mask) (map (@tl cell) cols) =
             map (select (false :: mask)) cols /\
             map (hd Null) (map (select (true :: mask)) cols) =
             map (hd Null) cols).
  { intros _. rewrite !map_map. repeat split; apply map_ext_in;
      intros c Hc; rewrite List.Forall_forall in Hlen; specialize (Hlen c Hc);
      destruct c; cbn in *; try discriminate; reflexivity. }
  destruct (Hsel true) as (Ht & Hf & Hh).
  destruct b.
  - change (count (fun b : bool => b) (true :: mask))
      with (S (count (fun b : bool => b) mask)).
    rewrite <- Hh, Ht. reflexivity.
  - change (count (fun b : bool => b) (false :: mask))
      with (count (fun b : bool => b) mask).
    now rewrite Hf.
Qed.

Lemma count_complement {A : Type} (p : A -> bool) (l : list A) :
  length l = (count p l + count (fun x => negb (p x)) l)%nat.
Proof.
  unfold count. induction l as [|x l IH]; [reflexivity|].
  cbn. destruct (p x); cbn; lia.
Qed.

Lemma count_map {A B : Type} (f : A -> B) (p : B -> bool) (l : list A) :
  count p (map f l) = count (fun x => p (f x)) l.
Proof.
  unfold count. induction l as [|x l IH]; [reflexivity|].
  cbn. destruct (p (f x)); cbn; now rewrite IH.
Qed.

Lemma remove_empty_rows_rows (df : frame) :
  well_formed df ->
  well_formed (fst (Cleaner.remove_empty_rows df)) /\
  rows (fst (Cleaner.remove_empty_rows df)) =
  List.filter (existsb notna) (rows df) /\
  Forall (fun r => existsb notna r = true)
    (rows (fst (Cleaner.remove_empty_rows df))) /\
  snd (Cleaner.remove_empty_rows df) =
  (if (0 <? count (fun r => negb (existsb notna r)) (rows df))%nat
   then [RemoveEmptyRows
           (Z.of_nat (count (fun r => negb (existsb notna r)) (rows df)))]
   else []).
Proof.
  intros Hwf. unfold Cleaner.remove_empty_rows. cbn [fst snd].
  set (mask := map (existsb notna) (rows df)).
  assert (Hmask : length mask = len df).
  { unfold mask. now rewrite length_map, rows_length. }
  assert (Hlen : len (dropna_rows df) = count (fun b : bool => b) mask).
  { unfold len, dropna_rows. cbn [index]. apply select_length.
    now rewrite Hmask. }
  assert (Hrows : rows (dropna_rows df) = List.filter (existsb notna) (rows df)).
  { rewrite rows_rows_rec, Hlen. unfold dropna_rows. cbn [columns].
    rewrite map_map. cbn [snd col_cells].
    rewrite <- (map_map (fun nc => col_cells (snd nc)) (select mask)).
    rewrite <- rows_rec_select.
    - rewrite Hmask, <- rows_rows_rec. apply select_map_filter.
    - apply List.Forall_forall. intros c Hin.
      apply in_map_iff in Hin as (nc & <- & Hnc).
      unfold well_formed in Hwf. rewrite List.Forall_forall in Hwf.
      rewrite Hmask. now apply Hwf. }
  split; [|split; [exact Hrows|split]].
  - unfold well_formed. rewrite Hlen. unfold dropna_rows. cbn [columns].
    apply List.Forall_forall. intros nc Hin.
    apply in_map_iff in Hin as (nc0 & <- & Hnc0). cbn [snd col_cells].
    apply select_length. rewrite Hmask.
    unfold well_formed in Hwf. rewrite List.Forall_forall in Hwf.
    now apply Hwf.
  - rewrite Hrows. apply List.Forall_forall. intros r Hr.
    now apply filter_In in Hr.
  - rewrite Hlen. unfold mask. rewrite count_map.
    pose proof (count_complement (existsb notna) (rows df)) as Hsplit.
    rewrite rows_length in Hsplit.
    set (kept := count (fun r => existsb notna r) (rows df)) in *.
    set (gone := count (fun r => negb (existsb notna r)) (rows df)) in *.
    replace (Z.of_nat (len df) - Z.of_nat kept)%Z with (Z.of_nat gone) by lia.
    destruct (Nat.ltb_spec 0 gone) as [Hpos|Hzero].
    + destruct (Z.gtb_spec (Z.of_nat gone) 0); [reflexivity|lia].
    + destruct (Z.gtb_spec (Z.of_nat gone) 0); [lia|reflexivity].
Qed.

(** Stage 1 on a well-formed frame: the rows that are left are the rows
    with a value, in order; none of them is fully missing; the entry, if
    any, counts the fully missing rows. *)
Theorem remove_empty_rows_spec (df : frame) :
  well_formed df ->
  well_formed (fst (Cleaner.remove_empty_rows df)) /\
  rows (fst (Cleaner.remove_empty_rows df)) =
  List.filter (existsb notna) (rows df) /\
  Forall (fun r => existsb notna r = true)
    (rows (fst (Cleaner.remove_empty_rows df))) /\
  snd (Cleaner.remove_empty_rows df) =
  (if (0 <? count (fun r => negb (existsb notna r)) (rows df))%nat
   then [RemoveEmptyRows
           (Z.of_nat (count (fun r => negb (existsb notna r)) (rows df)))]
   else []).
Proof. apply remove_empty_rows_rows. Qed.

End Rows.

Lemma remove_empty_rows_spec_witness :
  rows (fst (Cleaner.remove_empty_rows
               (Frame [0; 1; 2]%Z
                  [("a", Column ObjectDtype [VText "x"; Null; Null]);
                   ("b", Column Float64 [Null; Null; VFloat 1.5])]))) =
  [[VText "x"; Null]; [Null; VFloat 1.5]].
Proof.
  refine (proj1 (proj2 (remove_empty_rows_spec
            (Frame [0; 1; 2]%Z
               [("a", Column ObjectDtype [VText "x"; Null; Null]);
                ("b", Column Float64 [Null; Null; VFloat 1.5])]) _))).
  repeat constructor.
Defined.

(** ** Frames the cleaner leaves alone *)

(** Every value of the column is missing or a lowercase text. *)
Definition lowered `{Pandas} (c : column) : Prop :=
  apply_text PyStr.lower (col_cells c) = col_cells c.

(** A column on which no stage has anything to do: a text column is
    stripped, lowercase and neither a date nor a numeric candidate, a
    float column holds no infinity. *)
Definition settled `{Pandas} (c : column) : Prop :=
  match col_dtype c with
  | ObjectDtype =>
      stripped c /\ lowered c /\
      Cleaner.is_date_column c = Ok false /\
      Cleaner.should_be_numeric c = Ok false
  | Float64 => Forall (fun x => isinf x = false) (col_cells c)
  | _ => True
  end.

(** No fully missing row or column, distinct names, settled columns. *)
Definition already_clean `{Pandas} (df : frame) : Prop :=
  well_formed df /\
  List.NoDup (column_names df) /\
  Forall (fun r => existsb notna r = true) (rows df) /\
  Forall (fun nc => all_na (snd nc) = false) (columns df) /\
  Forall (fun nc => settled (snd nc)) (columns df).

Section AlreadyClean.
Context `{Pandas}.

Import Cleaner.

Lemma lookup_col_In (cols : list (string * column)) (col : string)
  (c : column) :
  lookup_col cols col = Some c -> In (col, c) cols.
Proof.
  induction cols as [|[name c0] rest IH]; cbn; [discriminate|].
  destruct (String.eqb_spec name col) as [->|Hne].
  - intros [= ->]. now left.
  - intros Hl. right. now apply IH.
Qed.

Lemma get_col_In (df : frame) (col : string) (c : column) :
  get_col df col = Ok c -> In (col, c) (columns df).
Proof.
  unfold get_col. destruct (lookup_col (columns df) col) eqn:E; [|discriminate].
  intros [= <-]. now apply lookup_col_In.
Qed.

Lemma settled_no_step (df : frame) (col : string) (c : column) :
  get_col df col = Ok c -> settled c -> process_column df col = Ok (df, []).
Proof.
  intros Hget Hc. unfold process_column. rewrite Hget.
  cbn [mbind result_bind]. unfold settled in Hc.
  destruct (col_dtype c) eqn:Ed; cbn [is_numeric_dtype is_datetime64_any_dtype].
  - destruct Hc as (Hs & Hl & Hdate & Hnum). rewrite Hdate.
    cbn [mbind result_bind]. rewrite Hnum. cbn [mbind result_bind].
    unfold normalize_text_column. rewrite Hget. cbn [mbind result_bind].
    rewrite string_changes_eq.
    rewrite changed_by_fixed.
    + now destruct (_ =? 0)%nat.
    + apply List.Forall_forall. intros s Hs'.
      assert (E : map PyStr.lower
                    (map py_str (select (map notna (col_cells c)) (col_cells c))) =
                  map py_str (select (map notna (col_cells c)) (col_cells c))).
      { rewrite <- apply_text_strings. unfold lowered in Hl. now rewrite Hl. }
      revert s Hs'. generalize dependent
        (map py_str (select (map notna (col_cells c)) (col_cells c))).
      induction l as [|u l IHl]; cbn; [contradiction|].
      intros [= Hu Hl'] t [<-|Ht]; [exact Hu|now apply IHl].
  - unfold clean_numeric_column. rewrite Hget. cbn [mbind result_bind].
    now rewrite Ed.
  - unfold clean_numeric_column. rewrite Hget. cbn [mbind result_bind].
    rewrite Ed. cbn [is_float_dtype].
    assert (Z : count isinf (col_cells c) = 0%nat).
    { unfold count. induction Hc as [|x l Hx _ IH]; [reflexivity|].
      cbn. now rewrite Hx. }
    now rewrite Z.
  - unfold clean_numeric_column. rewrite Hget. cbn [mbind result_bind].
    now rewrite Ed.
  - reflexivity.
Qed.

Lemma process_columns_fixed (cols : list string) (df : frame) (log0 : log) :
  (forall col : string, In col cols -> process_column df col = Ok (df, [])) ->
  process_columns df cols log0 = Ok (df, log0).
Proof.
  induction cols as [|col rest IH] in log0 |- *; intros Hcols; [reflexivity|].
  cbn [process_columns]. rewrite (Hcols col (or_introl eq_refl)).
  cbn [mbind result_bind]. rewrite app_nil_r. apply IH.
  intros other Hother. apply Hcols. now right.
Qed.

Lemma dropna_rows_fixed (df : frame) :
  well_formed df ->
  Forall (fun r => existsb notna r = true) (rows df) ->
  dropna_rows df = df.
Proof.
  intros Hwf Hrows. unfold dropna_rows.
  assert (Hall : forallb (fun b : bool => b) (map (existsb notna) (rows df)) = true).
  { rewrite forallb_forall. intros b Hb.
    apply in_map_iff in Hb as (r & <- & Hr).
    rewrite List.Forall_forall in Hrows. now apply Hrows. }
  assert (Hlen : length (map (existsb notna) (rows df)) = len df).
  { now rewrite length_map, rows_length. }
  rewrite (select_all _ (index df) Hall) by (rewrite Hlen; reflexivity).
  destruct df as [idx cols]. cbn [index columns] in *. f_equal.
  rewrite <- (map_id cols) at 2. apply map_ext_in. intros [name [d cells]] Hin.
  cbn [fst snd col_dtype col_cells]. f_equal. f_equal.
  apply (select_all _ _ Hall). rewrite Hlen.
  unfold well_formed in Hwf. rewrite List.Forall_forall in Hwf.
  specialize (Hwf _ Hin). cbn in Hwf. unfold len. cbn. lia.
Qed.

Lemma dropna_columns_fixed (df : frame) :
  Forall (fun nc => all_na (snd nc) = false) (columns df) ->
  dropna_columns df = df.
Proof.
  intros Hcols. unfold dropna_columns. destruct df as [idx cols].
  cbn [index columns] in *. f_equal.
  apply forallb_filter_id, forallb_forall. intros nc Hin.
  rewrite List.Forall_forall in Hcols. now rewrite (Hcols nc Hin).
Qed.

Lemma already_clean_fixed (df : frame) :
  already_clean df -> clean_dataframe df = Ok (df, []).
Proof.
  intros (Hwf & Hnd & Hrows & Hcols & Hsettled).
  assert (Hsettled' : forall (col : string) (c : column),
             get_col df col = Ok c -> settled c).
  { intros col c Hget. rewrite List.Forall_forall in Hsettled.
    apply (Hsettled (col, c)). now apply get_col_In. }
  unfold clean_dataframe, structural_cleanup, remove_empty_rows,
    remove_empty_columns, trim_whitespace.
  rewrite (dropna_rows_fixed df Hwf Hrows), (dropna_columns_fixed df Hcols).
  rewrite !Z.sub_diag. cbn [Z.gtb Z.compare].
  rewrite (trim_columns_fixed (string_columns df) df 0).
  - cbn [mbind result_bind Nat.ltb Nat.leb app].
    apply process_columns_fixed. intros col Hin.
    destruct (proj1 (get_col_ok_iff df col) Hin) as [c Hget].
    apply (settled_no_step df col c Hget). now apply (Hsettled' col).
  - intros col Hin. unfold string_columns in Hin.
    apply in_map_iff in Hin as ([name c] & <- & Hnc).
    apply filter_In in Hnc as [Hnc Hobj]. cbn [fst snd] in *.
    assert (Hget : get_col df name = Ok c).
    { unfold get_col. clear - Hnd Hnc. unfold column_names in Hnd.
      induction (columns df) as [|[n0 c0] rest IH]; [contradiction|].
      cbn in *. inversion Hnd as [|? ? Hnotin Hnd']; subst.
      destruct Hnc as [[= -> ->]|Hnc].
      - now rewrite String.eqb_refl.
      - destruct (String.eqb_spec n0 name) as [->|Hne].
        + exfalso. apply Hnotin. change name with (fst (name, c)).
          now apply in_map.
        + now apply IH. }
    exists c. split; [exact Hget|].
    specialize (Hsettled' name c Hget). unfold settled in Hsettled'.
    destruct (col_dtype c); try discriminate. tauto.
Qed.

(** [clean_dataframe] returns an already clean frame as it is, with an
    empty log. *)
Theorem clean_dataframe_fixpoint (df : frame) :
  already_clean df -> clean_dataframe df = Ok (df, []).
Proof. apply already_clean_fixed. Qed.

End AlreadyClean.

(** A frame that is clean. *)
Definition tidy_frame : frame :=
  Frame [0; 1]%Z
    [("name", Column ObjectDtype [VText "ada"; VText "grace"]);
     ("score", Column Float64 [VFloat 1.5; Null])].

Lemma clean_dataframe_fixpoint_witness :
  @Cleaner.clean_dataframe Reference.pandas tidy_frame = Ok (tidy_frame, []).
Proof.
  apply (@clean_dataframe_fixpoint Reference.pandas tidy_frame).
  split; [repeat constructor|].
  split; [repeat constructor; cbn; intuition discriminate|].
  split; [repeat constructor|].
  split; [repeat constructor|].
  repeat constructor; vm_compute; reflexivity.
Defined.

Section SecondRun.
Context `{Pandas}.


End SecondRun.



(** ** More on the validator *)

Section ValidatorFacts.

Import Validator.

Definition missing_severity (pct : float) : IssueSeverity :=
  if fgt pct 50 then HIGH else if fgt pct 20 then MEDIUM else LOW.

(** The issue of a column with [n] missing values. *)
Definition missing_issue (df : frame) (nc : string * column) : ValidationIssue :=
  let n := count isna (col_cells (snd nc)) in
  let pct := (float_of_nat n / float_of_nat (len df) * 100)%float in
  {| row_number := None; column_name := Some (fst nc);
     issue_type := MISSING_VALUE; severity := missing_severity pct;
     description :=
       MissingValues (fst nc) n pct
         (firstn 10 (select (map isna (col_cells (snd nc))) (index df))) |}.

Definition has_missing (nc : string * column) : bool :=
  (0 <? count isna (col_cells (snd nc)))%nat.

Lemma check_missing_column_ok (df : frame) (nc : string * column) :
  length (col_cells (snd nc)) = len df ->
  check_missing_column df nc =
  Ok (if has_missing nc then [missing_issue df nc] else []).
Proof.
  intros Hlen. destruct nc as [col c]. unfold check_missing_column, has_missing.
  cbn [fst snd] in *.
  destruct (Nat.ltb_spec 0 (count isna (col_cells c))) as [Hpos|Hzero];
    [|reflexivity].
  pose proof (count_le_length isna (col_cells c)) as Hle.
  rewrite percent_ok by lia. reflexivity.
Qed.

Lemma check_missing_loop_ok (df : frame) (cols : list (string * column))
  (issues : list ValidationIssue) :
  Forall (fun nc => length (col_cells (snd nc)) = len df) cols ->
  check_missing_loop df cols issues =
  Ok (issues ++ map (missing_issue df) (List.filter has_missing cols)).
Proof.
  intros Hall. revert issues. induction Hall as [|nc cols Hnc _ IH]; intros issues.
  - cbn. now rewrite app_nil_r.
  - cbn [check_missing_loop]. rewrite (check_missing_column_ok df nc Hnc).
    cbn [mbind result_bind]. rewrite IH. cbn [List.filter].
    destruct (has_missing nc); cbn [map]; [|now rewrite app_nil_r].
    now rewrite <- app_assoc.
Qed.

Lemma check_missing_values_ok (df : frame) :
  well_formed df ->
  check_missing_values df =
  Ok (map (missing_issue df) (List.filter has_missing (columns df))) /\
  Forall (fun i : ValidationIssue =>
            exists (col : string) (n : nat) (pct : float) (labels : list Z),
              column_name i = Some col /\
              issue_type i = MISSING_VALUE /\
              description i = MissingValues col n pct labels /\
              (0 < n)%nat /\ (length labels <= 10)%nat /\
              (severity i = HIGH <-> fgt pct 50 = true) /\
              (severity i = MEDIUM <-> fgt pct 50 = false /\ fgt pct 20 = true) /\
              (severity i = LOW <-> fgt pct 50 = false /\ fgt pct 20 = false))
    (map (missing_issue df) (List.filter has_missing (columns df))).
Proof.
  intros Hwf. split.
  - unfold check_missing_values. now rewrite (check_missing_loop_ok df _ [] Hwf).
  - apply List.Forall_forall. intros i Hin.
    apply in_map_iff in Hin as (nc & <- & Hnc).
    apply filter_In in Hnc as [_ Hmiss]. unfold has_missing in Hmiss.
    apply Nat.ltb_lt in Hmiss.
    eexists (fst nc), _, _, _. cbn [column_name issue_type description
                                     severity missing_issue].
    split; [reflexivity|]. split; [reflexivity|]. split; [reflexivity|].
    split; [exact Hmiss|]. split; [rewrite length_firstn; lia|].
    unfold missing_severity.
    destruct (fgt _ 50); destruct (fgt _ 20);
      repeat split; intros; try discriminate; try reflexivity;
      intuition discriminate.
Qed.

(** On a well-formed frame [check_missing_values] returns one issue per
    column that has a missing value, in column order; the issue names the
    column, counts its missing values, and its severity is HIGH above 50%,
    MEDIUM above 20% and LOW otherwise; at most ten row labels are
    listed. *)
Theorem check_missing_values_spec (df : frame) :
  well_formed df ->
  check_missing_values df =
  Ok (map (missing_issue df) (List.filter has_missing (columns df))) /\
  Forall (fun i : ValidationIssue =>
            exists (col : string) (n : nat) (pct : float) (labels : list Z),
              column_name i = Some col /\
              issue_type i = MISSING_VALUE /\
              description i = MissingValues col n pct labels /\
              (0 < n)%nat /\ (length labels <= 10)%nat /\
              (severity i = HIGH <-> fgt pct 50 = true) /\
              (severity i = MEDIUM <-> fgt pct 50 = false /\ fgt pct 20 = true) /\
              (severity i = LOW <-> fgt pct 50 = false /\ fgt pct 20 = false))
    (map (missing_issue df) (List.filter has_missing (columns df))).
Proof. apply check_missing_values_ok. Qed.

Lemma duplicated_from_count (seen rest : list (list cell)) :
  (count_true (duplicated_from seen rest) <= length rest)%nat.
Proof.
  unfold count_true. rewrite <- (duplicated_from_length seen rest).
  apply count_le_length.
Qed.

(** The first row is never marked as a duplicate, and on a frame with
    rows fewer rows are marked than there are rows. *)
Theorem duplicated_spares_the_first_row (df : frame) :
  nth 0 (duplicated df) false = false /\
  ((0 < len df)%nat -> (count_true (duplicated df) < len df)%nat) /\
  (length (duplicated df) = if empty df then 0%nat else len df).
Proof.
  unfold duplicated. destruct (empty df) eqn:E.
  - split; [reflexivity|]. split; [|reflexivity]. cbn. lia.
  - pose proof (rows_length df) as Hlen.
    destruct (rows df) as [|r rest] eqn:Er.
    + split; [reflexivity|]. split; [|now rewrite <- Hlen].
      cbn in Hlen. lia.
    + cbn [duplicated_from existsb nth app]. split; [reflexivity|]. split.
      * intros _. rewrite <- Hlen. cbn [length].
        pose proof (duplicated_from_count [r] rest) as Hc.
        unfold count_true, count in *. cbn [List.filter]. lia.
      * cbn [length]. rewrite duplicated_from_length. now rewrite <- Hlen.
Qed.

End ValidatorFacts.

Lemma check_missing_values_spec_witness :
  exists i : ValidationIssue,
    Validator.check_missing_values
      (Frame [0; 1; 2; 3]%Z
         [("a", Column ObjectDtype [VText "x"; Null; Null; Null]);
          ("b", Column Int64 [VInt 1; VInt 2; VInt 3; VInt 4])]) = Ok [i] /\
    column_name i = Some "a" /\ severity i = HIGH.
Proof.
  eexists. split.
  - refine (proj1 (check_missing_values_spec
              (Frame [0; 1; 2; 3]%Z
                 [("a", Column ObjectDtype [VText "x"; Null; Null; Null]);
                  ("b", Column Int64 [VInt 1; VInt 2; VInt 3; VInt 4])]) _)).
    repeat constructor.
  - split; vm_compute; reflexivity.
Defined.

(** ** When a column counts as mixed *)

Section MixedKinds.

Import Validator.

Lemma in_strings_In (s : string) (l : list string) :
  Cleaner.in_strings s l = true <-> In s l.
Proof.
  unfold Cleaner.in_strings. rewrite existsb_exists. split.
  - intros (t & Hin & E). apply String.eqb_eq in E. now subst.
  - intros Hin. exists s. split; [exact Hin|apply String.eqb_refl].
Qed.

Lemma unique_from_spec (seen l : list string) :
  List.NoDup (unique_from seen l) /\
  forall x : string, In x (unique_from seen l) <-> In x l /\ ~ In x seen.
Proof.
  revert seen. induction l as [|y l IH]; intros seen.
  - cbn. split; [constructor|tauto].
  - cbn [unique_from]. destruct (Cleaner.in_strings y seen) eqn:E.
    + apply in_strings_In in E. destruct (IH seen) as [Hnd Hin].
      split; [exact Hnd|]. intros x. rewrite Hin. cbn.
      split; [tauto|]. intros [[<-|Hx] Hs]; [contradiction|tauto].
    + assert (Hy : ~ In y seen).
      { intros Hin. apply in_strings_In in Hin. congruence. }
      destruct (IH (seen ++ [y])) as [Hnd Hin]. split.
      * constructor; [|exact Hnd]. rewrite Hin, in_app_iff. cbn. tauto.
      * intros x. cbn. rewrite Hin, in_app_iff. cbn.
        destruct (string_dec y x) as [->|Hne]; [tauto|]. tauto.
Qed.

Lemma filter_all {A : Type} (p : A -> bool) (l : list A) :
  (forall x : A, In x l -> p x = true) -> List.filter p l = l.
Proof.
  intros Hall. apply forallb_filter_id, forallb_forall. exact Hall.
Qed.

Lemma filter_out_one (x : string) (l : list string) :
  List.NoDup l -> In x l ->
  S (length (List.filter (fun t => negb (String.eqb t x)) l)) = length l.
Proof.
  induction 1 as [|y l Hnotin Hnd IH]; [contradiction|].
  intros [->|Hin]; cbn.
  - rewrite String.eqb_refl. cbn. f_equal. f_equal. apply filter_all.
    intros t Ht. destruct (String.eqb_spec t x) as [->|]; [contradiction|reflexivity].
  - destruct (String.eqb_spec y x) as [->|Hne]; [contradiction|].
    cbn. f_equal. now apply IH.
Qed.

(** The kinds of the non-missing values of a column, each once. *)
Definition kinds (c : column) : list string :=
  unique (map type_name (List.filter notna (col_cells c))).

Lemma kinds_five (c : column) (k : string) :
  In k (kinds c) -> In k ["bool"; "int"; "float"; "str"; "Timestamp"].
Proof.
  unfold kinds, unique. intros Hin.
  apply (proj2 (unique_from_spec [] _)) in Hin as [Hin _].
  apply in_map_iff in Hin as (x & <- & Hx). apply filter_In in Hx as [_ Hx].
  destruct x; cbn in *; try discriminate; tauto.
Qed.

Lemma kinds_empty (c : column) :
  List.filter notna (col_cells c) = [] -> kinds c = [].
Proof. unfold kinds. now intros ->. Qed.

(** [check_mixed_column] reports a column exactly when its non-missing
    values have three kinds or more, or two kinds neither of which is
    [float]: a column of floats and texts, or of floats and booleans,
    passes, while integers with texts do not.  It reports at most one
    issue, of MEDIUM severity. *)
Theorem check_mixed_column_rule (col : string) (c : column) :
  (forall k : string,
     In k (kinds c) <->
     exists x : cell, In x (col_cells c) /\ notna x = true /\ type_name x = k) /\
  List.NoDup (kinds c) /\
  (check_mixed_column (col, c) <> [] <->
   (3 <= length (kinds c))%nat \/
   (length (kinds c) = 2%nat /\ ~ In "float" (kinds c))) /\
  (check_mixed_column (col, c) = [] \/
   exists counts : gmap string nat,
     check_mixed_column (col, c) = [mixed_issue col counts]).
Proof.
  destruct (unique_from_spec [] (map type_name (List.filter notna (col_cells c))))
    as [Hnd Hin].
  fold (unique (map type_name (List.filter notna (col_cells c)))) in Hnd, Hin.
  fold (kinds c) in Hnd, Hin.
  split; [|split; [exact Hnd|]].
  { intros k. rewrite Hin, in_map_iff. split.
    - intros [(x & <- & Hx) _]. apply filter_In in Hx. exists x. tauto.
    - intros (x & Hx & Hn & <-). split; [|tauto].
      exists x. split; [reflexivity|]. apply filter_In. tauto. }
  unfold check_mixed_column.
  destruct (length (List.filter notna (col_cells c)) =? 0)%nat eqn:Eempty.
  { apply Nat.eqb_eq, length_zero_iff_nil in Eempty.
    rewrite (kinds_empty c Eempty). cbn. split; [|now left].
    split; [congruence|]. intros [Hl|[Hl _]]; cbn in Hl; lia. }
  fold (kinds c).
  set (kept := List.filter _ (kinds c)).
  assert (Hnumeric : forall l : list string,
             List.NoDup l -> (forall k, In k l -> In k (kinds c)) ->
             forallb (fun t => Cleaner.in_strings t numeric_types) l = true ->
             forall k, In k l -> k = "int" \/ k = "float").
  { intros l _ Hsub Hall k Hk. rewrite forallb_forall in Hall.
    specialize (Hall k Hk). apply in_strings_In in Hall.
    pose proof (kinds_five c k (Hsub k Hk)) as Hfive.
    cbn in Hall, Hfive. intuition (subst; try discriminate; auto). }
  assert (Hkept : (2 <? length (kinds c))%nat = true /\ kept = kinds c \/
                  (2 <? length (kinds c))%nat = false /\
                  kept = List.filter (fun t => negb (String.eqb t "float")) (kinds c)).
  { unfold kept. destruct (2 <? length (kinds c))%nat eqn:E3.
    - left. split; [reflexivity|]. apply filter_all. intros t _.
      apply orb_true_r.
    - right. split; [reflexivity|]. apply filter_ext_in. intros t Ht.
      rewrite orb_false_r. f_equal.
      pose proof (kinds_five c t Ht) as Hfive. cbn in Hfive.
      cbn. intuition (subst; reflexivity). }
  assert (Hflag :
            ((1 <? length kept)%nat = true /\
             forallb (fun t => Cleaner.in_strings t numeric_types) kept = false) <->
            (3 <= length (kinds c))%nat \/
            (length (kinds c) = 2%nat /\ ~ In "float" (kinds c))).
  { destruct Hkept as [[E3 ->]|[E3 ->]].
    - apply Nat.ltb_lt in E3. split; [intros _; left; lia|].
      intros _. split; [apply Nat.ltb_lt; lia|].
      destruct (forallb _ (kinds c)) eqn:Eall; [|reflexivity]. exfalso.
      assert (Hincl : incl (kinds c) ["int"; "float"]).
      { intros k Hk. destruct (Hnumeric (kinds c) Hnd (fun _ h => h) Eall k Hk)
          as [->| ->]; cbn; tauto. }
      pose proof (List.NoDup_incl_length Hnd Hincl) as Hle. cbn in Hle. lia.
    - apply Nat.ltb_ge in E3.
      destruct (in_dec string_dec "float" (kinds c)) as [Hfloat|Hfloat].
      + pose proof (filter_out_one "float" (kinds c) Hnd Hfloat) as Hone.
        split.
        * intros [Hlen _]. apply Nat.ltb_lt in Hlen. lia.
        * intros [Hl|[_ Hl]]; [lia|contradiction].
      + assert (Hsame : List.filter (fun t => negb (String.eqb t "float")) (kinds c) =
                        kinds c).
        { apply filter_all. intros t Ht.
          destruct (String.eqb_spec t "float") as [->|]; [contradiction|reflexivity]. }
        rewrite Hsame. split.
        * intros [Hlen _]. apply Nat.ltb_lt in Hlen. right. split; [lia|exact Hfloat].
        * intros [Hl|[Hl _]]; [lia|]. split; [apply Nat.ltb_lt; lia|].
          destruct (forallb _ (kinds c)) eqn:Eall; [|reflexivity]. exfalso.
          assert (Hincl : incl (kinds c) ["int"]).
          { intros k Hk.
            destruct (Hnumeric (kinds c) Hnd (fun _ h => h) Eall k Hk) as [->| ->];
              [now left|contradiction]. }
          pose proof (List.NoDup_incl_length Hnd Hincl) as Hle. cbn in Hle. lia. }
  destruct (1 <? length kept)%nat eqn:E1;
    [destruct (forallb (fun t => Cleaner.in_strings t numeric_types) kept) eqn:Eall|];
    cbn [negb].
  - split; [|now left]. split; [congruence|].
    intros Hcase. apply Hflag in Hcase as [_ Hcase]. discriminate.
  - split; [|right; eexists; reflexivity]. split; [|discriminate].
    intros _. apply Hflag. auto.
  - split; [|now left]. split; [congruence|].
    intros Hcase. apply Hflag in Hcase as [Hcase _]. discriminate.
Qed.

End MixedKinds.

(** ** More on the column names *)

(** The characters of a normalized name. *)
Definition name_char (c : ascii) : bool :=
  PyStr.is_digit c || PyStr.is_lower c || Ascii.eqb c "_".

Definition is_underscore (c : ascii) : bool := Ascii.eqb c "_".

Fixpoint all_chars (p : ascii -> bool) (s : string) : bool :=
  match s with
  | EmptyString => true
  | String c s' => p c && all_chars p s'
  end.

Definition starts_with (p : ascii -> bool) (s : string) : bool :=
  match s with
  | EmptyString => false
  | String c _ => p c
  end.

Fixpoint ends_with (p : ascii -> bool) (s : string) : bool :=
  match s with
  | EmptyString => false
  | String c EmptyString => p c
  | String _ s' => ends_with p s'
  end.

(** No two underscores in a row. *)
Fixpoint single_underscores (s : string) : bool :=
  match s with
  | EmptyString => true
  | String c s' =>
      negb (is_underscore c && starts_with is_underscore s')
      && single_underscores s'
  end.

(** A machine-safe identifier: lowercase letters, digits and single
    underscores, not empty, with no underscore at either end. *)
Definition identifier (s : string) : bool :=
  all_chars name_char s && negb (starts_with is_underscore s)
  && negb (ends_with is_underscore s) && single_underscores s
  && negb (String.eqb s "").

Section Identifiers.

Import PyStr.

Lemma name_char_facts (c : ascii) :
  name_char c = true ->
  is_space c = false /\ lower_char c = c /\ is_word c = true.
Proof.
  destruct c as [[] [] [] [] [] [] [] []]; cbn; intros E;
    try discriminate; repeat split.
Qed.

Lemma lower_word_char (c : ascii) :
  is_word (lower_char c) = true -> name_char (lower_char c) = true.
Proof. destruct c as [[] [] [] [] [] [] [] []]; cbn; intros E; auto. Qed.

Lemma lower_char_not_underscore_made (c : ascii) :
  is_word (lower_char c) = false -> name_char (lower_char c) = false.
Proof. destruct c as [[] [] [] [] [] [] [] []]; cbn; intros E; auto. Qed.

Lemma lstrip_by_keeps (p : ascii -> bool) (s : string) :
  starts_with p s = false -> lstrip_by p s = s.
Proof. destruct s as [|c s]; cbn; [reflexivity|]. now intros ->. Qed.

Lemma rstrip_by_keeps (p : ascii -> bool) (s : string) :
  ends_with p s = false -> rstrip_by p s = s.
Proof.
  induction s as [|c s IH]; [reflexivity|]. cbn [ends_with rstrip_by].
  destruct s as [|d s].
  - cbn. now intros ->.
  - intros E. rewrite (IH E). reflexivity.
Qed.

Lemma all_chars_starts (p q : ascii -> bool) (s : string) :
  (forall c, p c = true -> q c = false) ->
  all_chars p s = true -> starts_with q s = false /\ ends_with q s = false.
Proof.
  intros Hpq. induction s as [|c s IH]; [now cbn|].
  cbn [all_chars starts_with ends_with]. intros E.
  apply andb_true_iff in E as [Hc Hs]. split; [now apply Hpq|].
  destruct s as [|d s]; [now apply Hpq|]. now apply IH.
Qed.

Lemma lower_keeps (s : string) : all_chars name_char s = true -> lower s = s.
Proof.
  induction s as [|c s IH]; [reflexivity|]. cbn. intros E.
  apply andb_true_iff in E as [Hc Hs].
  destruct (name_char_facts c Hc) as (_ & -> & _). now rewrite IH.
Qed.

Lemma sub_runs_from_keeps (p : ascii -> bool) (b : bool) (s : string) :
  all_chars (fun c => negb (p c)) s = true -> sub_runs_from p b s = s.
Proof.
  revert b. induction s as [|c s IH]; intros b; [reflexivity|]. cbn.
  intros E. apply andb_true_iff in E as [Hc Hs].
  apply negb_true_iff in Hc. rewrite Hc. now rewrite IH.
Qed.

Lemma sub_each_keeps (p : ascii -> bool) (s : string) :
  all_chars (fun c => negb (p c)) s = true -> sub_each p s = s.
Proof.
  induction s as [|c s IH]; [reflexivity|]. cbn.
  intros E. apply andb_true_iff in E as [Hc Hs].
  apply negb_true_iff in Hc. rewrite Hc. now rewrite IH.
Qed.

Lemma all_chars_impl (p q : ascii -> bool) (s : string) :
  (forall c, p c = true -> q c = true) ->
  all_chars p s = true -> all_chars q s = true.
Proof.
  intros Hpq. induction s as [|c s IH]; [reflexivity|]. cbn.
  intros E. apply andb_true_iff in E as [Hc Hs].
  now rewrite (Hpq c Hc), IH.
Qed.

(** Collapsing runs of underscores leaves alone a string that has none. *)
Lemma collapse_keeps (b : bool) (s : string) :
  single_underscores s = true ->
  (b = true -> starts_with is_underscore s = false) ->
  sub_runs_from (Ascii.eqb "_") b s = s.
Proof.
  revert b. induction s as [|c s IH]; intros b Hs Hb; [reflexivity|].
  cbn [single_underscores] in Hs. apply andb_true_iff in Hs as [Hc Hs].
  cbn [sub_runs_from]. unfold is_underscore in *. cbn [starts_with] in *.
  rewrite (Ascii.eqb_sym "_" c).
  destruct (Ascii.eqb c "_") eqn:Ec.
  - destruct b; [specialize (Hb eq_refl); discriminate|].
    apply Ascii.eqb_eq in Ec as ->.
    f_equal. apply IH; [exact Hs|]. intros _. cbn in Hc.
    now apply negb_true_iff in Hc.
  - f_equal. apply IH; [exact Hs|discriminate].
Qed.

(** A string that is an identifier passes through every step of the
    normalization unchanged. *)
Lemma identifier_fixed (s : string) :
  identifier s = true ->
  strip_underscores
    (sub_runs (Ascii.eqb "_")
       (sub_each (fun c => negb (is_word c))
          (sub_runs is_space (lower (strip s))))) = s /\
  String.eqb s "" = false.
Proof.
  unfold identifier. intros E.
  apply andb_true_iff in E as [E Hne]. apply andb_true_iff in E as [E Hsingle].
  apply andb_true_iff in E as [E Hend]. apply andb_true_iff in E as [Hall Hstart].
  apply negb_true_iff in Hne, Hend, Hstart. split; [|exact Hne].
  destruct (all_chars_starts name_char is_space s) as [Hs1 Hs2];
    [intros c Hc; apply (name_char_facts c Hc)|exact Hall|].
  unfold strip, strip_by.
  rewrite (lstrip_by_keeps _ _ Hs1), (rstrip_by_keeps _ _ Hs2).
  rewrite (lower_keeps s Hall).
  unfold sub_runs. rewrite (sub_runs_from_keeps is_space false s).
  2:{ apply (all_chars_impl name_char); [|exact Hall].
      intros c Hc. destruct (name_char_facts c Hc) as (-> & _). reflexivity. }
  rewrite (sub_each_keeps (fun c => negb (is_word c)) s).
  2:{ apply (all_chars_impl name_char); [|exact Hall].
      intros c Hc. destruct (name_char_facts c Hc) as (_ & _ & ->). reflexivity. }
  rewrite (collapse_keeps false s Hsingle) by discriminate.
  unfold strip_underscores, strip_by. unfold is_underscore in Hstart, Hend.
  now rewrite (lstrip_by_keeps _ _ Hstart), (rstrip_by_keeps _ _ Hend).
Qed.

End Identifiers.

(** Text of ASCII characters only. *)
Definition is_ascii (c : ascii) : bool := (PyStr.code c <? 128)%nat.

Definition ascii_text (s : string) : bool := all_chars is_ascii s.

Section NormalizedNames.
Context `{Pandas}.

Import PyStr.

(** A word character that is not a name character has not been lowered. *)
Definition lowered_char (c : ascii) : bool := negb (is_word c) || name_char c.

Lemma lower_char_lowered (c : ascii) : lowered_char (lower_char c) = true.
Proof. destruct c as [[] [] [] [] [] [] [] []]; reflexivity. Qed.

Lemma lower_lowered (s : string) : all_chars lowered_char (lower s) = true.
Proof.
  induction s as [|c s IH]; [reflexivity|]. cbn.
  now rewrite lower_char_lowered, IH.
Qed.

Lemma sub_runs_from_chars (p q : ascii -> bool) (b : bool) (s : string) :
  q "_"%char = true ->
  all_chars q s = true -> all_chars q (sub_runs_from p b s) = true.
Proof.
  intros Hq. revert b. induction s as [|c s IH]; intros b; [reflexivity|].
  cbn. intros E. apply andb_true_iff in E as [Hc Hs].
  destruct (p c); [destruct b|]; cbn; rewrite ?Hq, ?Hc; cbn; now apply IH.
Qed.

Lemma sub_each_name_chars (s : string) :
  all_chars lowered_char s = true ->
  all_chars name_char (sub_each (fun c => negb (is_word c)) s) = true.
Proof.
  induction s as [|c s IH]; [reflexivity|]. cbn.
  intros E. apply andb_true_iff in E as [Hc Hs]. rewrite (IH Hs).
  unfold lowered_char in Hc. destruct (is_word c); cbn in *; [|reflexivity].
  now rewrite Hc.
Qed.

Lemma collapse_single (b : bool) (s : string) :
  single_underscores (sub_runs_from (Ascii.eqb "_") b s) = true /\
  (b = true ->
   starts_with is_underscore (sub_runs_from (Ascii.eqb "_") b s) = false).
Proof.
  revert b. induction s as [|c s IH]; intros b; [now cbn|].
  cbn [sub_runs_from]. rewrite (Ascii.eqb_sym "_" c).
  destruct (Ascii.eqb c "_") eqn:Ec.
  - destruct b; [apply IH|].
    destruct (IH true) as [Hs Hst]. split; [|discriminate].
    cbn [single_underscores]. rewrite (Hst eq_refl), Hs.
    now rewrite andb_false_r.
  - destruct (IH false) as [Hs _]. split.
    + cbn [single_underscores]. unfold is_underscore at 1. now rewrite Ec, Hs.
    + intros _. cbn. unfold is_underscore. exact Ec.
Qed.

Lemma lstrip_by_shape (p q : ascii -> bool) (s : string) :
  starts_with p (lstrip_by p s) = false /\
  (all_chars q s = true -> all_chars q (lstrip_by p s) = true) /\
  (single_underscores s = true -> single_underscores (lstrip_by p s) = true).
Proof.
  induction s as [|c s IH]; [now cbn|]. cbn [lstrip_by].
  destruct (p c) eqn:Ec.
  - destruct IH as (H1 & H2 & H3). split; [exact H1|]. split.
    + cbn. intros E. apply andb_true_iff in E as [_ E]. now apply H2.
    + cbn. intros E. apply andb_true_iff in E as [_ E]. now apply H3.
  - split; [exact Ec|]. split; auto.
Qed.

Lemma rstrip_by_starts (p q : ascii -> bool) (s : string) :
  starts_with q (rstrip_by p s) = true -> starts_with q s = true.
Proof.
  destruct s as [|c s]; [discriminate|]. cbn [rstrip_by].
  destruct (rstrip_by p s); [destruct (p c)|]; cbn; auto. discriminate.
Qed.

Lemma rstrip_by_shape (p q : ascii -> bool) (s : string) :
  ends_with p (rstrip_by p s) = false /\
  (all_chars q s = true -> all_chars q (rstrip_by p s) = true) /\
  (single_underscores s = true -> single_underscores (rstrip_by p s) = true).
Proof.
  induction s as [|c s IH]; [now cbn|]. cbn [rstrip_by].
  destruct IH as (H1 & H2 & H3).
  destruct (rstrip_by p s) as [|d r] eqn:Er.
  - destruct (p c) eqn:Ec; [now cbn|]. split; [exact Ec|]. split.
    + cbn. intros E. apply andb_true_iff in E as [-> _]. reflexivity.
    + intros _. cbn. now rewrite andb_false_r.
  - split; [exact H1|]. split.
    + cbn [all_chars]. intros E. apply andb_true_iff in E as [-> E].
      now apply H2.
    + intros E. cbn [single_underscores] in E.
      apply andb_true_iff in E as [Hc E]. specialize (H3 E).
      change (negb (is_underscore c && starts_with is_underscore (String d r))
              && single_underscores (String d r) = true).
      rewrite H3, andb_true_r.
      destruct (starts_with is_underscore (String d r)) eqn:Est;
        [|now rewrite andb_false_r].
      rewrite <- Er in Est. apply rstrip_by_starts in Est.
      now rewrite Est in Hc.
Qed.

Lemma rstrip_by_not_started (p q : ascii -> bool) (s : string) :
  starts_with q s = false -> starts_with q (rstrip_by p s) = false.
Proof.
  intros Hs. destruct (starts_with q (rstrip_by p s)) eqn:E; [|reflexivity].
  apply rstrip_by_starts in E. congruence.
Qed.

(** On a header of ASCII text [normalize_column_name] returns a
    machine-safe identifier: lowercase letters, digits and single
    underscores, not empty and with no underscore at either end; and it
    returns an identifier unchanged, so normalizing twice is normalizing
    once. *)
Theorem normalize_column_name_identifier (name : cell) :
  ascii_text (py_str name) = true ->
  identifier (Parser.normalize_column_name name) = true /\
  (forall s : string,
     identifier s = true -> Parser.normalize_column_name (VText s) = s) /\
  Parser.normalize_column_name (VText (Parser.normalize_column_name name)) =
  Parser.normalize_column_name name.
Proof.
  intros _.
  assert (Hfixed : forall s : string,
             identifier s = true -> Parser.normalize_column_name (VText s) = s).
  { intros s Hs. unfold Parser.normalize_column_name. cbn [isna py_str].
    destruct (identifier_fixed s Hs) as [-> ->]. reflexivity. }
  assert (Hid : identifier (Parser.normalize_column_name name) = true).
  { unfold Parser.normalize_column_name.
    destruct (isna name); [reflexivity|].
    set (s3 := sub_each (fun c => negb (is_word c))
                 (sub_runs is_space (lower (strip (py_str name))))).
    assert (H3 : all_chars name_char s3 = true).
    { apply sub_each_name_chars, sub_runs_from_chars; [reflexivity|].
      apply lower_lowered. }
    set (s4 := sub_runs (Ascii.eqb "_") s3).
    assert (H4 : all_chars name_char s4 = true)
      by (apply sub_runs_from_chars; [reflexivity|exact H3]).
    destruct (collapse_single false s3) as [H4s _]. fold (sub_runs (Ascii.eqb "_") s3) in H4s.
    fold s4 in H4s.
    unfold strip_underscores, strip_by.
    change (fun c : ascii => Ascii.eqb c "_") with is_underscore.
    destruct (lstrip_by_shape is_underscore name_char s4) as (L1 & L2 & L3).
    destruct (rstrip_by_shape is_underscore name_char
                (lstrip_by is_underscore s4)) as (R1 & R2 & R3).
    pose proof (rstrip_by_not_started is_underscore is_underscore _ L1) as R0.
    set (s5 := rstrip_by is_underscore (lstrip_by is_underscore s4)) in *.
    destruct (String.eqb s5 "") eqn:E5; [reflexivity|].
    unfold identifier.
    now rewrite (R2 (L2 H4)), R0, R1, (R3 (L3 H4s)), E5. }
  split; [exact Hid|]. split; [exact Hfixed|]. now apply Hfixed.
Qed.

End NormalizedNames.

Lemma normalize_column_name_identifier_witness :
  identifier (@Parser.normalize_column_name Reference.pandas
                (VText " Total ($)")) = true /\
  @Parser.normalize_column_name Reference.pandas (VText " Total ($)") = "total".
Proof.
  split.
  - apply (@normalize_column_name_identifier Reference.pandas
             (VText " Total ($)")).
    reflexivity.
  - reflexivity.
Defined.

(** ** The header mapping *)

Section HeaderMapping.
Context `{Pandas}.

Import Parser.

Lemma count_none {A : Type} (p : A -> bool) (l : list A) :
  (forall x : A, In x l -> p x = false) -> count p l = 0%nat.
Proof. intros Hall. unfold count. now rewrite filter_none. Qed.

Lemma suffix_by_occurrence_distinct (prefix cols : list string) :
  List.NoDup (prefix ++ cols) -> suffix_by_occurrence prefix cols = cols.
Proof.
  revert prefix. induction cols as [|col rest IH]; intros prefix Hnd;
    [reflexivity|].
  cbn [suffix_by_occurrence]. rewrite count_none.
  - cbn [suffixed]. f_equal. apply IH. now rewrite <- app_assoc.
  - intros x Hx. destruct (String.eqb_spec col x) as [<-|]; [|reflexivity].
    exfalso. apply List.NoDup_remove_2 in Hnd. apply Hnd.
    apply in_or_app. now left.
Qed.

Lemma ensure_unique_columns_length (cols : list string) :
  length (ensure_unique_columns cols) = length cols.
Proof.
  rewrite ensure_unique_columns_spec.
  generalize (@nil string). induction cols as [|c r IH]; intros prefix; cbn;
    [reflexivity|]. now rewrite IH.
Qed.

(** Names that are distinct already pass through [ensure_unique_columns]
    unchanged; the result always has one name per input name. *)
Theorem ensure_unique_columns_keeps_distinct_names (cols : list string) :
  length (ensure_unique_columns cols) = length cols /\
  (List.NoDup cols -> ensure_unique_columns cols = cols).
Proof.
  split; [apply ensure_unique_columns_length|].
  intros Hnd. rewrite ensure_unique_columns_spec.
  now apply suffix_by_occurrence_distinct.
Qed.

Definition insert_pair (m : gmap string cell) (p : string * cell)
  : gmap string cell :=
  let '(norm, orig) := p in <[norm := orig]> m.

Lemma fold_insert_other (l : list (string * cell)) (m : gmap string cell)
  (k : string) :
  ~ In k (map fst l) ->
  fold_left (fun m '(norm, orig) => <[norm := orig]> m) l m !! k = m !! k.
Proof.
  revert m. induction l as [|[k0 v0] l IH]; intros m Hk; [reflexivity|].
  cbn in *. rewrite IH by tauto. apply lookup_insert_ne. tauto.
Qed.

Lemma fold_insert_lookup (l : list (string * cell)) (m : gmap string cell)
  (k : string) (v : cell) :
  List.NoDup (map fst l) -> In (k, v) l ->
  fold_left (fun m '(norm, orig) => <[norm := orig]> m) l m !! k = Some v.
Proof.
  revert m. induction l as [|[k0 v0] l IH]; intros m Hnd Hin; [contradiction|].
  cbn in *. inversion Hnd as [|? ? Hnotin Hnd']; subst.
  destruct Hin as [[= -> ->]|Hin].
  - rewrite fold_insert_other by exact Hnotin. apply lookup_insert_eq.
  - now apply IH.
Qed.

Lemma combine_fst {A B : Type} (l1 : list A) (l2 : list B) :
  length l1 = length l2 -> map fst (combine l1 l2) = l1.
Proof.
  revert l2. induction l1 as [|x l1 IH]; intros [|y l2] Hlen; cbn in *;
    try reflexivity; try discriminate.
  f_equal. apply IH. lia.
Qed.

(** When the new names come out pairwise distinct, [column_mapping] sends
    each of them to the header it was made from. *)
Theorem column_mapping_finds_the_original (raw : list cell) (norm : string)
  (orig : cell) :
  List.NoDup (fst (normalize_headers raw)) ->
  In (norm, orig) (combine (fst (normalize_headers raw)) raw) ->
  snd (normalize_headers raw) !! norm = Some orig.
Proof.
  unfold normalize_headers. cbn [fst snd]. intros Hnd Hin.
  apply fold_insert_lookup; [|exact Hin].
  rewrite combine_fst; [exact Hnd|].
  now rewrite ensure_unique_columns_length, length_map.
Qed.

End HeaderMapping.

Lemma ensure_unique_columns_keeps_distinct_names_witness :
  Parser.ensure_unique_columns ["id"; "name"; "name_1"] =
  ["id"; "name"; "name_1"].
Proof.
  apply (proj2 (ensure_unique_columns_keeps_distinct_names
                  ["id"; "name"; "name_1"])).
  repeat constructor; cbn; intuition discriminate.
Defined.

Lemma column_mapping_finds_the_original_witness :
  snd (@Parser.normalize_headers Reference.pandas
         [VText "Order ID"; VText " Total ($)"]) !! "total" =
  Some (VText " Total ($)").
Proof.
  apply (@column_mapping_finds_the_original Reference.pandas
           [VText "Order ID"; VText " Total ($)"] "total" (VText " Total ($)")).
  - vm_compute. repeat constructor; cbn; intuition discriminate.
  - vm_compute. tauto.
Defined.

(** ** services/tier_manager.py *)

Module TierManager.

Inductive UserTier : Type := FREE | PAID.

Record limits : Type := {
  max_rows : option nat;
  watermark : bool
}.

Definition TIER_LIMITS (tier : UserTier) : limits :=
  match tier with
  | FREE => {| max_rows := Some 100%nat; watermark := true |}
  | PAID => {| max_rows := None; watermark := false |}
  end.

Definition tier_value (tier : UserTier) : string :=
  match tier with FREE => "free" | PAID => "paid" end.

(** [token and token.startswith("paid_")] *)
Definition get_tier_from_token (token : option string) : UserTier :=
  match token with
  | Some t =>
      if negb (String.eqb t "") && String.prefix "paid_" t then PAID else FREE
  | None => FREE
  end.

(** The dictionary [limit_info]; [message] holds the row limit its
    f-string names. *)
Record limit_info : Type := {
  tier : string;
  original_rows : nat;
  truncated : bool;
  info_watermark : bool;
  processed_rows : nat;
  message : option nat
}.

(** [df.head(n)] *)
Definition head (n : nat) (df : frame) : frame :=
  Frame (firstn n (index df))
    (map (fun nc =>
            (fst nc, Column (col_dtype (snd nc))
                       (firstn n (col_cells (snd nc)))))
       (columns df)).

Definition truthy (max_rows : option nat) : bool :=
  match max_rows with
  | Some m => negb (m =? 0)%nat
  | None => false
  end.

Definition apply_tier_limits (df : frame) (tier : UserTier)
  : frame * limit_info :=
  let limits := TIER_LIMITS tier in
  match max_rows limits with
  | Some m =>
      if truthy (Some m) && (m <? len df)%nat then
        (head m df,
         {| tier := tier_value tier; original_rows := len df;
            truncated := true; info_watermark := watermark limits;
            processed_rows := m; message := Some m |})
      else
        (df,
         {| tier := tier_value tier; original_rows := len df;
            truncated := false; info_watermark := watermark limits;
            processed_rows := len df; message := None |})
  | None =>
      (df,
       {| tier := tier_value tier; original_rows := len df;
          truncated := false; info_watermark := watermark limits;
          processed_rows := len df; message := None |})
  end.

Definition should_add_watermark (tier : UserTier) : bool :=
  watermark (TIER_LIMITS tier).

End TierManager.

(** ** The data path of [process_file] (routers/upload.py)

    From the parsed frame to the validation summary: tier limits,
    cleaning, validation, scoring.  An exception of any stage ends the job
    with status ["error"]. *)

Module Upload.
Section Upload.
Context `{Pandas}.

Record processed : Type := {
  cleaned_df : frame;
  cleaning_log : list log_entry;
  issues : list ValidationIssue;
  summary : ValidationSummary;
  tier_info : TierManager.limit_info
}.

Definition process_frame (df : frame) (tier : TierManager.UserTier)
  : result processed :=
  let '(df, limit_info) := TierManager.apply_tier_limits df tier in
  '(cleaned_df, cleaning_log) ← Cleaner.clean_dataframe df;
  issues ← Validator.validate_dataframe cleaned_df;
  summary ← Validator.calculate_status cleaned_df issues;
  Ok {| cleaned_df := cleaned_df; cleaning_log := cleaning_log;
        issues := issues; summary := summary; tier_info := limit_info |}.

End Upload.
End Upload.

Section TierLimits.

Import TierManager.

Lemma head_len (n : nat) (df : frame) : len (head n df) = Nat.min n (len df).
Proof. unfold len, head. cbn [index]. apply length_firstn. Qed.

Lemma head_well_formed (n : nat) (df : frame) :
  well_formed df -> well_formed (head n df).
Proof.
  unfold well_formed. rewrite head_len. unfold head. cbn [columns].
  intros Hwf. apply List.Forall_forall. intros nc Hin.
  apply in_map_iff in Hin as (nc0 & <- & Hnc0). cbn [snd col_cells].
  rewrite length_firstn. rewrite List.Forall_forall in Hwf.
  now rewrite (Hwf nc0 Hnc0).
Qed.

Lemma apply_tier_limits_well_formed (df : frame) (t : UserTier) :
  well_formed df -> well_formed (fst (apply_tier_limits df t)).
Proof.
  intros Hwf. unfold apply_tier_limits.
  destruct (max_rows (TIER_LIMITS t)) as [m|]; [|exact Hwf].
  destruct (truthy (Some m) && (m <? len df)%nat); [|exact Hwf].
  now apply head_well_formed.
Qed.

Lemma apply_tier_limits_len (df : frame) (t : UserTier) :
  len (fst (apply_tier_limits df t)) =
  match t with FREE => Nat.min (len df) 100 | PAID => len df end.
Proof.
  destruct t; unfold apply_tier_limits; cbn [TIER_LIMITS max_rows truthy];
    [|reflexivity].
  change (negb (100 =? 0)%nat) with true. cbn [andb].
  destruct (Nat.ltb_spec 100 (len df)) as [Hgt|Hle]; cbn [fst].
  - rewrite head_len. lia.
  - lia.
Qed.

Lemma apply_tier_limits_spec_parts (df : frame) (t : UserTier) :
  processed_rows (snd (apply_tier_limits df t)) =
  len (fst (apply_tier_limits df t)) /\
  original_rows (snd (apply_tier_limits df t)) = len df /\
  column_names (fst (apply_tier_limits df t)) = column_names df /\
  index (fst (apply_tier_limits df t)) =
  firstn (len (fst (apply_tier_limits df t))) (index df) /\
  match t with
  | FREE =>
      len (fst (apply_tier_limits df t)) = Nat.min (len df) 100 /\
      truncated (snd (apply_tier_limits df t)) = (100 <? len df)%nat /\
      fst (apply_tier_limits df t) =
      (if (100 <? len df)%nat then head 100 df else df)
  | PAID =>
      fst (apply_tier_limits df t) = df /\
      truncated (snd (apply_tier_limits df t)) = false
  end.
Proof.
  pose proof (apply_tier_limits_len df t) as Hlen.
  destruct t; unfold apply_tier_limits in *;
    cbn [TIER_LIMITS max_rows truthy] in *.
  - change (negb (100 =? 0)%nat) with true in *. cbn [andb] in *.
    destruct (Nat.ltb_spec 100 (len df)) as [Hgt|Hle]; cbn [fst snd] in *;
      cbn [processed_rows original_rows truncated].
    + rewrite head_len. repeat split; try lia.
      * unfold column_names, head. cbn [columns]. now rewrite map_map.
      * cbn [head index]. f_equal. lia.
    + repeat split; try lia. unfold len. now rewrite firstn_all.
  - cbn [fst snd processed_rows original_rows truncated].
    repeat split. unfold len. now rewrite firstn_all.
Qed.

(** [apply_tier_limits]: the free tier keeps the first 100 rows of every
    column and of the index, the paid tier keeps the frame as it is;
    [processed_rows] is the number of rows of the returned frame,
    [original_rows] that of the input, and [truncated] tells whether rows
    were cut; the header is never changed. *)
Theorem apply_tier_limits_spec (df : frame) (t : UserTier) :
  processed_rows (snd (apply_tier_limits df t)) =
  len (fst (apply_tier_limits df t)) /\
  original_rows (snd (apply_tier_limits df t)) = len df /\
  column_names (fst (apply_tier_limits df t)) = column_names df /\
  index (fst (apply_tier_limits df t)) =
  firstn (len (fst (apply_tier_limits df t))) (index df) /\
  match t with
  | FREE =>
      len (fst (apply_tier_limits df t)) = Nat.min (len df) 100 /\
      truncated (snd (apply_tier_limits df t)) = (100 <? len df)%nat /\
      fst (apply_tier_limits df t) =
      (if (100 <? len df)%nat then head 100 df else df)
  | PAID =>
      fst (apply_tier_limits df t) = df /\
      truncated (snd (apply_tier_limits df t)) = false
  end.
Proof. apply apply_tier_limits_spec_parts. Qed.

End TierLimits.

(** ** Well-formed frames through the pipeline *)

Section WellFormed.
Context `{Pandas}.

Import Cleaner.

Lemma set_col_well_formed (df : frame) (col : string) (c c' : column) :
  well_formed df -> get_col df col = Ok c ->
  length (col_cells c') = length (col_cells c) ->
  well_formed (set_col df col c').
Proof.
  unfold well_formed, get_col, set_col, len. cbn [index columns].
  generalize (length (index df)). intros n.
  induction (columns df) as [|[name c0] rest IH]; cbn; [discriminate|].
  intros Hwf. apply List.Forall_cons_iff in Hwf as [Hc0 Hrest]. cbn in Hc0.
  destruct (String.eqb name col).
  - intros [= ->] Hlen. constructor; [cbn; lia|exact Hrest].
  - intros Hl Hlen. constructor; [exact Hc0|]. now apply IH.
Qed.

Lemma apply_text_length (f : string -> string) (cells : list cell) :
  length (apply_text f cells) = length cells.
Proof. apply length_map. Qed.

Lemma trim_columns_well_formed (cols : list string) (df out : frame)
  (k n : nat) :
  well_formed df -> trim_columns df cols k = Ok (out, n) -> well_formed out.
Proof.
  revert df k. induction cols as [|col rest IH]; intros df k Hwf Hrun.
  - cbn in Hrun. now injection Hrun as <- _.
  - destruct (get_col df col) as [c0|e] eqn:Hcol.
    + rewrite (trim_columns_step df col rest k c0 Hcol) in Hrun.
      apply (IH _ _ (set_col_well_formed df col c0 (trimmed c0) Hwf Hcol
                       (apply_text_length PyStr.strip (col_cells c0))) Hrun).
    + cbn [trim_columns] in Hrun. rewrite Hcol in Hrun. discriminate.
Qed.

(** Every step keeps the number of cells of the column it works on. *)
Lemma process_column_keeps_length (df df' : frame) (col : string)
  (c : column) (entries : log) :
  get_col df col = Ok c ->
  process_column df col = Ok (df', entries) ->
  exists c' : column,
    df' = set_col df col c' /\
    length (col_cells c') = length (col_cells c).
Proof.
  intros Hget. unfold process_column. rewrite Hget. cbn [mbind result_bind].
  assert (Hsame : exists c' : column,
             df = set_col df col c' /\
             length (col_cells c') = length (col_cells c)).
  { exists c. split; [now rewrite (set_col_same _ _ _ Hget)|reflexivity]. }
  destruct (is_numeric_dtype (col_dtype c)).
  { unfold clean_numeric_column. rewrite Hget. cbn [mbind result_bind].
    destruct (is_float_dtype (col_dtype c));
      [destruct (_ >? 0)%Z|]; intros [= <- _]; try exact Hsame.
    eexists. split; [reflexivity|]. cbn. apply length_map. }
  destruct (is_datetime64_any_dtype (col_dtype c)).
  { intros [= <- _]. exact Hsame. }
  rewrite is_date_column_exact. cbn [mbind result_bind].
  destruct (_ <? _)%nat.
  { unfold convert_to_date. rewrite Hget. cbn [mbind result_bind].
    destruct (to_datetime (col_cells c)) as [parsed|e] eqn:Eparse;
      cbn [mbind result_bind try_except].
    - pose proof (to_datetime_length _ _ Eparse) as Hlen.
      destruct (_ >? 0)%Z; intros [= <- _]; eexists; (split; [reflexivity|]);
        cbn; now rewrite length_map.
    - intros [= <- _]. exists c. split; reflexivity. }
  rewrite should_be_numeric_exact. cbn [mbind result_bind].
  destruct (_ <? _)%nat.
  { unfold convert_to_numeric. rewrite Hget. cbn [mbind result_bind].
    destruct (_ >? 0)%Z; intros [= <- _]; eexists; (split; [reflexivity|]);
      rewrite to_numeric_length; apply length_map. }
  unfold normalize_text_column. rewrite Hget. cbn [mbind result_bind].
  rewrite string_changes_eq.
  destruct (_ =? 0)%nat; [intros [= <- _]; exact Hsame|].
  destruct (0 <? _)%nat; intros [= <- _]; [|exact Hsame].
  eexists. split; [reflexivity|]. cbn [col_cells].
  rewrite assign_where_apply_text. apply apply_text_length.
Qed.

Lemma process_columns_well_formed (cols : list string) (df out : frame)
  (log0 entries : log) :
  well_formed df ->
  process_columns df cols log0 = Ok (out, entries) -> well_formed out.
Proof.
  revert df log0. induction cols as [|col rest IH]; intros df log0 Hwf Hrun.
  - cbn in Hrun. now injection Hrun as <- _.
  - cbn [process_columns] in Hrun.
    destruct (process_column df col) as [[df1 entries1]|e] eqn:Hstep;
      cbn [mbind result_bind] in Hrun; [|discriminate].
    apply (IH df1 _) in Hrun; [exact Hrun|].
    destruct (get_col df col) as [c|e] eqn:Hget.
    + destruct (process_column_keeps_length df df1 col c entries1 Hget Hstep)
        as (c' & -> & Hlen).
      now apply (set_col_well_formed df col c c').
    + unfold process_column in Hstep. rewrite Hget in Hstep. discriminate.
Qed.

Lemma dropna_columns_well_formed (df : frame) :
  well_formed df -> well_formed (dropna_columns df).
Proof.
  unfold well_formed, dropna_columns, len. cbn [index columns].
  intros Hwf. apply List.Forall_forall. intros nc Hin.
  apply filter_In in Hin as [Hin _]. rewrite List.Forall_forall in Hwf.
  now apply Hwf.
Qed.

(** [clean_dataframe] keeps frames well formed. *)
Lemma clean_dataframe_well_formed (df out : frame) (entries : log) :
  well_formed df -> clean_dataframe df = Ok (out, entries) -> well_formed out.
Proof.
  intros Hwf. unfold clean_dataframe, structural_cleanup, trim_whitespace.
  destruct (remove_empty_rows df) as [d1 log1] eqn:E1.
  assert (Hwf1 : well_formed d1).
  { pose proof (proj1 (remove_empty_rows_rows df Hwf)) as Hd1.
    now rewrite E1 in Hd1. }
  unfold remove_empty_columns.
  pose proof (dropna_columns_well_formed d1 Hwf1) as Hwf2.
  destruct (trim_columns (dropna_columns d1) _ 0) as [[d3 n]|e] eqn:E3;
    cbn [mbind result_bind]; [|discriminate].
  pose proof (trim_columns_well_formed _ _ _ _ _ Hwf2 E3) as Hwf3.
  apply (process_columns_well_formed _ _ _ _ _ Hwf3).
Qed.

(** The data path of [process_file] returns on every well-formed frame
    with distinct column names: neither cleaning, validation nor scoring
    raises.  The summary counts the rows and columns of the cleaned frame,
    which has no more rows than the tier lets through, at most 100 on the
    free tier. *)
Theorem process_frame_returns (df : frame) (t : TierManager.UserTier) :
  well_formed df ->
  List.NoDup (column_names df) ->
  exists r : Upload.processed,
    Upload.process_frame df t = Ok r /\
    well_formed (Upload.cleaned_df r) /\
    (len (Upload.cleaned_df r) <= len df)%nat /\
    (t = TierManager.FREE -> (len (Upload.cleaned_df r) <= 100)%nat) /\
    total_rows (Upload.summary r) = Z.of_nat (len (Upload.cleaned_df r)) /\
    total_columns (Upload.summary r) =
    Z.of_nat (length (columns (Upload.cleaned_df r))) /\
    issue_count (Upload.summary r) = Z.of_nat (length (Upload.issues r)) /\
    TierManager.processed_rows (Upload.tier_info r) =
    len (fst (TierManager.apply_tier_limits df t)).
Proof.
  intros Hwf _. unfold Upload.process_frame.
  pose proof (apply_tier_limits_well_formed df t Hwf) as Hwf0.
  pose proof (apply_tier_limits_len df t) as Hlen0.
  pose proof (proj1 (apply_tier_limits_spec_parts df t)) as Hproc.
  destruct (TierManager.apply_tier_limits df t) as [d0 info] eqn:E0.
  cbn [fst snd] in *.
  destruct (clean_dataframe_total d0)
    as (out & entries & Hclean & _ & _ & _ & _ & Hlen).
  rewrite Hclean. cbn [mbind result_bind].
  pose proof (clean_dataframe_well_formed d0 out entries Hwf0 Hclean) as Hwf_out.
  unfold Validator.validate_dataframe.
  rewrite (proj1 (check_missing_values_ok out Hwf_out)).
  cbn [mbind result_bind].
  destruct (check_duplicates_rule out) as [[_ Hdup]|(pct & _ & _ & Hdup)];
    rewrite Hdup; cbn [mbind result_bind];
    match goal with
    | |- context [Validator.calculate_status out ?i] =>
        destruct (calculate_status_total out i) as (mp & dp & _ & _ & Hs)
    end;
    rewrite Hs; cbn [mbind result_bind];
    eexists; (split; [reflexivity|]);
    cbn [Upload.cleaned_df Upload.summary Upload.issues Upload.tier_info
         total_rows total_columns issue_count];
    (split; [exact Hwf_out|]);
    (split; [destruct t; lia|]);
    (split; [intros ->; lia|]);
    repeat split; exact Hproc.
Qed.

End WellFormed.

Lemma process_frame_returns_witness :
  exists r : Upload.processed,
    @Upload.process_frame Reference.pandas dates_frame TierManager.FREE = Ok r /\
    (len (Upload.cleaned_df r) <= 100)%nat.
Proof.
  destruct (@process_frame_returns Reference.pandas dates_frame TierManager.FREE)
    as (r & Hrun & _ & _ & Hfree & _).
  - repeat constructor.
  - repeat constructor; cbn; intuition discriminate.
  - exists r. split; [exact Hrun|]. now apply Hfree.
Defined.

(** ** utils/file_manager.py *)

Module FileManager.

Definition MAX_FILE_SIZE_MB : Z := 10.
Definition MAX_FILE_SIZE_BYTES : Z := MAX_FILE_SIZE_MB * 1024 * 1024.

Definition validate_file_size (size : Z) : bool :=
  (size <=? MAX_FILE_SIZE_BYTES)%Z.

(** [c.isalnum()] on ASCII *)
Definition is_alnum (c : ascii) : bool :=
  PyStr.is_digit c || PyStr.is_upper c || PyStr.is_lower c.

(** [c.isalnum() or c in '._-'] *)
Definition kept_char (c : ascii) : bool :=
  is_alnum c || Ascii.eqb c "." || Ascii.eqb c "_" || Ascii.eqb c "-".

Fixpoint keep_chars (p : ascii -> bool) (s : string) : string :=
  match s with
  | EmptyString => EmptyString
  | String c s' => if p c then String c (keep_chars p s') else keep_chars p s'
  end.

Section Sanitize.

(** [Path(filename).name], the last component of the path as pathlib
    reads it. *)
Variable path_name : string -> string.

Definition sanitize_filename (filename : string) : string :=
  let filename := path_name filename in
  let filename := keep_chars kept_char filename in
  if String.eqb filename "" then "uploaded_file" else filename.

End Sanitize.

End FileManager.

Section FileNames.

Import FileManager.

Lemma keep_chars_all (p : ascii -> bool) (s : string) :
  all_chars p (keep_chars p s) = true.
Proof.
  induction s as [|c s IH]; [reflexivity|]. cbn.
  destruct (p c) eqn:E; [cbn; now rewrite E|exact IH].
Qed.

Lemma keep_chars_fixed (p : ascii -> bool) (s : string) :
  all_chars p s = true -> keep_chars p s = s.
Proof.
  induction s as [|c s IH]; [reflexivity|]. cbn.
  intros E. apply andb_true_iff in E as [-> E]. now rewrite IH.
Qed.

(** Whatever pathlib returns for the last path component,
    [sanitize_filename] returns a non-empty name made of ASCII letters,
    digits, dots, underscores and hyphens only: it holds no path separator,
    no space and no control character; a name of that alphabet that
    pathlib takes as a single component is returned unchanged. *)
Theorem sanitize_filename_alphabet (path_name : string -> string)
  (filename : string) :
  sanitize_filename path_name filename <> "" /\
  all_chars kept_char (sanitize_filename path_name filename) = true /\
  all_chars (fun c => negb (Ascii.eqb c "/") && negb (Ascii.eqb c "\")
                      && negb (PyStr.is_space c)
                      && (32 <? PyStr.code c)%nat)
    (sanitize_filename path_name filename) = true /\
  (path_name filename = filename -> filename <> "" ->
   all_chars kept_char filename = true ->
   sanitize_filename path_name filename = filename).
Proof.
  assert (Hkept : all_chars kept_char (sanitize_filename path_name filename) = true).
  { unfold sanitize_filename.
    destruct (String.eqb _ ""); [reflexivity|apply keep_chars_all]. }
  split; [|split; [exact Hkept|split]].
  - unfold sanitize_filename.
    destruct (String.eqb_spec (keep_chars kept_char (path_name filename)) "");
      [discriminate|assumption].
  - revert Hkept. apply all_chars_impl. intros c.
    destruct c as [[] [] [] [] [] [] [] []]; cbn; intros E;
      try discriminate; reflexivity.
  - intros Hname Hne Hall. unfold sanitize_filename. rewrite Hname.
    rewrite (keep_chars_fixed _ _ Hall).
    destruct (String.eqb_spec filename ""); [contradiction|reflexivity].
Qed.

End FileNames.

(** ** utils/rate_limiter.py *)

Module RateLimiter.

(** Times are counted in microseconds, as [datetime] does. *)
Definition minute : Z := 60000000.

Record limiter : Type := {
  requests_per_minute : nat;
  requests : gmap string (list Z)
}.

(** [RateLimiter(requests_per_minute)] *)
Definition init (requests_per_minute : nat) : limiter :=
  {| requests_per_minute := requests_per_minute; requests := ∅ |}.

(** The body of [check_rate_limit] under the lock, at the time [now] that
    [datetime.utcnow()] gives. *)
Definition check_rate_limit (now : Z) (client_ip : string) (self : limiter)
  : bool * limiter :=
  let minute_ago := (now - minute)%Z in
  let recent :=
    List.filter (fun req_time => (minute_ago <? req_time)%Z)
      (default [] (requests self !! client_ip)) in
  if (requests_per_minute self <=? length recent)%nat then
    (false,
     {| requests_per_minute := requests_per_minute self;
        requests := <[client_ip := recent]> (requests self) |})
  else
    (true,
     {| requests_per_minute := requests_per_minute self;
        requests := <[client_ip := recent ++ [now]]> (requests self) |}).

(** A sequence of calls, each with its time and client; the answers in
    order and the limiter the calls leave. *)
Fixpoint run (calls : list (Z * string)) (self : limiter)
  : list bool * limiter :=
  match calls with
  | [] => ([], self)
  | (now, client_ip) :: rest =>
      let '(ok, self) := check_rate_limit now client_ip self in
      let '(oks, self) := run rest self in
      (ok :: oks, self)
  end.

End RateLimiter.

Section RateLimit.

Import RateLimiter.

(** The times the client has on record. *)
Definition stored (self : limiter) (client_ip : string) : list Z :=
  default [] (requests self !! client_ip).

(** The times of a list that lie less than a minute before [now]. *)
Definition recent (now : Z) (times : list Z) : list Z :=
  List.filter (fun req_time => (now - minute <? req_time)%Z) times.

(** The times of the accepted calls of one client. *)
Fixpoint accepted (calls : list (Z * string)) (oks : list bool)
  (client_ip : string) : list Z :=
  match calls, oks with
  | (now, c) :: calls, ok :: oks =>
      if ok && String.eqb c client_ip
      then now :: accepted calls oks client_ip
      else accepted calls oks client_ip
  | _, _ => []
  end.

(** The clock does not go back: every call comes no earlier than the one
    before it, the first no earlier than [t0]. *)
Fixpoint clock_from (t0 : Z) (calls : list (Z * string)) : Prop :=
  match calls with
  | [] => True
  | (now, _) :: rest => (t0 <= now)%Z /\ clock_from now rest
  end.

(** The window of one minute that ends at [T]. *)
Definition within (T : Z) (t : Z) : bool :=
  (T - minute <? t)%Z && (t <=? T)%Z.

Lemma recent_app (now : Z) (l1 l2 : list Z) :
  recent now (l1 ++ l2) = recent now l1 ++ recent now l2.
Proof. apply List.filter_app. Qed.

Lemma recent_recent (T0 T : Z) (l : list Z) :
  (T0 <= T)%Z -> recent T (recent T0 l) = recent T l.
Proof.
  intros HT. unfold recent. induction l as [|t l IH]; [reflexivity|].
  cbn. destruct (Z.ltb_spec (T0 - minute) t) as [H0|H0]; cbn.
  - now rewrite IH.
  - destruct (Z.ltb_spec (T - minute) t); [lia|exact IH].
Qed.

Lemma filter_length_le {A : Type} (p q : A -> bool) (l : list A) :
  (forall x, p x = true -> q x = true) ->
  length (List.filter p l) <= length (List.filter q l).
Proof.
  intros Hpq. induction l as [|x l IH]; [reflexivity|]. cbn.
  destruct (p x) eqn:Ep.
  - rewrite (Hpq x Ep). cbn. lia.
  - destruct (q x); cbn; lia.
Qed.

Lemma check_rate_limit_step (now : Z) (c : string) (self : limiter) :
  let ok := (length (recent now (stored self c)) <? requests_per_minute self)%nat in
  fst (check_rate_limit now c self) = ok /\
  requests_per_minute (snd (check_rate_limit now c self))
    = requests_per_minute self /\
  forall ip,
    stored (snd (check_rate_limit now c self)) ip =
      if String.eqb c ip
      then recent now (stored self c) ++ (if ok then [now] else [])
      else stored self ip.
Proof.
  cbn zeta. unfold check_rate_limit. fold (stored self c).
  fold (recent now (stored self c)).
  destruct (Nat.leb_spec (requests_per_minute self)
              (length (recent now (stored self c)))) as [Hle|Hlt];
    destruct (Nat.ltb_spec (length (recent now (stored self c)))
                (requests_per_minute self)) as [Hlt'|Hle']; try lia;
    cbn [fst snd requests_per_minute]; (split; [reflexivity|split; [reflexivity|]]);
    intros ip; unfold stored at 1; cbn [requests];
    destruct (String.eqb_spec c ip) as [->|Hne].
  - rewrite lookup_insert_eq. cbn. now rewrite app_nil_r.
  - now rewrite lookup_insert_ne.
  - now rewrite lookup_insert_eq.
  - now rewrite lookup_insert_ne.
Qed.

Lemma run_cons (now : Z) (c : string) (rest : list (Z * string))
  (self : limiter) :
  run ((now, c) :: rest) self =
    (fst (check_rate_limit now c self)
       :: fst (run rest (snd (check_rate_limit now c self))),
     snd (run rest (snd (check_rate_limit now c self)))).
Proof.
  cbn [run]. destruct (check_rate_limit now c self) as [ok self1].
  cbn [fst snd]. now destruct (run rest self1).
Qed.

Lemma run_limit (calls : list (Z * string)) (self : limiter) :
  requests_per_minute (snd (run calls self)) = requests_per_minute self.
Proof.
  revert self. induction calls as [|[now c] rest IH]; intros self;
    [reflexivity|].
  rewrite run_cons. cbn [snd]. rewrite IH.
  apply (check_rate_limit_step now c self).
Qed.

(** What the limiter has on record agrees, on every window that ends at
    the present or later, with the accepted calls. *)
Definition on_record (self : limiter) (acc : string -> list Z) (T : Z) : Prop :=
  forall ip, recent T (stored self ip) = recent T (acc ip).

Lemma check_rate_limit_on_record (now : Z) (c : string) (self : limiter)
  (acc : string -> list Z) (T : Z) :
  (now <= T)%Z ->
  on_record self acc now -> on_record self acc T ->
  on_record (snd (check_rate_limit now c self))
    (fun ip => acc ip ++
       if fst (check_rate_limit now c self) && String.eqb c ip
       then [now] else []) T.
Proof.
  intros HT Hnow HTrec ip.
  destruct (check_rate_limit_step now c self) as (Hok & _ & Hst).
  rewrite Hst, Hok. destruct (String.eqb_spec c ip) as [->|Hne].
  - rewrite !recent_app, (recent_recent now T _ HT), (HTrec ip).
    now rewrite andb_true_r.
  - rewrite andb_false_r, app_nil_r. apply HTrec.
Qed.

Lemma run_on_record (calls : list (Z * string)) :
  forall (self : limiter) (acc : string -> list Z) (t0 : Z),
    clock_from t0 calls ->
    (forall T, (t0 <= T)%Z -> on_record self acc T) ->
    forall T, (t0 <= T)%Z ->
      (forall t, In t (map fst calls) -> (t <= T)%Z) ->
      on_record (snd (run calls self))
        (fun ip => acc ip ++ accepted calls (fst (run calls self)) ip) T.
Proof.
  induction calls as [|[now c] rest IH]; intros self acc t0 Hclock Hrec T HT Hall.
  - intros ip. cbn. rewrite app_nil_r. now apply Hrec.
  - destruct Hclock as [H0 Hclock]. rewrite run_cons. cbn [fst snd].
    assert (HnowT : (now <= T)%Z) by (apply Hall; now left).
    specialize (IH (snd (check_rate_limit now c self))
                  (fun ip => acc ip ++
                     if fst (check_rate_limit now c self) && String.eqb c ip
                     then [now] else []) now Hclock).
    intros ip.
    rewrite (IH (fun T' HT' =>
                   check_rate_limit_on_record now c self acc T' HT'
                     (Hrec now H0) (Hrec T' ltac:(lia)))
               T HnowT (fun t Ht => Hall t (or_intror Ht)) ip).
    f_equal. rewrite <- app_assoc. f_equal. cbn [accepted].
    now destruct (fst (check_rate_limit now c self) && String.eqb c ip).
Qed.

Lemma clock_from_app (t0 : Z) (before : list (Z * string)) (now : Z)
  (c : string) :
  clock_from t0 (before ++ [(now, c)]) ->
  clock_from t0 before /\ (t0 <= now)%Z /\
  forall t, In t (map fst before) -> (t <= now)%Z.
Proof.
  revert t0. induction before as [|[t1 c1] rest IH]; intros t0.
  - cbn. intros [H _]. repeat split; [exact H|]. intros t [].
  - cbn [app clock_from]. intros [H01 Hrest].
    destruct (IH t1 Hrest) as (Hc & H1 & Hall).
    repeat split; [exact H01|exact Hc|lia|].
    intros t [<-|Ht]; [exact H1|now apply Hall].
Qed.

Lemma run_app (before after : list (Z * string)) (self : limiter) :
  run (before ++ after) self =
    (fst (run before self) ++ fst (run after (snd (run before self))),
     snd (run after (snd (run before self)))).
Proof.
  revert self. induction before as [|[now c] rest IH]; intros self.
  - cbn. now destruct (run after self).
  - cbn [app]. rewrite !run_cons, IH. reflexivity.
Qed.

Lemma on_record_init (limit : nat) (T : Z) :
  on_record (init limit) (fun _ => []) T.
Proof. intros ip. unfold stored, init. cbn. now rewrite lookup_empty. Qed.

Lemma check_rate_limit_answer (limit : nat) (before : list (Z * string))
  (now : Z) (client_ip : string) (t0 : Z) :
  clock_from t0 (before ++ [(now, client_ip)]) ->
  fst (check_rate_limit now client_ip (snd (run before (init limit)))) =
    (length (recent now
               (accepted before (fst (run before (init limit))) client_ip))
       <? limit)%nat.
Proof.
  intros Hclock. apply clock_from_app in Hclock as (Hc & H0 & Hall).
  destruct (check_rate_limit_step now client_ip (snd (run before (init limit))))
    as (Hok & _ & _).
  rewrite Hok, run_limit. cbn [init requests_per_minute].
  pose proof (run_on_record before (init limit) (fun _ => []) t0 Hc
                (fun T _ => on_record_init limit T) now H0 Hall client_ip) as Hrec.
  cbn in Hrec. now rewrite Hrec.
Qed.

(** A call is accepted exactly when fewer than [requests_per_minute]
    calls of the same client were accepted in the minute before it: the
    refused calls of the client and the calls of other clients do not
    count against it. *)
Theorem check_rate_limit_counts_accepted_calls (limit : nat)
  (before : list (Z * string)) (now : Z) (client_ip : string) (t0 : Z) :
  clock_from t0 (before ++ [(now, client_ip)]) ->
  fst (check_rate_limit now client_ip (snd (run before (init limit)))) =
    (length (recent now
               (accepted before (fst (run before (init limit))) client_ip))
       <? limit)%nat.
Proof. apply check_rate_limit_answer. Qed.

Lemma accepted_app (before after : list (Z * string)) (oks1 oks2 : list bool)
  (ip : string) :
  length oks1 = length before ->
  accepted (before ++ after) (oks1 ++ oks2) ip =
    accepted before oks1 ip ++ accepted after oks2 ip.
Proof.
  revert oks1. induction before as [|[now c] rest IH]; intros [|ok oks1] Hlen;
    try discriminate; [reflexivity|].
  cbn [app accepted]. injection Hlen as Hlen. rewrite (IH oks1 Hlen).
  now destruct (ok && String.eqb c ip).
Qed.

Lemma run_length (calls : list (Z * string)) (self : limiter) :
  length (fst (run calls self)) = length calls.
Proof.
  revert self. induction calls as [|[now c] rest IH]; intros self;
    [reflexivity|].
  rewrite run_cons. cbn. now rewrite IH.
Qed.

Lemma run_window (limit : nat) (calls : list (Z * string)) (t0 : Z) :
  clock_from t0 calls ->
  forall ip T,
    length (List.filter (within T)
              (accepted calls (fst (run calls (init limit))) ip)) <= limit.
Proof.
  revert t0. induction calls as [|[now c] calls IH] using rev_ind;
    intros t0 Hclock ip T;
    [cbn; lia|].
  pose proof (check_rate_limit_answer limit calls now c t0 Hclock) as Hans.
  apply clock_from_app in Hclock as (Hc & H0 & Hall).
  specialize (IH t0 Hc).
  rewrite run_app. cbn [fst]. rewrite accepted_app by apply run_length.
  rewrite List.filter_app, length_app, run_cons. cbn [fst run accepted].
  destruct (fst (check_rate_limit now c (snd (run calls (init limit))))) eqn:Eok;
    cbn [andb]; [|cbn; specialize (IH ip T); lia].
  destruct (String.eqb_spec c ip) as [->|Hne]; [|cbn; specialize (IH ip T); lia].
  cbn [List.filter]. destruct (within T now) eqn:Ew;
    [|cbn; specialize (IH ip T); lia].
  symmetry in Hans. apply Nat.ltb_lt in Hans. cbn [length].
  enough (length (List.filter (within T)
                    (accepted calls (fst (run calls (init limit))) ip))
          <= length (recent now
                       (accepted calls (fst (run calls (init limit))) ip)))
    by lia.
  apply filter_length_le. intros t Ht. unfold within in Ht, Ew.
  apply andb_true_iff in Ht as [Ht _]. apply andb_true_iff in Ew as [_ Ew].
  apply Z.ltb_lt in Ht. apply Z.leb_le in Ew. apply Z.ltb_lt. lia.
Qed.

(** As long as the clock does not go back, no client has more than
    [requests_per_minute] calls accepted in any window of one minute,
    whatever the other clients do and however many calls are refused. *)
Theorem rate_limit_holds_in_every_window (limit : nat)
  (calls : list (Z * string)) (t0 : Z) :
  clock_from t0 calls ->
  forall client_ip T,
    length (List.filter (within T)
              (accepted calls (fst (run calls (init limit))) client_ip))
      <= limit.
Proof. apply run_window. Qed.

End RateLimit.

Lemma check_rate_limit_counts_accepted_calls_witness :
  fst (RateLimiter.check_rate_limit 50 "10.0.0.1"
         (snd (RateLimiter.run
                 [(0, "10.0.0.1"); (10, "10.0.0.2"); (20, "10.0.0.1");
                  (30, "10.0.0.1")]%Z
                 (RateLimiter.init 2)))) =
  (length (recent 50
             (accepted
                [(0, "10.0.0.1"); (10, "10.0.0.2"); (20, "10.0.0.1");
                 (30, "10.0.0.1")]%Z
                (fst (RateLimiter.run
                        [(0, "10.0.0.1"); (10, "10.0.0.2"); (20, "10.0.0.1");
                         (30, "10.0.0.1")]%Z
                        (RateLimiter.init 2)))
                "10.0.0.1")) <? 2)%nat.
Proof.
  apply (check_rate_limit_counts_accepted_calls 2
           [(0, "10.0.0.1"); (10, "10.0.0.2"); (20, "10.0.0.1");
            (30, "10.0.0.1")]%Z 50 "10.0.0.1" 0).
  cbn. lia.
Defined.

Lemma rate_limit_holds_in_every_window_witness :
  length (List.filter (within 61000000)
            (accepted
               [(0, "10.0.0.1"); (20000000, "10.0.0.1");
                (40000000, "10.0.0.1"); (60000001, "10.0.0.1")]%Z
               (fst (RateLimiter.run
                       [(0, "10.0.0.1"); (20000000, "10.0.0.1");
                        (40000000, "10.0.0.1"); (60000001, "10.0.0.1")]%Z
                       (RateLimiter.init 2)))
               "10.0.0.1")) <= 2.
Proof.
  apply (rate_limit_holds_in_every_window 2
           [(0, "10.0.0.1"); (20000000, "10.0.0.1");
            (40000000, "10.0.0.1"); (60000001, "10.0.0.1")]%Z 0).
  cbn. lia.
Defined.

(** ** services/visualizer.py: the column classifier *)

(** The number of values of [l] that equal none of [seen] nor an earlier
    value of [l]. *)
Fixpoint distinct_from (seen l : list cell) : nat :=
  match l with
  | [] => 0
  | c :: l' =>
      if existsb (Validator.cell_eqb c) seen then distinct_from seen l'
      else S (distinct_from (c :: seen) l')
  end.

(** [series.nunique()] *)
Definition nunique (series : column) : nat :=
  distinct_from [] (List.filter notna (col_cells series)).

Module Visualizer.

Import Re.

Definition CATEGORICAL_UNIQUE_THRESHOLD : nat := 20.
Definition MIN_VALUES_FOR_CHART : nat := 2.

(** [\d{4}-\d{2}-\d{2}] *)
Definition ymd_prefix : re :=
  Cat (Rep 4 Cleaner.digit)
    (Cat (Lit "-") (Cat (Rep 2 Cleaner.digit)
       (Cat (Lit "-") (Rep 2 Cleaner.digit)))).

(** [re.match('^' r, s)]: the pattern matches a prefix of the string. *)
Definition match_prefix (r : re) (s : string) : bool :=
  full_match (Cat r (Star (Cls (fun _ => true)))) s.

Section Classifier.
Context `{Pandas}.

Definition detect_column_type (series : column) : result string :=
  let non_null := List.filter notna (col_cells series) in
  if (length non_null <? MIN_VALUES_FOR_CHART)%nat then Ok "unknown"
  else if is_datetime64_any_dtype (col_dtype series) then Ok "temporal"
  else
    temporal ←
      (if is_object_dtype (col_dtype series) then
         let sample := map py_str (firstn 20 non_null) in
         let date_like := count (match_prefix ymd_prefix) sample in
         ratio ← true_div date_like (length sample);
         Ok (fgt ratio 0.7)
       else Ok false);
    if (temporal : bool) then Ok "temporal"
    else if is_numeric_dtype (col_dtype series) then
      if (nunique series <=? CATEGORICAL_UNIQUE_THRESHOLD)%nat
      then Ok "categorical" else Ok "numerical"
    else if is_object_dtype (col_dtype series) then
      if (nunique series <=? CATEGORICAL_UNIQUE_THRESHOLD)%nat
      then Ok "categorical" else Ok "unknown"
    else Ok "unknown".

End Classifier.

End Visualizer.

Section Matching.

Import Re.

Lemma full_match_alt (r1 r2 : re) (s : string) :
  full_match (Alt r1 r2) s = full_match r1 s || full_match r2 s.
Proof.
  revert r1 r2. induction s as [|c s IH]; intros r1 r2; [reflexivity|].
  cbn [full_match deriv]. apply IH.
Qed.

Lemma full_match_cat (r1 r2 : re) (s1 s2 : string) :
  full_match r1 s1 = true -> full_match r2 s2 = true ->
  full_match (Cat r1 r2) (s1 +:+ s2) = true.
Proof.
  revert r1. induction s1 as [|c s1 IH]; intros r1 H1 H2.
  - change (EmptyString +:+ s2) with s2. cbn [full_match] in H1.
    destruct s2 as [|c s2]; cbn [full_match] in *.
    + cbn [nullable]. now rewrite H1, H2.
    + cbn [deriv]. rewrite H1, full_match_alt, H2. apply orb_true_r.
  - change (String c s1 +:+ s2) with (String c (s1 +:+ s2)).
    cbn [full_match] in *. cbn [deriv].
    destruct (nullable r1).
    + rewrite full_match_alt, (IH _ H1 H2). reflexivity.
    + exact (IH _ H1 H2).
Qed.

Lemma full_match_anything (s : string) :
  full_match (Star (Cls (fun _ => true))) s = true.
Proof.
  induction s as [|c s IH]; [reflexivity|].
  cbn [full_match deriv].
  exact (full_match_cat Eps _ EmptyString s eq_refl IH).
Qed.

Lemma match_prefix_app (r : re) (s rest : string) :
  full_match r s = true -> Visualizer.match_prefix r (s +:+ rest) = true.
Proof.
  intros Hs. apply full_match_cat; [exact Hs|apply full_match_anything].
Qed.

End Matching.

(** A date the calendar of [pd.Timestamp] can hold: the year has at most
    four digits, the month and the day at most two. *)
Definition four_digit_year (t : timestamp) : bool :=
  (Z.of_nat (ts_year t) <? 10000)%Z &&
  (ts_month t <? 100)%nat && (ts_day t <? 100)%nat.

Section Temporal.
Context `{Pandas}.

Import Re.

Lemma digits4 (n : nat) :
  (n < 100 * 100)%nat ->
  full_match (Rep 4 Cleaner.digit) (Cleaner.pad_left 4 (string_of_nat n)) = true.
Proof.
  intros Hn.
  assert (Htab : forallb (fun n => full_match (Rep 4 Cleaner.digit)
                                     (Cleaner.pad_left 4 (string_of_nat n)))
                   (seq 0 (100 * 100)) = true) by (vm_compute; reflexivity).
  rewrite forallb_forall in Htab. apply Htab, in_seq. lia.
Qed.

Lemma digits2 (n : nat) :
  (n < 100)%nat ->
  full_match (Rep 2 Cleaner.digit) (Cleaner.pad_left 2 (string_of_nat n)) = true.
Proof.
  intros Hn.
  assert (Htab : forallb (fun n => full_match (Rep 2 Cleaner.digit)
                                     (Cleaner.pad_left 2 (string_of_nat n)))
                   (seq 0 100) = true) by (vm_compute; reflexivity).
  rewrite forallb_forall in Htab. apply Htab, in_seq. lia.
Qed.

Lemma append_empty (s : string) : s +:+ EmptyString = s.
Proof.
  induction s as [|c s IH]; [reflexivity|].
  change (String c s +:+ EmptyString) with (String c (s +:+ EmptyString)).
  now rewrite IH.
Qed.

Lemma strftime_ymd_iso (t : timestamp) :
  four_digit_year t = true ->
  Visualizer.match_prefix Visualizer.ymd_prefix (Cleaner.strftime_ymd t) = true.
Proof.
  unfold four_digit_year. intros Ht.
  apply andb_true_iff in Ht as [Ht Hd]. apply andb_true_iff in Ht as [Hy Hm].
  apply Z.ltb_lt in Hy. apply Nat.ltb_lt in Hm, Hd.
  rewrite <- (append_empty (Cleaner.strftime_ymd t)).
  unfold Visualizer.match_prefix. apply full_match_cat;
    [|reflexivity].
  unfold Cleaner.strftime_ymd, Visualizer.ymd_prefix.
  apply full_match_cat; [apply digits4; lia|].
  apply (full_match_cat (Lit "-") _ "-"); [reflexivity|].
  apply full_match_cat; [now apply digits2|].
  apply (full_match_cat (Lit "-") _ "-"); [reflexivity|].
  now apply digits2.
Qed.

(** The non-null cells of a converted column are dates in ISO form. *)
Lemma formatted_dates_iso (parsed : list (option timestamp)) :
  (forall t, In (Some t) parsed -> four_digit_year t = true) ->
  List.Forall (fun s => Visualizer.match_prefix Visualizer.ymd_prefix s = true)
    (map py_str (List.filter notna (map Cleaner.formatted_date parsed))).
Proof.
  induction parsed as [|o parsed IH]; intros Hall; [constructor|].
  cbn [map]. destruct o as [t|].
  - unfold Cleaner.formatted_date at 1. rewrite strftime_ymd_not_NaT.
    cbn [List.filter notna isna negb map py_str]. constructor.
    + apply strftime_ymd_iso, Hall. now left.
    + apply IH. intros t' Ht'. apply Hall. now right.
  - cbn [Cleaner.formatted_date List.filter notna isna negb].
    apply IH. intros t' Ht'. apply Hall. now right.
Qed.

Lemma formatted_dates_count (parsed : list (option timestamp)) :
  length (List.filter notna (map Cleaner.formatted_date parsed)) =
  count notna (map Cleaner.cell_of_parsed parsed).
Proof.
  unfold count. induction parsed as [|[t|] parsed IH]; [reflexivity| |exact IH].
  cbn [map]. unfold Cleaner.formatted_date at 1. rewrite strftime_ymd_not_NaT.
  cbn. now rewrite IH.
Qed.

Lemma count_all {A : Type} (p : A -> bool) (l : list A) :
  List.Forall (fun x => p x = true) l -> count p l = length l.
Proof.
  unfold count. induction 1 as [|x l Hx _ IH]; [reflexivity|].
  cbn. rewrite Hx. cbn. now rewrite IH.
Qed.

Lemma firstn_map_Forall {A : Type} (P : A -> Prop) (n : nat) (l : list A) :
  List.Forall P l -> List.Forall P (firstn n l).
Proof.
  intros Hl. revert n. induction Hl as [|x l Hx _ IH]; intros [|n];
    cbn [firstn]; constructor; [exact Hx|apply IH].
Qed.

Lemma converted_column_temporal (parsed : list (option timestamp)) :
  (forall t, In (Some t) parsed -> four_digit_year t = true) ->
  (2 <= count notna (map Cleaner.cell_of_parsed parsed))%nat ->
  Visualizer.detect_column_type
    (Column ObjectDtype (map Cleaner.formatted_date parsed)) = Ok "temporal".
Proof.
  intros Hall Hcount. unfold Visualizer.detect_column_type.
  cbn [col_cells col_dtype is_datetime64_any_dtype is_object_dtype].
  rewrite formatted_dates_count.
  destruct (Nat.ltb_spec (count notna (map Cleaner.cell_of_parsed parsed))
              Visualizer.MIN_VALUES_FOR_CHART) as [Hlt|_];
    [unfold Visualizer.MIN_VALUES_FOR_CHART in Hlt; lia|].
  rewrite <- firstn_map.
  rewrite (count_all _ _ (firstn_map_Forall _ 20 _ (formatted_dates_iso parsed Hall))).
  set (n := length (firstn 20 (map py_str
                (List.filter notna (map Cleaner.formatted_date parsed))))).
  assert (Hn : (2 <= n <= 20)%nat).
  { subst n. rewrite length_firstn, length_map, formatted_dates_count. lia. }
  unfold true_div. destruct (Nat.eqb_spec n 0) as [E|_]; [lia|].
  cbn [mbind result_bind].
  change (fgt (float_of_nat n / float_of_nat n)%float 0.7)
    with (ratio_gt n n 0.7).
  rewrite ratio_gt_70 by lia.
  destruct (Nat.ltb_spec (7 * n) (10 * n)) as [_|Hge]; [reflexivity|lia].
Qed.

(** A column that [convert_to_date] rewrote with at least two parsed dates
    is classified as 'temporal' by the chart selection: the two stages
    agree on the columns the cleaner turned into dates. *)
Theorem converted_dates_are_charted_as_temporal (df : frame) (col : string)
  (original : column) (parsed : list (option timestamp)) :
  get_col df col = Ok original ->
  to_datetime (col_cells original) = Ok parsed ->
  (forall t, In (Some t) parsed -> four_digit_year t = true) ->
  (2 <= count notna (map Cleaner.cell_of_parsed parsed))%nat ->
  exists out entry series,
    Cleaner.convert_to_date df col = Ok (out, [entry]) /\
    entry_column entry = Some col /\
    get_col out col = Ok series /\
    Visualizer.detect_column_type series = Ok "temporal".
Proof.
  intros Hget Hparse Hall Hcount.
  exists (set_col df col (Column ObjectDtype (map Cleaner.formatted_date parsed))).
  eexists. exists (Column ObjectDtype (map Cleaner.formatted_date parsed)).
  split; [|split; [|split]].
  - unfold Cleaner.convert_to_date. rewrite Hget. cbn [mbind result_bind].
    rewrite Hparse. cbn [mbind result_bind].
    destruct (Z.gtb_spec (Z.of_nat (count notna (map Cleaner.cell_of_parsed parsed))) 0)
      as [_|Hle]; [reflexivity|lia].
  - reflexivity.
  - apply get_set_col.
  - now apply converted_column_temporal.
Qed.

End Temporal.

(** A column of two ISO dates and a text that is no date. *)
Definition two_days : frame :=
  Frame [0; 1; 2]%Z
    [("when",
      Column ObjectDtype
        [VText "2024-01-05"; VText "2024-02-29"; VText "later"])].

Lemma converted_dates_are_charted_as_temporal_witness :
  exists out entry series,
    @Cleaner.convert_to_date Reference.pandas two_days "when"
      = Ok (out, [entry]) /\
    entry_column entry = Some "when" /\
    get_col out "when" = Ok series /\
    @Visualizer.detect_column_type Reference.pandas series = Ok "temporal".
Proof.
  refine (@converted_dates_are_charted_as_temporal Reference.pandas
            two_days "when" _ _ _ _ _ _).
  - reflexivity.
  - reflexivity.
  - vm_compute. intros t [E|[E|[E|[]]]]; now inversion E.
  - vm_compute. lia.
Defined.

(** ** services/parser.py: the column summary *)

Module ColumnInfo.

Record column_info : Type := {
  name : string;
  original_name : cell;
  dtype_name : string;
  non_null_count : nat;
  null_count : nat;
  unique_count : nat;
  sample_values : list cell
}.

(** [str(series.dtype)] *)
Definition str_of_dtype (d : dtype) : string :=
  match d with
  | ObjectDtype => "object"
  | Int64 => "int64"
  | Float64 => "float64"
  | BoolDtype => "bool"
  | Datetime64 => "datetime64[ns]"
  end.

(** The record built for one column. *)
Definition info_of (column_mapping : gmap string cell) (col : string)
  (series : column) : column_info :=
  {| name := col;
     original_name := default (VText col) (column_mapping !! col);
     dtype_name := str_of_dtype (col_dtype series);
     non_null_count := count notna (col_cells series);
     null_count := count isna (col_cells series);
     unique_count := nunique series;
     sample_values := firstn 5 (List.filter notna (col_cells series)) |}.

Fixpoint column_info_loop (df : frame) (column_mapping : gmap string cell)
  (cols : list string) (columns_info : list column_info)
  : result (list column_info) :=
  match cols with
  | [] => Ok columns_info
  | col :: rest =>
      series ← get_col df col;
      column_info_loop df column_mapping rest
        (columns_info ++ [info_of column_mapping col series])
  end.

Definition get_column_info (df : frame) (column_mapping : gmap string cell)
  : result (list column_info) :=
  column_info_loop df column_mapping (column_names df) [].

End ColumnInfo.

Section ColumnSummary.

Import ColumnInfo.

Lemma distinct_from_le (seen l : list cell) :
  (distinct_from seen l <= length l)%nat.
Proof.
  revert seen. induction l as [|c l IH]; intros seen; [reflexivity|].
  cbn [distinct_from length].
  destruct (existsb (Validator.cell_eqb c) seen).
  - specialize (IH seen). lia.
  - specialize (IH (c :: seen)). lia.
Qed.

Lemma distinct_from_pos (c : cell) (l : list cell) :
  (1 <= distinct_from [] (c :: l))%nat.
Proof. cbn. lia. Qed.

(** What one record says about its column of a frame of [n] rows. *)
Definition summarises (column_mapping : gmap string cell) (n : nat)
  (info : column_info) : Prop :=
  (non_null_count info + null_count info = n)%nat /\
  (unique_count info <= non_null_count info)%nat /\
  (unique_count info = 0%nat <-> non_null_count info = 0%nat) /\
  length (sample_values info) = Nat.min 5 (non_null_count info) /\
  List.Forall (fun v => notna v = true) (sample_values info) /\
  original_name info =
    default (VText (name info)) (column_mapping !! name info).

Lemma info_of_summarises (column_mapping : gmap string cell) (col : string)
  (series : column) :
  summarises column_mapping (length (col_cells series))
    (info_of column_mapping col series).
Proof.
  unfold summarises, info_of; cbn. repeat split.
  - rewrite (count_complement notna (col_cells series)). unfold notna.
    f_equal. unfold count. f_equal. apply List.filter_ext.
    intros c. symmetry. apply negb_involutive.
  - apply distinct_from_le.
  - unfold nunique, count. destruct (List.filter notna (col_cells series));
      [reflexivity|]. intros E. pose proof (distinct_from_pos c l). lia.
  - unfold nunique, count. intros E.
    now rewrite (proj1 (length_zero_iff_nil _) E).
  - rewrite length_firstn. reflexivity.
  - apply firstn_map_Forall, List.Forall_forall.
    intros v Hv. now apply List.filter_In in Hv.
Qed.

Lemma column_info_loop_spec (df : frame) (column_mapping : gmap string cell)
  (cols : list string) :
  well_formed df ->
  (forall col, In col cols -> In col (column_names df)) ->
  forall columns_info,
  exists infos,
    column_info_loop df column_mapping cols columns_info
      = Ok (columns_info ++ infos) /\
    map name infos = cols /\
    List.Forall (summarises column_mapping (len df)) infos.
Proof.
  intros Hwf. induction cols as [|col rest IH]; intros Hin columns_info.
  - exists []. rewrite app_nil_r. repeat split; constructor.
  - destruct (proj1 (get_col_ok_iff df col) (Hin col (or_introl eq_refl)))
      as [series Hget].
    destruct (IH (fun c Hc => Hin c (or_intror Hc))
                (columns_info ++ [info_of column_mapping col series]))
      as (infos & Hrun & Hnames & Hall).
    exists (info_of column_mapping col series :: infos).
    cbn [column_info_loop]. rewrite Hget. cbn [mbind result_bind].
    rewrite Hrun, <- app_assoc. repeat split.
    + cbn. now rewrite Hnames.
    + constructor; [|exact Hall].
      unfold well_formed in Hwf. rewrite List.Forall_forall in Hwf.
      rewrite <- (Hwf _ (get_col_In df col series Hget)).
      apply info_of_summarises.
Qed.

(** On a frame whose columns all have the frame's length,
    [get_column_info] returns one record per column, in column order; in
    each record the null and non-null counts add up to the number of rows,
    the number of distinct values is at most the non-null count and is
    zero only with it, the samples are the first non-null values, five at
    most, and the original name is the mapped one or, without a mapping,
    the name itself. *)
Theorem get_column_info_spec (df : frame) (column_mapping : gmap string cell) :
  well_formed df ->
  exists infos,
    get_column_info df column_mapping = Ok infos /\
    map name infos = column_names df /\
    List.Forall (summarises column_mapping (len df)) infos.
Proof.
  intros Hwf.
  destruct (column_info_loop_spec df column_mapping (column_names df) Hwf
              (fun _ H => H) []) as (infos & Hrun & Hnames & Hall).
  exists infos. now repeat split.
Qed.

End ColumnSummary.

Lemma get_column_info_spec_witness :
  exists infos,
    ColumnInfo.get_column_info dates_frame ∅ = Ok infos /\
    map ColumnInfo.name infos = column_names dates_frame /\
    List.Forall (summarises ∅ (len dates_frame)) infos.
Proof.
  apply (get_column_info_spec dates_frame ∅).
  repeat constructor.
Defined.

(** ** utils/serialization.py *)

Module Serialization.

Set Warnings "-register-all".

(** The values [convert_to_serializable] tells apart.  An array is given
    by what its [tolist()] returns; [PdNA] stands for [pd.NaT] and [pd.NA];
    [Other] is any object of another type, which no test of the function
    catches. *)
Inductive pyobj : Type :=
| PNone
| PBool (b : bool)
| PInt (z : Z)
| PFloat (f : float)
| PStr (s : string)
| NpInteger (z : Z)
| NpFloating (f : float)
| NpBool (b : bool)
| NdArray (items : list pyobj)
| PdTimestamp (t : timestamp)
| PdTimedelta (d : Z)
| PdNA
| PDict (items : list (pyobj * pyobj))
| PList (items : list pyobj)
| PTuple (items : list pyobj)
| Other (tag : nat).

Section Convert.

(** [Timestamp.isoformat()] and [str(Timedelta)] *)
Variable isoformat : timestamp -> string.
Variable timedelta_str : Z -> string.

Fixpoint convert_to_serializable (obj : pyobj) : pyobj :=
  match obj with
  | PNone => PNone
  | NpInteger z => PInt z
  | NpFloating f => if PrimFloat.is_nan f then PNone else PFloat f
  | NpBool b => PBool b
  | NdArray items => PList (map convert_to_serializable items)
  | PdTimestamp t => PStr (isoformat t)
  | PdTimedelta d => PStr (timedelta_str d)
  | PdNA => PNone
  | PFloat f => if PrimFloat.is_nan f then PNone else PFloat f
  | PDict items =>
      PDict (map (fun '(k, v) => (k, convert_to_serializable v)) items)
  | PList items => PList (map convert_to_serializable items)
  | PTuple items => PList (map convert_to_serializable items)
  | PBool b => PBool b
  | PInt z => PInt z
  | PStr s => PStr s
  | Other tag => Other tag
  end.

Definition make_json_safe (data : pyobj) : pyobj :=
  convert_to_serializable data.

End Convert.


End Serialization.

Section Serializable.

Import Serialization.

Variable P : pyobj -> Prop.
Hypothesis HNone : P PNone.
Hypothesis HBool : forall b, P (PBool b).
Hypothesis HInt : forall z, P (PInt z).
Hypothesis HFloat : forall f, P (PFloat f).
Hypothesis HStr : forall s, P (PStr s).
Hypothesis HNpInteger : forall z, P (NpInteger z).
Hypothesis HNpFloating : forall f, P (NpFloating f).
Hypothesis HNpBool : forall b, P (NpBool b).
Hypothesis HNdArray : forall items, List.Forall P items -> P (NdArray items).
Hypothesis HTimestamp : forall t, P (PdTimestamp t).
Hypothesis HTimedelta : forall d, P (PdTimedelta d).
Hypothesis HNA : P PdNA.
Hypothesis HDict :
  forall items, List.Forall (fun kv => P (snd kv)) items -> P (PDict items).
Hypothesis HList : forall items, List.Forall P items -> P (PList items).
Hypothesis HTuple : forall items, List.Forall P items -> P (PTuple items).
Hypothesis HOther : forall tag, P (Other tag).


End Serializable.

Section SerializableFacts.

Import Serialization.

Variable isoformat : timestamp -> string.
Variable timedelta_str : Z -> string.

Local Abbreviation convert := (convert_to_serializable isoformat timedelta_str).






End SerializableFacts.
